(** * excel_wrapper: a shallow embedding of [src/excel_wrapper.py]

    The Python module accumulates tabular data under named sheets and
    renders it through the openpyxl engine.  This development embeds the
    in-memory table store, the natural sort, the column-letter encoding,
    the formatting-rule registry and the export pipeline, and states the
    properties of the specification over that embedding.

    Conventions of the embedding.
    - Python values are the inductive type [pyval] (None, bool, int, str,
      list, tuple, set, dict with string keys).  Floats and datetimes are
      not part of the universe.
    - Python [str] is Rocq's [string], read as the sequence of its code
      points: the strings of the embedding are those whose code points are
      below 256.  In this range [str.isdigit] accepts the digits 0-9 and
      three superscripts, and [str.lower] changes A-Z and the capital
      letters 192..222.  Decimal digits of other scripts, which
      [str.isdigit] and [int] accept as well, are not in the range; the
      statements about the sort that depend on it are stated for texts
      without a span that [str.isdigit] takes for a number.
    - [int] follows CPython's default limit of 4300 digits, and so does
      [str] of the cells that the sort converts.
    - A raised exception is the [Err] branch of [result]; methods of the
      wrapper are functions [wrapper -> result A * wrapper], so that the
      mutations made before an exception remain visible afterwards.
    - openpyxl objects (workbook, worksheet, rule, table) are records of
      the values the wrapper hands to the engine.  The checks of the
      [Rule] and [PatternFill] constructors (the formula is a list or a
      tuple, the colour an aRGB hex value) are embedded, because they
      decide what [conditional_format] records; so are the cells that
      reading the rows or the columns of a sheet creates.  What the engine
      does with cell values, titles and table names (its refusal of
      containers and control characters as cell values and of clashing
      table names, its truncation of long text, its renaming of clashing
      titles) is outside the embedding: the embedding saves a document
      whenever the code does.
    - [list.sort] is embedded by its contract, a stable sort that compares
      with [<] only. *)

From Stdlib Require Import ZArith List Bool Ascii String Lia Permutation Sorted.
From Stdlib Require Import Numbers.DecimalString.
Import ListNotations.

Set Warnings "-register-all".

Open Scope string_scope.
Open Scope Z_scope.

(** ** Exceptions and results *)

(** The exceptions the module raises or lets through.  [Diverges] is not an
    exception: it marks a call that does not return. *)
Inductive exn : Type :=
| IndexError
| TypeError (msg : string)
| ValueError (msg : string)
| KeyError
| AttributeError
| StopIteration
| RuntimeError (msg : string)
| SystemExit (msg : string)
| Diverges.

Inductive result (A : Type) : Type :=
| Ok (a : A)
| Err (e : exn).

Arguments Ok {A} a.
Arguments Err {A} e.

Definition rbind {A B : Type} (r : result A) (k : A -> result B) : result B :=
  match r with
  | Ok a => k a
  | Err e => Err e
  end.

Fixpoint rmap {A B : Type} (f : A -> result B) (l : list A) : result (list B) :=
  match l with
  | [] => Ok []
  | x :: l' =>
      rbind (f x) (fun y => rbind (rmap f l') (fun ys => Ok (y :: ys)))
  end.

(** ** Python values *)

Inductive pyval : Type :=
| PNone
| PBool (b : bool)
| PInt (z : Z)
| PStr (s : string)
| PList (l : list pyval)
| PTuple (l : list pyval)
| PSet (l : list pyval)
| PDict (l : list (string * pyval)).

(** [str(z)] for an integer. *)
Definition string_of_Z (z : Z) : string :=
  NilZero.string_of_int (Z.to_int z).

(** [chr(z)] on the 8-bit range. *)
Definition chr (z : Z) : ascii := ascii_of_N (Z.to_N z).

(** [ord(c)]. *)
Definition ord (c : ascii) : Z := Z.of_N (N_of_ascii c).

(** ** Column letters: [ExcelWrapper._col_to_excel] *)

(** The [while div:] loop.  Each unit of fuel pays for one iteration; [None]
    is a loop that has not finished when the fuel runs out. *)
Fixpoint col_loop (fuel : nat) (div : Z) (excel_col : string) : option string :=
  if div =? 0 then Some excel_col
  else
    match fuel with
    | O => None
    | S fuel' =>
        let d := (div - 1) / 26 in
        let m := (div - 1) mod 26 in
        col_loop fuel' d (String (chr (m + 65)) excel_col)
    end.

(** [_col_to_excel(col)].  For [col >= 0] the loop runs at most [col] times;
    for a negative [col] the Python loop never reaches zero ([divmod(-2, 26)]
    is [(-1, 24)]), which the embedding renders as [None]. *)
Definition _col_to_excel (col : Z) : option string :=
  col_loop (Z.to_nat col) col "".

(** The bijective base-26 reading of a word over [A..Z]: the letters are the
    digits 1..26, most significant first. *)
Definition letter_digit (c : ascii) : Z := ord c - 64.

Fixpoint letters_value_from (acc : Z) (s : string) : Z :=
  match s with
  | EmptyString => acc
  | String c s' => letters_value_from (acc * 26 + letter_digit c) s'
  end.

Definition letters_value (s : string) : Z := letters_value_from 0 s.

Definition is_upper (c : ascii) : bool :=
  (65 <=? ord c) && (ord c <=? 90).

Fixpoint string_forallb (p : ascii -> bool) (s : string) : bool :=
  match s with
  | EmptyString => true
  | String c s' => p c && string_forallb p s'
  end.

(** A column name: a non-empty word over [A..Z]. *)
Definition column_name (s : string) : Prop :=
  s <> "" /\ string_forallb is_upper s = true.

(** ** Strings: the operations of [str] and [re] that the module uses *)

(** A [str] is read as the sequence of its code points, one character of
    the Rocq string per code point: the strings of the embedding are the
    Python strings whose code points are below 256. *)

(** The class [[0-9]]. *)
Definition is_digit (c : ascii) : bool :=
  (48 <=? ord c) && (ord c <=? 57).

(** A match of [[0-9]+]: at least one character, all of the class. *)
Definition digit_run (text : string) : bool :=
  match text with
  | EmptyString => false
  | String _ _ => string_forallb is_digit text
  end.

(** The characters below 256 that [str.isdigit] accepts: the decimal digits
    and the superscripts two (178), three (179) and one (185). *)
Definition isdigit_char (c : ascii) : bool :=
  is_digit c || (ord c =? 178) || (ord c =? 179) || (ord c =? 185).

(** [text.isdigit()]: at least one character, all of them digits. *)
Definition isdigit (text : string) : bool :=
  match text with
  | EmptyString => false
  | String _ _ => string_forallb isdigit_char text
  end.

(** The characters below 256 that [str.lower] changes: [A..Z] and the
    capital letters 192..222 (215, the multiplication sign, is not one);
    the lowercase letter is 32 places further. *)
Definition has_lower (c : ascii) : bool :=
  is_upper c || ((192 <=? ord c) && (ord c <=? 222) && negb (ord c =? 215)).

Definition lower_char (c : ascii) : ascii :=
  if has_lower c then chr (ord c + 32) else c.

(** [text.lower()]. *)
Fixpoint lower (text : string) : string :=
  match text with
  | EmptyString => EmptyString
  | String c s => String (lower_char c) (lower s)
  end.

Fixpoint int_from (acc : Z) (text : string) : Z :=
  match text with
  | EmptyString => acc
  | String c s => int_from (acc * 10 + (ord c - 48)) s
  end.

(** [sys.int_info.default_max_str_digits]: the longest decimal text that
    CPython converts to or from an [int]; the module does not change the
    limit. *)
Definition int_max_str_digits : nat := 4300.

(** [int(text)] as the module calls it, on a text for which
    [text.isdigit()] holds.  Such a text holds no sign, blank or
    underscore, so it is a literal exactly when all its characters are
    decimal digits; a superscript is refused, and so is a literal of more
    than 4300 digits. *)
Definition int (text : string) : result Z :=
  if digit_run text
  then
    if Nat.ltb int_max_str_digits (String.length text)
    then Err (ValueError
                ("Exceeds the limit (4300 digits) for integer string conversion: value has "
                 ++ string_of_Z (Z.of_nat (String.length text))
                 ++ " digits; use sys.set_int_max_str_digits() to increase the limit"))
    else Ok (int_from 0 text)
  else Err (ValueError
              ("invalid literal for int() with base 10: '" ++ text ++ "'")).

(** [str(z)] for an [int] raises ValueError when [z] has more digits than
    the limit. *)
Definition str_fits (z : Z) : bool :=
  Z.abs z <? 10 ^ Z.of_nat int_max_str_digits.

(** [re.split('([0-9]+)', s)]: the pattern matches the maximal digit runs
    from left to right; because the pattern is a capturing group the result
    alternates the text between matches with the matched runs, starting and
    ending with a (possibly empty) text span.  The scanner carries the span
    being read ([cur]) and whether it is a digit run ([in_run]). *)
Fixpoint re_split_from (in_run : bool) (cur : string) (s : string) : list string :=
  match s with
  | EmptyString => if in_run then [cur; ""] else [cur]
  | String c s' =>
      if Bool.eqb (is_digit c) in_run
      then re_split_from in_run (cur ++ String c "") s'
      else cur :: re_split_from (is_digit c) (String c "") s'
  end.

Definition re_split_digits (s : string) : list string :=
  re_split_from false "" s.

(** [s.replace(' ', '')]. *)
Fixpoint remove_spaces (s : string) : string :=
  match s with
  | EmptyString => EmptyString
  | String c s' =>
      if Ascii.eqb c " " then remove_spaces s' else String c (remove_spaces s')
  end.

(** [s.lstrip('#')]. *)
Fixpoint lstrip_hash (s : string) : string :=
  match s with
  | String c s' => if Ascii.eqb c "#" then lstrip_hash s' else s
  | EmptyString => EmptyString
  end.

(** The superscript two, code point 178. *)
Definition superscript_two : string := String (chr 178) EmptyString.

(** ** Natural sort key *)

(** An element of a key: [int] for a digit run, [str] for any other span. *)
Inductive segment : Type :=
| SInt (z : Z)
| SStr (s : string).

(** [int(text) if text.isdigit() else text.lower()], the element of the
    comprehension of [natural_sort_key]. *)
Definition key_segment (text : string) : result segment :=
  if isdigit text
  then rbind (int text) (fun z => Ok (SInt z))
  else Ok (SStr (lower text)).

(** [natural_sort_key(s)], the inner function of
    [natural_sort_multiple_columns]. *)
Definition natural_sort_key (s : string) : result (list segment) :=
  rmap key_segment (re_split_digits s).

(** Python's [==] on two elements of a key. *)
Definition segment_eqb (a b : segment) : bool :=
  match a, b with
  | SInt x, SInt y => x =? y
  | SStr x, SStr y => String.eqb x y
  | _, _ => false
  end.

(** Python's [<] on two elements of a key; an [int] and a [str] do not
    compare. *)
Definition segment_lt (a b : segment) : result bool :=
  match a, b with
  | SInt x, SInt y => Ok (x <? y)
  | SStr x, SStr y => Ok (String.ltb x y)
  | SInt _, SStr _ =>
      Err (TypeError "'<' not supported between instances of 'int' and 'str'")
  | SStr _, SInt _ =>
      Err (TypeError "'<' not supported between instances of 'str' and 'int'")
  end.

(** [==] of two lists: same length and equal elements. *)
Fixpoint list_eqb {A : Type} (eqb : A -> A -> bool) (v w : list A) : bool :=
  match v, w with
  | [], [] => true
  | x :: v', y :: w' => eqb x y && list_eqb eqb v' w'
  | _, _ => false
  end.

(** [<] of two lists: the first position where the elements are not [==]
    decides by [<] of the two elements; if there is none the shorter list is
    the smaller. *)
Fixpoint list_lt {A : Type} (eqb : A -> A -> bool) (lt : A -> A -> result bool)
    (v w : list A) : result bool :=
  match v, w with
  | [], [] => Ok false
  | [], _ :: _ => Ok true
  | _ :: _, [] => Ok false
  | x :: v', y :: w' => if eqb x y then list_lt eqb lt v' w' else lt x y
  end.

(** The key of a row is one [natural_sort_key] per sort column. *)
Definition row_key : Type := list (list segment).

Definition row_key_eqb : row_key -> row_key -> bool :=
  list_eqb (list_eqb segment_eqb).

Definition row_key_lt : row_key -> row_key -> result bool :=
  list_lt (list_eqb segment_eqb) (list_lt segment_eqb segment_lt).

(** ** [list.sort(key=...)] *)

(** CPython computes the key of every element first and then sorts the
    decorated elements, comparing keys with [<] only; the sort is stable.
    The embedding is the stable insertion sort: [x], which comes before
    every element of [l] in the input, is moved right only past elements
    that are strictly smaller. *)
Fixpoint sort_insert {K A : Type} (lt : K -> K -> result bool)
    (x : K * A) (l : list (K * A)) : result (list (K * A)) :=
  match l with
  | [] => Ok [x]
  | y :: l' =>
      rbind (lt (fst y) (fst x)) (fun b =>
        if b
        then rbind (sort_insert lt x l') (fun r => Ok (y :: r))
        else Ok (x :: y :: l'))
  end.

Fixpoint sort_decorated {K A : Type} (lt : K -> K -> result bool)
    (l : list (K * A)) : result (list (K * A)) :=
  match l with
  | [] => Ok []
  | x :: l' => rbind (sort_decorated lt l') (sort_insert lt x)
  end.

Definition decorate {K A : Type} (key : A -> result K) (x : A) : result (K * A) :=
  rbind (key x) (fun k => Ok (k, x)).

Definition list_sort {K A : Type} (key : A -> result K)
    (lt : K -> K -> result bool) (data : list A) : result (list A) :=
  rbind (rmap (decorate key) data) (fun dec =>
  rbind (sort_decorated lt dec) (fun sorted =>
  Ok (map snd sorted))).

(** ** Operations on Python values *)

(** [seq[i]] on a list or tuple: negative indices count from the end. *)
Definition py_index {A : Type} (l : list A) (i : Z) : result A :=
  let n := Z.of_nat (List.length l) in
  let j := if i <? 0 then i + n else i in
  if (0 <=? j) && (j <? n)
  then match nth_error l (Z.to_nat j) with
       | Some x => Ok x
       | None => Err IndexError
       end
  else Err IndexError.

Fixpoint chars (s : string) : list pyval :=
  match s with
  | EmptyString => []
  | String c s' => PStr (String c "") :: chars s'
  end.

(** [len(v)]. *)
Definition py_len (v : pyval) : result nat :=
  match v with
  | PStr s => Ok (String.length s)
  | PList l | PTuple l | PSet l => Ok (List.length l)
  | PDict d => Ok (List.length d)
  | PNone => Err (TypeError "object of type 'NoneType' has no len()")
  | PBool _ => Err (TypeError "object of type 'bool' has no len()")
  | PInt _ => Err (TypeError "object of type 'int' has no len()")
  end.

(** The elements [for item in v] visits. *)
Definition py_iter (v : pyval) : result (list pyval) :=
  match v with
  | PStr s => Ok (chars s)
  | PList l | PTuple l | PSet l => Ok l
  | PDict d => Ok (map (fun kv => PStr (fst kv)) d)
  | PNone => Err (TypeError "'NoneType' object is not iterable")
  | PBool _ => Err (TypeError "'bool' object is not iterable")
  | PInt _ => Err (TypeError "'int' object is not iterable")
  end.

(** [isinstance(v, (list, tuple, set))]. *)
Definition is_list_tuple_set (v : pyval) : bool :=
  match v with
  | PList _ | PTuple _ | PSet _ => true
  | _ => false
  end.

(** [isinstance(v, dict)]. *)
Definition is_dict (v : pyval) : bool :=
  match v with
  | PDict _ => true
  | _ => false
  end.

(** Truth value of [v]. *)
Definition truthy (v : pyval) : bool :=
  match v with
  | PNone => false
  | PBool b => b
  | PInt z => negb (z =? 0)
  | PStr s => negb (String.eqb s "")
  | PList l | PTuple l | PSet l => negb (Nat.eqb (List.length l) 0)
  | PDict d => negb (Nat.eqb (List.length d) 0)
  end.

Fixpoint assoc {A : Type} (k : string) (d : list (string * A)) : option A :=
  match d with
  | [] => None
  | (k', v) :: d' => if String.eqb k k' then Some v else assoc k d'
  end.

(** [d.get(k)] on a dict value. *)
Definition dict_get (d : list (string * pyval)) (k : string) : pyval :=
  match assoc k d with
  | Some v => v
  | None => PNone
  end.

Definition int_of_bool (b : bool) : Z := if b then 1 else 0.

(** Python's [==]. [True == 1] and [False == 0]; sets and dicts compare
    without regard to order. *)
Fixpoint py_eqb (a b : pyval) {struct a} : bool :=
  match a, b with
  | PNone, PNone => true
  | PBool x, PBool y => Bool.eqb x y
  | PBool x, PInt y => int_of_bool x =? y
  | PInt x, PBool y => x =? int_of_bool y
  | PInt x, PInt y => x =? y
  | PStr x, PStr y => String.eqb x y
  | PList v, PList w | PTuple v, PTuple w =>
      (fix go (v w : list pyval) {struct v} : bool :=
         match v, w with
         | [], [] => true
         | x :: v', y :: w' => py_eqb x y && go v' w'
         | _, _ => false
         end) v w
  | PSet v, PSet w =>
      Nat.eqb (List.length v) (List.length w) &&
      (fix sub (v : list pyval) {struct v} : bool :=
         match v with
         | [] => true
         | x :: v' => existsb (py_eqb x) w && sub v'
         end) v
  | PDict v, PDict w =>
      Nat.eqb (List.length v) (List.length w) &&
      (fix sub (v : list (string * pyval)) {struct v} : bool :=
         match v with
         | [] => true
         | (k, x) :: v' =>
             match assoc k w with
             | Some y => py_eqb x y
             | None => false
             end && sub v'
         end) v
  | _, _ => false
  end.

(** Values that can be members of a set. *)
Fixpoint hashable (v : pyval) : bool :=
  match v with
  | PNone | PBool _ | PInt _ | PStr _ => true
  | PTuple l =>
      (fix all (l : list pyval) : bool :=
         match l with
         | [] => true
         | x :: l' => hashable x && all l'
         end) l
  | PList _ | PSet _ | PDict _ => false
  end.

(** [set(l)]: the distinct elements of [l], in first-occurrence order here
    (only the size is observed). *)
Fixpoint py_set (seen : list pyval) (l : list pyval) : result (list pyval) :=
  match l with
  | [] => Ok (rev seen)
  | x :: l' =>
      if hashable x
      then if existsb (py_eqb x) seen then py_set seen l'
           else py_set (x :: seen) l'
      else Err (TypeError "unhashable type")
  end.

(** [x in l]: some item of [l] is [==] to [x]. *)
Definition py_in (x : pyval) (l : list pyval) : bool :=
  existsb (fun item => py_eqb item x) l.

(** [l.index(x)]. *)
Fixpoint list_index (x : pyval) (l : list pyval) : result Z :=
  match l with
  | [] => Err (ValueError "is not in list")
  | y :: l' =>
      if py_eqb y x then Ok 0
      else rbind (list_index x l') (fun i => Ok (i + 1))
  end.

(** [v[i]]. *)
Definition py_getitem (v : pyval) (i : Z) : result pyval :=
  match v with
  | PList l | PTuple l => py_index l i
  | PStr s => py_index (chars s) i
  | PSet _ => Err (TypeError "'set' object is not subscriptable")
  | PDict _ => Err KeyError
  | PNone => Err (TypeError "'NoneType' object is not subscriptable")
  | PBool _ => Err (TypeError "'bool' object is not subscriptable")
  | PInt _ => Err (TypeError "'int' object is not subscriptable")
  end.

(** ** The wrapper object *)

(** One entry of [output_data]: the dict [{'headers': [], 'data': []}], with
    the key ['sort_keys'] that [sort_data] adds. *)
Record sheet : Type := mk_sheet {
  headers : list pyval;
  data : list (list pyval);
  sort_keys : option (list Z)
}.

(** An openpyxl [Rule] of type expression with a [DifferentialStyle] that
    holds a [PatternFill]. *)
Record Rule : Type := mk_Rule {
  rule_type : string;
  bgColor : string;
  formula : pyval;
  stopIfTrue : bool
}.

(** [[A-Fa-f0-9]]. *)
Definition is_hex (c : ascii) : bool :=
  is_digit c || ((65 <=? ord c) && (ord c <=? 70))
             || ((97 <=? ord c) && (ord c <=? 102)).

(** The text without the line feed that ends it, if one does. *)
Fixpoint without_final_newline (s : string) : string :=
  match s with
  | EmptyString => EmptyString
  | String c EmptyString => if ord c =? 10 then EmptyString else s
  | String c s' => String c (without_final_newline s')
  end.

(** The colour check of openpyxl: [re.match] of
    [^([A-Fa-f0-9]{8}|[A-Fa-f0-9]{6})$], where [$] also matches before a
    line feed that ends the text. *)
Definition aRGB (value : string) : bool :=
  let hex := without_final_newline value in
  (Nat.eqb (String.length hex) 6 || Nat.eqb (String.length hex) 8)
  && string_forallb is_hex hex.

(** [str(v)] returns: an [int] is within the conversion limit. *)
Definition str_returns (v : pyval) : bool :=
  match v with
  | PInt z => str_fits z
  | _ => true
  end.

(** [Rule(type="expression",
          dxf=DifferentialStyle(fill=PatternFill(bgColor=color)),
          formula=formula, stopIfTrue=False)].
    [PatternFill] is built first and refuses a colour that is no aRGB hex
    value; [Rule] then refuses a formula that is not a list or a tuple, and
    converts its items with [str]. *)
Definition expression_rule (color : string) (formula : pyval) : result Rule :=
  if aRGB color
  then
    match formula with
    | PList items | PTuple items =>
        if forallb str_returns items
        then Ok (mk_Rule "expression" color formula false)
        else Err (TypeError "expected <class 'str'>")
    | _ => Err (TypeError "Value must be a sequence")
    end
  else Err (ValueError "Colors must be aRGB hex values").

(** The dict [{'rule': rule, 'bg_color': bg_color}] of [format_cells]. *)
Record cell_rule : Type := mk_cell_rule {
  cr_rule : string;
  cr_bg_color : string
}.

(** The attributes of an [ExcelWrapper].  The dicts are association lists
    in insertion order.  [output_file] (a path) plays no part here.
    [table_styles], [cell_styles] and [frozen_columns] are class attributes
    in the source; the embedding follows one instance.  [stdout] collects
    what [print] writes. *)
Record wrapper : Type := mk_wrapper {
  table_style : string;
  output_data : list (string * sheet);
  table_styles : list (string * list Rule);
  cell_styles : list (string * list (string * list cell_rule));
  frozen_columns : list (string * string);
  stdout : list string
}.

(** [ExcelWrapper(output_file)]: the class attributes start empty. *)
Definition new_wrapper : wrapper :=
  mk_wrapper "TableStyleMedium9" [] [] [] [] [].

(** [d[k] = v]: replaces the value of an existing key in place, appends a
    new key. *)
Fixpoint dict_set {A : Type} (k : string) (v : A) (d : list (string * A))
    : list (string * A) :=
  match d with
  | [] => [(k, v)]
  | (k', v') :: d' =>
      if String.eqb k k' then (k', v) :: d' else (k', v') :: dict_set k v d'
  end.

Definition set_output_data (d : list (string * sheet)) (w : wrapper) : wrapper :=
  mk_wrapper (table_style w) d (table_styles w) (cell_styles w)
             (frozen_columns w) (stdout w).

Definition set_table_styles (t : list (string * list Rule)) (w : wrapper) : wrapper :=
  mk_wrapper (table_style w) (output_data w) t (cell_styles w)
             (frozen_columns w) (stdout w).

Definition set_cell_styles (c : list (string * list (string * list cell_rule)))
    (w : wrapper) : wrapper :=
  mk_wrapper (table_style w) (output_data w) (table_styles w) c
             (frozen_columns w) (stdout w).

Definition set_frozen_columns (f : list (string * string)) (w : wrapper) : wrapper :=
  mk_wrapper (table_style w) (output_data w) (table_styles w) (cell_styles w)
             f (stdout w).

Definition set_stdout (o : list string) (w : wrapper) : wrapper :=
  mk_wrapper (table_style w) (output_data w) (table_styles w) (cell_styles w)
             (frozen_columns w) o.

(** *** Methods as state transformers *)

Definition M (A : Type) : Type := wrapper -> result A * wrapper.

Definition ret {A : Type} (a : A) : M A := fun w => (Ok a, w).

Definition raise {A : Type} (e : exn) : M A := fun w => (Err e, w).

Definition bind {A B : Type} (m : M A) (k : A -> M B) : M B :=
  fun w =>
    match m w with
    | (Ok a, w') => k a w'
    | (Err e, w') => (Err e, w')
    end.

Definition lift {A : Type} (r : result A) : M A := fun w => (r, w).

Definition lift_loop {A : Type} (o : option A) : M A :=
  fun w => (match o with Some a => Ok a | None => Err Diverges end, w).

Definition get : M wrapper := fun w => (Ok w, w).

Definition modify (f : wrapper -> wrapper) : M unit := fun w => (Ok tt, f w).

Declare Scope monad_scope.
Delimit Scope monad_scope with monad.
Notation "'do' x <- m ;; k" := (bind m (fun x => k))
  (at level 10, x name, m at level 100, k at level 200) : monad_scope.
Open Scope monad_scope.

(** [print(line)]. *)
Definition print (line : string) : M unit :=
  modify (fun w => set_stdout (stdout w ++ [line]) w).

(** [self.output_data[sheet_name]]. *)
Definition sheet_item (sheet_name : string) : M sheet :=
  do w <- get ;;
  match assoc sheet_name (output_data w) with
  | Some sh => ret sh
  | None => raise KeyError
  end.

Definition update_sheet (sheet_name : string) (f : sheet -> sheet) : M unit :=
  do sh <- sheet_item sheet_name ;;
  modify (fun w => set_output_data (dict_set sheet_name (f sh) (output_data w)) w).

(** [_create_sheet]. *)
Definition _create_sheet (sheet_name : string) : M unit :=
  do w <- get ;;
  match assoc sheet_name (output_data w) with
  | Some _ => ret tt
  | None =>
      modify (set_output_data (output_data w ++ [(sheet_name, mk_sheet [] [] None)]))
  end.

(** The [for data in ...] loop of [_merge_data]. *)
Fixpoint merge_rows (header_count : nat) (rows : list (list pyval))
    : result (list (list pyval)) :=
  match rows with
  | [] => Ok []
  | row :: rows' =>
      if negb (Nat.eqb header_count (List.length row))
      then Err (SystemExit "Invalid Data Found, Column Count Mismatch")
      else rbind (merge_rows header_count rows') (fun r => Ok (row :: r))
  end.

(** [_merge_data]. *)
Definition _merge_data (sheet_name : string) : M (list (list pyval)) :=
  do w <- get ;;
  match assoc sheet_name (output_data w) with
  | None => raise AttributeError
  | Some sh =>
      let header_count := List.length (headers sh) in
      if Nat.eqb header_count 0
      then raise (SystemExit ("No Headers Found: " ++ sheet_name))
      else
        do rows <- lift (merge_rows header_count (data sh)) ;;
        ret (headers sh :: rows)
  end.

Definition set_headers (h : list pyval) (sh : sheet) : sheet :=
  mk_sheet h (data sh) (sort_keys sh).

Definition set_data (rows : list (list pyval)) (sh : sheet) : sheet :=
  mk_sheet (headers sh) rows (sort_keys sh).

Definition set_sort_keys (keys : list Z) (sh : sheet) : sheet :=
  mk_sheet (headers sh) (data sh) (Some keys).

(** [add_headers]. *)
Definition add_headers (sheet_name : string) (data : pyval) : M unit :=
  do _ <- _create_sheet sheet_name ;;
  do data_list <- lift (py_iter data) ;;
  do distinct <- lift (py_set [] data_list) ;;
  if negb (Nat.eqb (List.length data_list) (List.length distinct))
  then raise (ValueError "Duplicate Header Found.")
  else update_sheet sheet_name (set_headers data_list).

(** [item if item is not None else ""]. *)
Definition blank_none (item : pyval) : pyval :=
  match item with
  | PNone => PStr ""
  | _ => item
  end.

Definition append_row (sheet_name : string) (row : list pyval) : M unit :=
  update_sheet sheet_name (fun sh => set_data (data sh ++ [row]) sh).

(** The [for batch_row in data] loop of [add_data]. *)
Fixpoint add_batch (sheet_name : string) (rows : list pyval) : M unit :=
  match rows with
  | [] => ret tt
  | batch_row :: rows' =>
      do n <- lift (py_len batch_row) ;;
      do sh <- sheet_item sheet_name ;;
      if negb (Nat.eqb n (List.length (headers sh)))
      then raise (ValueError "Invalid Data Found, Column Count Mismatch")
      else
        do items <- lift (py_iter batch_row) ;;
        do _ <- append_row sheet_name (map blank_none items) ;;
        add_batch sheet_name rows'
  end.

(** [add_data]. *)
Definition add_data (sheet_name : string) (data : pyval) : M unit :=
  do _ <- _create_sheet sheet_name ;;
  if negb (is_list_tuple_set data)
  then raise (TypeError "Invalid Data Type, Requires List, Tuple, or Set")
  else
    do first <- lift (py_getitem data 0) ;;
    if is_list_tuple_set first
    then
      do rows <- lift (py_iter data) ;;
      add_batch sheet_name rows
    else
      do n <- lift (py_len data) ;;
      do sh <- sheet_item sheet_name ;;
      if Nat.eqb n (List.length (headers sh))
      then
        do items <- lift (py_iter data) ;;
        append_row sheet_name (map blank_none items)
      else raise (ValueError "Invalid Data Found, Column Count Mismatch").

(** [format_cells]. *)
Definition format_cells (sheet_name header rule bg_color : string) : M unit :=
  modify (fun w =>
    let per_sheet :=
      match assoc sheet_name (cell_styles w) with
      | Some d => d
      | None => []
      end in
    let rules :=
      match assoc header per_sheet with
      | Some l => l
      | None => []
      end in
    set_cell_styles
      (dict_set sheet_name
         (dict_set header (rules ++ [mk_cell_rule rule bg_color])%list per_sheet)
         (cell_styles w)) w).

(** The [for rule in rules] loop of [conditional_format]. *)
Fixpoint add_table_rules (sheet_name : string) (rules : list pyval) : M unit :=
  match rules with
  | [] => ret tt
  | rule :: rules' =>
      match rule with
      | PDict d =>
          let formula := dict_get d "formula" in
          let bg_color := dict_get d "bg_color" in
          if negb (truthy formula && truthy bg_color)
          then
            do _ <- print "Skipping Formatting - Missing formula and/or bg_color!" ;;
            add_table_rules sheet_name rules'
          else
            match bg_color with
            | PStr color =>
                do r <- lift (expression_rule (lstrip_hash color) formula) ;;
                do _ <- modify (fun w =>
                  let styles :=
                    match assoc sheet_name (table_styles w) with
                    | Some l => l
                    | None => []
                    end in
                  set_table_styles
                    (dict_set sheet_name (styles ++ [r])%list
                              (table_styles w)) w) ;;
                add_table_rules sheet_name rules'
            | _ => raise AttributeError
            end
      | _ => raise AttributeError
      end
  end.

(** [d.setdefault(k, [])]. *)
Definition setdefault_nil {A : Type} (k : string) (d : list (string * list A))
    : list (string * list A) :=
  match assoc k d with
  | Some _ => d
  | None => d ++ [(k, [])]
  end.

(** [conditional_format]. *)
Definition conditional_format (sheet_name : string) (rules : pyval) : M unit :=
  match rules with
  | PList l =>
      if forallb is_dict l
      then
        do _ <- modify (fun w =>
          set_table_styles (setdefault_nil sheet_name (table_styles w)) w) ;;
        add_table_rules sheet_name l
      else print "List of Dicts Reqd for Conditional Formatting - Ignoring!"
  | _ => print "List of Dicts Reqd for Conditional Formatting - Ignoring!"
  end.

(** [freeze_column_after]. *)
Definition freeze_column_after (sheet_name column_name : string) : M unit :=
  modify (fun w =>
    set_frozen_columns (dict_set sheet_name column_name (frozen_columns w)) w).

(** ** The openpyxl objects the export builds *)

(** [Table(displayName, ref, tableStyleInfo=TableStyleInfo(...))]. *)
Record Table : Type := mk_Table {
  displayName : string;
  ref : string;
  style_name : string;
  showFirstColumn : bool;
  showLastColumn : bool;
  showRowStripes : bool;
  showColumnStripes : bool
}.

(** A worksheet: its title, the grid of cell values row by row (a cell that
    was never written reads as [None]), the registered tables, the
    conditional formats as (range, rule), the [max_length] that
    [_autosize_columns] computes for each column (the width it sets is
    [(max_length + 2) * 1.12]) and the coordinate of [freeze_panes]. *)
Record worksheet : Type := mk_worksheet {
  title : string;
  ws_rows : list (list pyval);
  tables : list Table;
  conditional_formatting : list (string * Rule);
  column_max_length : list nat;
  freeze_panes : option string
}.

(** [Workbook.create_sheet(title)]. *)
Definition create_sheet (sheet_name : string) : worksheet :=
  mk_worksheet sheet_name [] [] [] [] None.

(** [current_sheet.append(item)]. *)
Definition ws_append (item : list pyval) (ws : worksheet) : worksheet :=
  mk_worksheet (title ws) (ws_rows ws ++ [item]) (tables ws)
               (conditional_formatting ws) (column_max_length ws)
               (freeze_panes ws).

(** [current_sheet.max_column]: the widest row, 1 for a sheet without
    cells. *)
Definition max_column (ws : worksheet) : Z :=
  Z.max 1 (fold_right (fun row m => Z.max (Z.of_nat (List.length row)) m)
                      0 (ws_rows ws)).

(** [current_sheet.max_row]: the last row that has a cell, 1 for a sheet
    without cells. *)
Fixpoint last_row_with_cells (i : Z) (rows : list (list pyval)) : Z :=
  match rows with
  | [] => 0
  | row :: rows' =>
      let later := last_row_with_cells (i + 1) rows' in
      if 0 <? later then later
      else match row with
           | [] => 0
           | _ :: _ => i
           end
  end.

Definition max_row (ws : worksheet) : Z :=
  Z.max 1 (last_row_with_cells 1 (ws_rows ws)).

(** [current_sheet.add_table(t)]. *)
Definition add_table (t : Table) (ws : worksheet) : worksheet :=
  mk_worksheet (title ws) (ws_rows ws) (tables ws ++ [t])
               (conditional_formatting ws) (column_max_length ws)
               (freeze_panes ws).

(** [current_sheet.conditional_formatting.add(range, rule)]. *)
Definition add_conditional_formatting (range : string) (rule : Rule)
    (ws : worksheet) : worksheet :=
  mk_worksheet (title ws) (ws_rows ws) (tables ws)
               (conditional_formatting ws ++ [(range, rule)])
               (column_max_length ws) (freeze_panes ws).

(** The cells of column [j] (from 0), top to bottom. *)
Definition ws_column (ws : worksheet) (j : nat) : list pyval :=
  map (fun row => nth j row PNone) (ws_rows ws).

Fixpoint pad_none (n : nat) (row : list pyval) : list pyval :=
  match n, row with
  | O, _ => row
  | S n', [] => PNone :: pad_none n' []
  | S n', v :: row' => v :: pad_none n' row'
  end.

(** [current_sheet[cell]] for a cell of row 1 creates the cell when it does
    not exist, and [current_sheet.freeze_panes = ...] stores its coordinate
    ([None] for ["A1"]). *)
Definition set_freeze_panes (column : Z) (coordinate : string)
    (ws : worksheet) : worksheet :=
  mk_worksheet (title ws)
               (match ws_rows ws with
                | [] => [pad_none (Z.to_nat column) []]
                | row :: rows => pad_none (Z.to_nat column) row :: rows
                end)
               (tables ws) (conditional_formatting ws) (column_max_length ws)
               (if String.eqb coordinate "A1" then None else Some coordinate).

(** The search of [_freeze_columns]: [col_idx] of the first cell of the
    header row whose value is [==] to the configured name; [col_idx] counts
    from 1. *)
Fixpoint find_header (name : string) (col_idx : Z) (cells : list pyval)
    : option Z :=
  match cells with
  | [] => None
  | v :: cells' =>
      if py_eqb v (PStr name) then Some col_idx
      else find_header name (col_idx + 1) cells'
  end.

Definition set_ws_rows (rows : list (list pyval)) (ws : worksheet)
    : worksheet :=
  mk_worksheet (title ws) rows (tables ws) (conditional_formatting ws)
               (column_max_length ws) (freeze_panes ws).

(** [_freeze_columns].  [current_sheet.rows] is empty for a sheet to which
    no row was appended; otherwise its first item is row 1 in the columns
    1 to [max_column], and reading it creates the cells that row 1 lacks. *)
Definition _freeze_columns (current_sheet : worksheet) : M worksheet :=
  do w <- get ;;
  match assoc (title current_sheet) (frozen_columns w) with
  | None => ret current_sheet
  | Some name =>
      match ws_rows current_sheet with
      | first_row :: rows =>
          let sheet_headers :=
            pad_none (Z.to_nat (max_column current_sheet)) first_row in
          match find_header name 1 sheet_headers with
          | None => raise (RuntimeError "Invalid Header")
          | Some column_number =>
              do letters <- lift_loop (_col_to_excel (column_number + 1)) ;;
              ret (set_freeze_panes (column_number + 1) (letters ++ "1")
                     (set_ws_rows (sheet_headers :: rows) current_sheet))
          end
      | [] => raise StopIteration
      end
  end.

(** ** Sorting and export *)

Section ExportModel.

(** [repr] of a list, tuple, set or dict: a builtin whose text is not
    fixed here; nothing below depends on it. *)
Variable py_repr : pyval -> string.

(** The text of [str(v)]. *)
Definition py_str (v : pyval) : string :=
  match v with
  | PNone => "None"
  | PBool true => "True"
  | PBool false => "False"
  | PInt z => string_of_Z z
  | PStr s => s
  | PList _ | PTuple _ | PSet _ | PDict _ => py_repr v
  end.

(** [str(v)] as the sort calls it on a cell: it raises for an [int] beyond
    the conversion limit. *)
Definition str_of (v : pyval) : result string :=
  match v with
  | PInt z =>
      if str_fits z then Ok (py_str v)
      else Err (ValueError
                  "Exceeds the limit (4300 digits) for integer string conversion; use sys.set_int_max_str_digits() to increase the limit")
  | _ => Ok (py_str v)
  end.

(** The key function of [natural_sort_multiple_columns]:
    [[natural_sort_key(str(x[key])) for key in sort_keys]]. *)
Definition sort_key_of_row (sort_keys : list Z) (x : list pyval) : result row_key :=
  rmap (fun key => rbind (py_index x key)
                         (fun v => rbind (str_of v) natural_sort_key))
       sort_keys.

(** [natural_sort_multiple_columns(data, sort_keys)]: the list that [data]
    holds after the in-place sort. *)
Definition natural_sort_multiple_columns (data : list (list pyval))
    (sort_keys : list Z) : result (list (list pyval)) :=
  list_sort (sort_key_of_row sort_keys) row_key_lt data.

(** The [for header in headers] loop of [sort_data]. *)
Fixpoint resolve_sort_keys (sheet_headers : list pyval) (hs : list pyval)
    : result (list Z) :=
  match hs with
  | [] => Ok []
  | header :: hs' =>
      if negb (py_in header sheet_headers)
      then Err (SystemExit ("Invalid Sort Header: " ++ py_str header))
      else
        rbind (list_index header sheet_headers) (fun i =>
        rbind (resolve_sort_keys sheet_headers hs') (fun keys =>
        Ok (i :: keys)))
  end.

(** [sort_data]. *)
Definition sort_data (sheet_name : string) (hdrs : pyval) : M unit :=
  do w <- get ;;
  match assoc sheet_name (output_data w) with
  | None => raise (SystemExit "Cannot sort where no headers have been found.")
  | Some sh =>
      do hs <- lift (match hdrs with
                  | PStr _ => Ok [hdrs]
                  | _ => py_iter hdrs
                  end) ;;
      do keys <- lift (resolve_sort_keys (headers sh) hs) ;;
      update_sheet sheet_name (set_sort_keys keys)
  end.

Definition col_letters (col : Z) : result string :=
  match _col_to_excel col with
  | Some letters => Ok letters
  | None => Err Diverges
  end.

(** The [for rule in cell_rules] loop of [export_excel]. *)
Fixpoint apply_cell_rules (hdrs : list pyval) (max_row : Z) (header : string)
    (cell_rules : list cell_rule) (ws : worksheet) : result worksheet :=
  match cell_rules with
  | [] => Ok ws
  | rule :: cell_rules' =>
      rbind (list_index (PStr header) hdrs) (fun i =>
      let header_idx := i + 1 in
      rbind (col_letters header_idx) (fun header_col =>
      let header_ref :=
        header_col ++ "2:" ++ header_col ++ string_of_Z max_row in
      rbind (expression_rule (lstrip_hash (cr_bg_color rule))
                             (PList [PStr (cr_rule rule)])) (fun r =>
      apply_cell_rules hdrs max_row header cell_rules'
                       (add_conditional_formatting header_ref r ws))))
  end.

(** The [for header, cell_rules in ...items()] loop of [export_excel]. *)
Fixpoint apply_cell_styles (hdrs : list pyval) (max_row : Z)
    (styles : list (string * list cell_rule)) (ws : worksheet)
    : result worksheet :=
  match styles with
  | [] => Ok ws
  | (header, cell_rules) :: styles' =>
      rbind (apply_cell_rules hdrs max_row header cell_rules ws)
            (apply_cell_styles hdrs max_row styles')
  end.

(** The body of the [for cell in col] loop of [_autosize_columns]; the
    assignment sits under [contextlib.suppress(Exception)]. *)
Definition cell_max_length (max_length : nat) (v : pyval) : nat :=
  if Nat.ltb max_length (String.length (py_str v))
  then match py_len v with
       | Ok n => n
       | Err _ => max_length
       end
  else max_length.

(** The rows after [current_sheet.columns] has been iterated: the
    iteration visits every cell of the rows 1 to [max_row] in the columns 1
    to [max_column], and creates the ones that do not exist, empty.  A
    sheet to which no row was appended has no columns. *)
Definition materialized (ws : worksheet) : list (list pyval) :=
  match ws_rows ws with
  | [] => []
  | _ :: _ =>
      let height := Z.to_nat (max_row ws) in
      (map (pad_none (Z.to_nat (max_column ws))) (firstn height (ws_rows ws))
       ++ skipn height (ws_rows ws))%list
  end.

(** The cells of column [j] (from 0) that the iteration yields. *)
Definition column_cells (ws : worksheet) (j : nat) : list pyval :=
  firstn (Z.to_nat (max_row ws)) (ws_column ws j).

(** [_autosize_columns].  No value of the universe is a date, so no cell
    has the data type ['d'] and the branch that rewrites such a cell is
    not taken.  The width of each column that the iteration yields is set;
    another column keeps the one it has. *)
Definition _autosize_columns (ws : worksheet) : worksheet :=
  mk_worksheet (title ws) (materialized ws) (tables ws)
    (conditional_formatting ws)
    (match ws_rows ws with
     | [] => column_max_length ws
     | _ :: _ =>
         let width := Z.to_nat (max_column ws) in
         (map (fun j => fold_left cell_max_length (column_cells ws j) O)
              (seq 0 width)
          ++ skipn width (column_max_length ws))%list
     end)
    (freeze_panes ws).

(** One turn of the [for sheet_name, sheet_data in ...items()] loop of
    [export_excel]; [wb] is the list of sheets of the workbook. *)
Definition export_sheet (wb : list worksheet) (sheet_name : string)
    : M (list worksheet) :=
  do sheet_data <- sheet_item sheet_name ;;
  match data sheet_data with
  | [] =>
      do _ <- print (sheet_name ++ ": No Data Found") ;;
      ret wb
  | _ :: _ =>
      let current_sheet := create_sheet sheet_name in
      do _ <- match sort_keys sheet_data with
      | Some (k :: keys) =>
          do sorted <- lift (natural_sort_multiple_columns (data sheet_data)
                                                        (k :: keys)) ;;
          update_sheet sheet_name (set_data sorted)
      | _ => ret tt
      end ;;
      do merged <- _merge_data sheet_name ;;
      let current_sheet := fold_left (fun ws item => ws_append item ws)
                                     merged current_sheet in
      do max_col <- lift (col_letters (max_column current_sheet)) ;;
      let max_row := max_row current_sheet in
      do w <- get ;;
      let current_sheet :=
        add_table
          (mk_Table (remove_spaces sheet_name)
                    ("A1:" ++ max_col ++ string_of_Z max_row)
                    (table_style w) false false true false)
          current_sheet in
      do sh <- sheet_item sheet_name ;;
      do current_sheet <-
        lift (apply_cell_styles (headers sh) max_row
                (match assoc sheet_name (cell_styles w) with
                 | Some d => d
                 | None => []
                 end)
                current_sheet) ;;
      let current_sheet :=
        fold_left (fun ws style =>
                     add_conditional_formatting
                       ("A2:" ++ max_col ++ string_of_Z max_row) style ws)
                  (match assoc sheet_name (table_styles w) with
                   | Some l => l
                   | None => []
                   end)
                  current_sheet in
      let current_sheet := _autosize_columns current_sheet in
      do current_sheet <- _freeze_columns current_sheet ;;
      ret (wb ++ [current_sheet])%list
  end.

Fixpoint export_sheets (wb : list worksheet) (names : list string)
    : M (list worksheet) :=
  match names with
  | [] => ret wb
  | sheet_name :: names' =>
      do wb' <- export_sheet wb sheet_name ;;
      export_sheets wb' names'
  end.

(** [export_excel]: [Some wb] is the document that was saved, [None] the
    case where saving a workbook without sheets fails and only the message
    is printed. *)
Definition export_excel : M (option (list worksheet)) :=
  do w <- get ;;
  do wb <- export_sheets [] (map fst (output_data w)) ;;
  match wb with
  | [] =>
      do _ <- print "FATAL: No Sheets Containing Data - No Excel Doc Generated!" ;;
      ret None
  | _ :: _ => ret (Some wb)
  end.

(** [row] has the composite key [k]. *)
Definition has_key (sort_keys : list Z) (k : row_key) (row : list pyval) : bool :=
  match sort_key_of_row sort_keys row with
  | Ok k' => row_key_eqb k' k
  | Err _ => false
  end.

(** [r2] may follow [r1] in sorted order: both have a key and the key of
    [r2] is not [<] the key of [r1]. *)
Definition in_order (sort_keys : list Z) (r1 r2 : list pyval) : Prop :=
  exists k1 k2,
    sort_key_of_row sort_keys r1 = Ok k1 /\
    sort_key_of_row sort_keys r2 = Ok k2 /\
    row_key_lt k2 k1 = Ok false.

End ExportModel.

(** ** Specification-side notions *)

(** A span without any digit. *)
Definition no_digit (t : string) : bool :=
  string_forallb (fun c => negb (is_digit c)) t.

Fixpoint join (spans : list string) : string :=
  match spans with
  | [] => EmptyString
  | t :: spans' => t ++ join spans'
  end.

(** The alternating segmentation of a string: text, digit run, text, ...,
    text.  A text span holds no digit and a digit run is a non-empty word
    of digits; a text span between two digit runs is not empty, which makes
    the runs maximal.  Only the first ([first = true]) and the last text
    span may be empty. *)
Fixpoint alternating (first : bool) (spans : list string) : bool :=
  match spans with
  | [] => false
  | [t] => no_digit t
  | t :: d :: rest =>
      no_digit t && (first || negb (String.eqb t "")) && digit_run d &&
      alternating false rest
  end.

(** The letters that have a lowercase form, each with that form: the
    alphabet, and the capital letters at 192..214 and 216..222 with the
    letters 32 places further. *)
Definition lowercase_forms : list (ascii * ascii) :=
  (combine (list_ascii_of_string "ABCDEFGHIJKLMNOPQRSTUVWXYZ")
           (list_ascii_of_string "abcdefghijklmnopqrstuvwxyz")
   ++ map (fun n => (ascii_of_nat n, ascii_of_nat (n + 32)))
          (seq 192 23 ++ seq 216 7))%list.

Definition lowercase_char (c : ascii) : ascii :=
  match find (fun p => Ascii.eqb (fst p) c) lowercase_forms with
  | Some p => snd p
  | None => c
  end.

(** The lowercase text of a span. *)
Fixpoint lowercase (t : string) : string :=
  match t with
  | EmptyString => EmptyString
  | String c t' => String (lowercase_char c) (lowercase t')
  end.

(** The integer value of a run of digits, read in base ten. *)
Fixpoint digits_value (d : string) : Z :=
  match d with
  | EmptyString => 0
  | String c d' =>
      (ord c - 48) * 10 ^ Z.of_nat (String.length d') + digits_value d'
  end.

(** The decimal text made of [n] times the digit 1. *)
Fixpoint digits_of_ones (n : nat) : string :=
  match n with
  | O => EmptyString
  | S n' => String "1" (digits_of_ones n')
  end.

(** The typed segments of an alternating segmentation: the integer value of
    each digit run, the lowercase text of every other span. *)
Fixpoint typed_segments (is_run : bool) (spans : list string) : list segment :=
  match spans with
  | [] => []
  | t :: spans' =>
      (if is_run then SInt (digits_value t) else SStr (lowercase t))
        :: typed_segments (negb is_run) spans'
  end.

(** The spans on which the key function does what it is meant to do: no
    text span between two runs of [[0-9]] is made of digit characters only
    (these lie outside [[0-9]]: [str.isdigit] takes the span for a number
    although [re.split] did not), and no run is longer than the limit of
    [int]. *)
Fixpoint plain_spans (is_run : bool) (spans : list string) : bool :=
  match spans with
  | [] => true
  | t :: spans' =>
      (if is_run then Nat.leb (String.length t) int_max_str_digits
       else negb (isdigit t))
      && plain_spans (negb is_run) spans'
  end.

(** A text whose spans are plain. *)
Definition plain_text (s : string) : bool :=
  plain_spans false (re_split_digits s).

(** A cell that the sort can key: a [None], a [bool], an [int] within the
    conversion limit or a [str], with a plain text. *)
Definition plain_cell (v : pyval) : bool :=
  match v with
  | PNone | PBool _ => true
  | PInt z => str_fits z && plain_text (string_of_Z z)
  | PStr s => plain_text s
  | PList _ | PTuple _ | PSet _ | PDict _ => false
  end.

(** What the store holds for a sheet; a sheet that does not exist has no
    header and no row. *)
Definition headers_of (w : wrapper) (sheet_name : string) : list pyval :=
  match assoc sheet_name (output_data w) with
  | Some sh => headers sh
  | None => []
  end.

Definition rows_of (w : wrapper) (sheet_name : string) : list (list pyval) :=
  match assoc sheet_name (output_data w) with
  | Some sh => data sh
  | None => []
  end.

Definition styles_of (w : wrapper) (sheet_name : string) : list Rule :=
  match assoc sheet_name (table_styles w) with
  | Some l => l
  | None => []
  end.

(** The stored form of a batch row: its elements with [None] replaced by
    the empty string. *)
Definition normalized_row (batch_row : pyval) : list pyval :=
  match py_iter batch_row with
  | Ok items => map blank_none items
  | Err _ => []
  end.






(** The coordinate of the cell in column [col] and row [row]. *)
Definition cell_coordinate (col row : Z) : option string :=
  match _col_to_excel col with
  | Some letters => Some (letters ++ string_of_Z row)
  | None => None
  end.

(** The sheet has at least one data row. *)
Definition has_data (w : wrapper) (sheet_name : string) : bool :=
  match rows_of w sheet_name with
  | [] => false
  | _ :: _ => true
  end.

(** [output_data] is a dict: no key occurs twice. *)
Definition keys_distinct (w : wrapper) : Prop :=
  NoDup (map fst (output_data w)).

(** A method keeps a property of the wrapper, whether it returns or
    raises. *)
Definition preserves {A : Type} (P : wrapper -> Prop) (m : M A) : Prop :=
  forall w, P w -> P (snd (m w)).

(** The types along a key: [str] and [int] in turn. *)
Fixpoint key_shape (is_run : bool) (k : list segment) : bool :=
  match k with
  | [] => true
  | SInt _ :: k' => is_run && key_shape (negb is_run) k'
  | SStr _ :: k' => negb is_run && key_shape (negb is_run) k'
  end.

(** The order of the output of the sort: [q] may follow [p] when [q]'s key
    is not strictly smaller than [p]'s. *)
Definition not_after {K A : Type} (lt : K -> K -> result bool)
    (p q : K * A) : Prop :=
  lt (fst q) (fst p) = Ok false.

(** The sort keys stored for a sheet. *)
Definition keys_of (w : wrapper) (sheet_name : string) : option (list Z) :=
  match assoc sheet_name (output_data w) with
  | Some sh => sort_keys sh
  | None => None
  end.

(** The rules that [format_cells] has stored for a header of a sheet. *)
Definition cell_rules_of (w : wrapper) (sheet_name header : string)
    : list cell_rule :=
  match assoc sheet_name (cell_styles w) with
  | Some per_sheet =>
      match assoc header per_sheet with
      | Some rules => rules
      | None => []
      end
  | None => []
  end.

(** Every stored row of every sheet is as long as the sheet's header list
    and holds no [None]. *)
Definition rows_well_formed (w : wrapper) : Prop :=
  forall sheet_name,
    Forall (fun row =>
              List.length row = List.length (headers_of w sheet_name) /\
              Forall (fun v => v <> PNone) row)
           (rows_of w sheet_name).

(** What a method on one sheet leaves alone: the entry of another sheet and
    everything outside [output_data]. *)
Definition same_elsewhere (sheet_name : string) (w w' : wrapper) : Prop :=
  (forall name, name <> sheet_name ->
     assoc name (output_data w') = assoc name (output_data w)) /\
  table_style w' = table_style w /\
  table_styles w' = table_styles w /\
  cell_styles w' = cell_styles w /\
  frozen_columns w' = frozen_columns w /\
  stdout w' = stdout w.

(** [k] is the index of the first item of [hdrs] that is [==] to [h]. *)
Definition first_index (hdrs : list pyval) (h : pyval) (k : Z) : Prop :=
  0 <= k < Z.of_nat (List.length hdrs) /\
  (exists v, nth_error hdrs (Z.to_nat k) = Some v /\ py_eqb v h = true) /\
  forall j v, (j < Z.to_nat k)%nat -> nth_error hdrs j = Some v ->
              py_eqb v h = false.

(** A value that is no container. *)
Definition scalar (v : pyval) : bool :=
  match v with
  | PNone | PBool _ | PInt _ | PStr _ => true
  | PList _ | PTuple _ | PSet _ | PDict _ => false
  end.

(** The length of the longest string among some cells. *)
Fixpoint longest_text (cells : list pyval) : nat :=
  match cells with
  | [] => O
  | PStr s :: cells' => Nat.max (String.length s) (longest_text cells')
  | _ :: cells' => longest_text cells'
  end.

(** The header rules of a sheet, one pair per rule, in the order in which
    export visits them. *)
Definition flat_cell_rules (styles : list (string * list cell_rule))
    : list (string * cell_rule) :=
  flat_map (fun hr => map (pair (fst hr)) (snd hr)) styles.

(** The conditional-format entry of one header rule: the range is the
    column of the first header equal to the name, from row 2 to
    [max_row]. *)
Definition header_entry (hdrs : list pyval) (max_row : Z)
    (hr : string * cell_rule) (entry : string * Rule) : Prop :=
  exists i col,
    first_index hdrs (PStr (fst hr)) i /\
    _col_to_excel (i + 1) = Some col /\
    entry = (col ++ "2:" ++ col ++ string_of_Z max_row,
             mk_Rule "expression" (lstrip_hash (cr_bg_color (snd hr)))
                     (PList [PStr (cr_rule (snd hr))]) false).

(** The first row and the panes of an exported sheet, for the freeze
    setting [frozen] of the sheet. *)
Definition frozen_at (frozen : option string) (hdrs first_row : list pyval)
    (panes : option string) : Prop :=
  match frozen with
  | None => first_row = hdrs /\ panes = None
  | Some h =>
      exists c,
        find_header h 1 hdrs = Some c /\
        first_row = pad_none (Z.to_nat (c + 1)) hdrs /\
        panes = cell_coordinate (c + 1) 1
  end.

Section Rendering.

Variable py_repr : pyval -> string.

(** The rows that export leaves in the store and writes to the sheet: the
    natural sort of the rows when the sheet has a non-empty list of sort
    keys, the rows as they are otherwise. *)
Definition sorted_for_export (sh : sheet) (sorted : list (list pyval)) : Prop :=
  match sort_keys sh with
  | Some (k :: keys) =>
      natural_sort_multiple_columns py_repr (data sh) (k :: keys) = Ok sorted
  | _ => sorted = data sh
  end.

(** The worksheet that one turn of the export loop builds for the sheet
    [sh] called [sheet_name], given the table style, the header rules, the
    table rules and the freeze setting of that sheet. *)
Definition rendered (sheet_name : string) (sh : sheet) (tstyle : string)
    (cstyles : list (string * list cell_rule)) (tstyles : list Rule)
    (frozen : option string) (sorted : list (list pyval)) (ws : worksheet)
    : Prop :=
  exists letters first_row entries,
    sorted_for_export sh sorted /\
    headers sh <> [] /\
    Forall (fun row => List.length row = List.length (headers sh)) sorted /\
    _col_to_excel (Z.of_nat (List.length (headers sh))) = Some letters /\
    title ws = sheet_name /\
    ws_rows ws = first_row :: sorted /\
    tables ws =
      [mk_Table (remove_spaces sheet_name)
                ("A1:" ++ letters ++ string_of_Z (Z.of_nat (S (List.length sorted))))
                tstyle false false true false] /\
    conditional_formatting ws =
      (entries ++
       map (pair ("A2:" ++ letters ++
                  string_of_Z (Z.of_nat (S (List.length sorted))))%string)
           tstyles)%list /\
    Forall2 (header_entry (headers sh) (Z.of_nat (S (List.length sorted))))
            (flat_cell_rules cstyles) entries /\
    frozen_at frozen (headers sh) first_row (freeze_panes ws).

(** [ws] is the worksheet exported for a sheet of the store [w]; [w'] is
    the store after the export. *)
Definition exported (w w' : wrapper) (ws : worksheet) : Prop :=
  exists sh sorted,
    assoc (title ws) (output_data w) = Some sh /\
    data sh <> [] /\
    assoc (title ws) (output_data w') = Some (set_data sorted sh) /\
    rendered (title ws) sh (table_style w)
             (match assoc (title ws) (cell_styles w) with
              | Some d => d
              | None => []
              end)
             (styles_of w (title ws))
             (assoc (title ws) (frozen_columns w))
             sorted ws.

End Rendering.

(** The double quote, for the formulas of the module's example. *)
Definition dq : string := String (ascii_of_nat 34) EmptyString.

(** The wrapper that the [__main__] block of the module has built when it
    calls [export_excel]. *)
Definition main_wrapper (py_repr : pyval -> string) : wrapper :=
  let run := fun (m : M unit) (w : wrapper) => snd (m w) in
  let row := fun a b => PList [PStr a; PStr b] in
  run (sort_data py_repr "Instances" (PStr "Region"))
  (run (conditional_format "Volumes"
          (PList [PDict [("formula",
                          PList [PStr ("$A2 = " ++ dq ++ "eu-west-1" ++ dq)]);
                         ("bg_color", PStr "#E6B8B7");
                         ("row_condition", PBool true)]]))
  (run (format_cells "Instances" "Region"
          ("$A2=" ++ dq ++ "eu-west-1" ++ dq) "#E6B8B7")
  (run (add_data "RDS" (row "eu-west-1" "i-xxxxx2"))
  (run (add_data "RDS" (row "us-east-1" "i-xxxxx1"))
  (run (add_data "Volumes" (PList [row "eu-west-1" "vol-xxxxx1";
                                   row "eu-west-1" "vol-xxxxx2"]))
  (run (add_data "Instances" (row "eu-west-1" "i-xxxxx2"))
  (run (add_data "Instances" (row "us-east-1" "i-xxxxx1"))
  (run (add_headers "RDS" (PList [PStr "Region"; PStr "Volume ID"]))
  (run (add_headers "Volumes" (PList [PStr "Region"; PStr "Volume ID"]))
  (run (add_headers "Instances" (PList [PStr "Region"; PStr "Instance ID"]))
       new_wrapper)))))))))).

(** ** Several wrappers in one interpreter *)

(** The class body binds [table_styles], [cell_styles] and
    [frozen_columns]; [__init__] binds [table_style], [output_file] and
    [output_data] on the new object, and no method assigns one of the three
    dicts on [self]: they are read through [self] and changed in place
    ([setdefault], [append], item assignment).  So every wrapper of an
    interpreter works on the same three dicts, next to its own table style
    and table store. *)
Record instance : Type := mk_instance {
  self_table_style : string;
  self_output_data : list (string * sheet)
}.

(** The state of an interpreter that has imported the module: the three
    dicts of the class, what has been printed, and the wrappers created so
    far, oldest first. *)
Record interpreter : Type := mk_interpreter {
  cls_table_styles : list (string * list Rule);
  cls_cell_styles : list (string * list (string * list cell_rule));
  cls_frozen_columns : list (string * string);
  printed : list string;
  objects : list instance
}.

(** Right after the import. *)
Definition imported : interpreter := mk_interpreter [] [] [] [] [].

(** [ExcelWrapper(output_file, table_style)]: the new wrapper is the last
    object; the result is its position. *)
Definition ExcelWrapper (tstyle : string) (p : interpreter)
    : nat * interpreter :=
  (List.length (objects p),
   mk_interpreter (cls_table_styles p) (cls_cell_styles p)
                  (cls_frozen_columns p) (printed p)
                  (objects p ++ [mk_instance tstyle []])%list).

(** The attributes a method finds on [self]. *)
Definition self_view (p : interpreter) (o : instance) : wrapper :=
  mk_wrapper (self_table_style o) (self_output_data o)
             (cls_table_styles p) (cls_cell_styles p)
             (cls_frozen_columns p) (printed p).

Fixpoint set_nth {A : Type} (n : nat) (x : A) (l : list A) : list A :=
  match l, n with
  | [], _ => []
  | _ :: l', O => x :: l'
  | y :: l', S n' => y :: set_nth n' x l'
  end.

(** The method [m] called on the wrapper at position [n]; [None] when
    there is no such wrapper. *)
Definition call {A : Type} (n : nat) (m : M A) (p : interpreter)
    : option (result A * interpreter) :=
  match nth_error (objects p) n with
  | Some o =>
      let (r, w) := m (self_view p o) in
      Some (r,
            mk_interpreter (table_styles w) (cell_styles w)
                           (frozen_columns w) (stdout w)
                           (set_nth n (mk_instance (table_style w)
                                                   (output_data w))
                                    (objects p)))
  | None => None
  end.

(** The wrapper at position [n], as its methods see it. *)
Definition wrapper_of (p : interpreter) (n : nat) : option wrapper :=
  option_map (self_view p) (nth_error (objects p) n).

(** The wrapper [w] with another table style and table store. *)
Definition with_own (tstyle : string) (d : list (string * sheet))
    (w : wrapper) : wrapper :=
  mk_wrapper tstyle d (table_styles w) (cell_styles w) (frozen_columns w)
             (stdout w).

(** A method that neither reads nor writes the table style and the table
    store of its wrapper. *)
Definition class_level {A : Type} (m : M A) : Prop :=
  forall tstyle d w,
    m (with_own tstyle d w) = (fst (m w), with_own tstyle d (snd (m w))).

(** The methods that work on the formatting rules and freeze settings. *)
Inductive formatting_method : M unit -> Prop :=
  | fm_format_cells : forall sheet_name header rule bg_color,
      formatting_method (format_cells sheet_name header rule bg_color)
  | fm_conditional_format : forall sheet_name rules,
      formatting_method (conditional_format sheet_name rules)
  | fm_freeze_column_after : forall sheet_name column_name,
      formatting_method (freeze_column_after sheet_name column_name).

(** The methods that work on the table store. *)
Inductive store_method (py_repr : pyval -> string) : M unit -> Prop :=
  | sm_add_headers : forall sheet_name input,
      store_method py_repr (add_headers sheet_name input)
  | sm_add_data : forall sheet_name input,
      store_method py_repr (add_data sheet_name input)
  | sm_sort_data : forall sheet_name hdrs,
      store_method py_repr (sort_data py_repr sheet_name hdrs).

(** The dicts of the class and the printed lines, as seen from a wrapper. *)
Definition class_state (w : wrapper)
    : list (string * list Rule) *
      list (string * list (string * list cell_rule)) *
      list (string * string) * list string :=
  (table_styles w, cell_styles w, frozen_columns w, stdout w).

(** * Proofs *)

(** ** Column letters: proofs *)

Lemma letters_value_from_app : forall s acc c,
  letters_value_from acc (s ++ String c "") =
  letters_value_from acc s * 26 + letter_digit c.
Proof.
  induction s as [|a s IH]; intros acc c; simpl.
  - reflexivity.
  - apply IH.
Qed.

Lemma string_forallb_app : forall p s t,
  string_forallb p (s ++ t) = string_forallb p s && string_forallb p t.
Proof.
  induction s as [|a s IH]; intros t; simpl.
  - reflexivity.
  - rewrite IH. apply andb_assoc.
Qed.

Lemma string_app_assoc : forall s t u : string, (s ++ t) ++ u = s ++ (t ++ u).
Proof.
  induction s as [|a s IH]; intros; simpl; [reflexivity | now rewrite IH].
Qed.

Lemma string_app_nil_r : forall s : string, s ++ "" = s.
Proof.
  induction s as [|a s IH]; simpl; [reflexivity | now rewrite IH].
Qed.

Lemma ord_chr : forall z, 0 <= z < 256 -> ord (chr z) = z.
Proof.
  intros z Hz. unfold ord, chr.
  rewrite N_ascii_embedding.
  - apply Z2N.id. lia.
  - change 256%N with (Z.to_N 256). apply Z2N.inj_lt; lia.
Qed.

Lemma chr_ord : forall c, chr (ord c) = c.
Proof.
  intros c. unfold ord, chr. rewrite N2Z.id. apply ascii_N_embedding.
Qed.

Lemma is_upper_range : forall c, is_upper c = true <-> 65 <= ord c <= 90.
Proof.
  intros c. unfold is_upper. rewrite andb_true_iff, !Z.leb_le. tauto.
Qed.

(** The loop started at [div] with accumulator [acc] ends with a word [pre]
    in front of [acc]; [pre] is over [A..Z] and reads back as [div]. *)
Lemma col_loop_spec : forall fuel div acc,
  0 <= div <= Z.of_nat fuel ->
  exists pre,
    col_loop fuel div acc = Some (pre ++ acc) /\
    string_forallb is_upper pre = true /\
    letters_value pre = div /\
    (0 < div -> pre <> "").
Proof.
  induction fuel as [|fuel IH]; intros div acc Hdiv.
  - assert (div = 0) by lia. subst div.
    exists "". simpl. repeat split; auto. lia.
  - destruct (Z.eq_dec div 0) as [->|Hnz].
    + exists "". simpl. repeat split; auto. lia.
    + cbn [col_loop]. destruct (Z.eqb_spec div 0) as [|_]; [contradiction|].
      pose proof (Z.div_mod (div - 1) 26 ltac:(lia)) as Hdm.
      pose proof (Z.mod_pos_bound (div - 1) 26 ltac:(lia)) as Hm.
      assert (Hd : 0 <= (div - 1) / 26 <= Z.of_nat fuel).
      { split; [apply Z.div_pos; lia|].
        assert ((div - 1) / 26 <= div - 1)
          by (apply Z.div_le_upper_bound; lia).
        lia. }
      destruct (IH ((div - 1) / 26)
                  (String (chr ((div - 1) mod 26 + 65)) acc) Hd)
        as (pre & Hrun & Hup & Hval & _).
      exists (pre ++ String (chr ((div - 1) mod 26 + 65)) "").
      rewrite string_app_assoc. simpl. split; [exact Hrun|].
      split; [|split].
      * rewrite string_forallb_app, Hup. simpl. rewrite andb_true_r.
        apply is_upper_range. rewrite ord_chr; lia.
      * unfold letters_value in *. rewrite letters_value_from_app, Hval.
        unfold letter_digit. rewrite ord_chr; lia.
      * intros _ Hnil. destruct pre; discriminate Hnil.
Qed.

Lemma letters_value_nonneg : forall s,
  string_forallb is_upper s = true -> 0 <= letters_value s.
Proof.
  unfold letters_value.
  assert (H : forall s acc, string_forallb is_upper s = true -> 0 <= acc ->
                            0 <= letters_value_from acc s).
  { induction s as [|a s IH]; intros acc Hup Hacc; simpl in *.
    - exact Hacc.
    - apply andb_true_iff in Hup as [Ha Hs]. apply IH; [exact Hs|].
      apply is_upper_range in Ha. unfold letter_digit. lia. }
  intros s Hs. apply H; [exact Hs | lia].
Qed.

Lemma string_rev_ind : forall P : string -> Prop,
  P "" -> (forall s c, P s -> P (s ++ String c "")) -> forall s, P s.
Proof.
  intros P Hnil Hsnoc s.
  assert (H : forall n s, String.length s = n -> P s).
  { clear s. induction n as [|n IH]; intros s Hlen.
    - destruct s; [exact Hnil | discriminate].
    - assert (Hex : exists t c, s = t ++ String c "" /\ String.length t = n).
      { clear IH. revert n Hlen. induction s as [|a s IHs]; intros n Hlen.
        - discriminate.
        - destruct s as [|b s'].
          + exists "", a. simpl in *. split; [reflexivity | lia].
          + destruct n as [|n]; [discriminate|].
            destruct (IHs n) as (t & c & Heq & Hl); [simpl in *; lia|].
            exists (String a t), c. simpl. rewrite <- Heq.
            split; [reflexivity | simpl; lia]. }
      destruct Hex as (t & c & -> & Hl). apply Hsnoc, IH, Hl. }
  apply (H (String.length s) s eq_refl).
Qed.

(** Conversely the loop rebuilds any word over [A..Z] from its value. *)
Lemma col_loop_letters : forall s fuel acc,
  string_forallb is_upper s = true ->
  letters_value s <= Z.of_nat fuel ->
  col_loop fuel (letters_value s) acc = Some (s ++ acc).
Proof.
  intros s. induction s as [|s c IH] using string_rev_ind;
    intros fuel acc Hup Hfuel.
  - destruct fuel; reflexivity.
  - rewrite string_forallb_app in Hup. apply andb_true_iff in Hup as [Hs Hc].
    simpl in Hc. rewrite andb_true_r in Hc. apply is_upper_range in Hc.
    pose proof (letters_value_nonneg s Hs) as Hnn.
    unfold letters_value in *. rewrite letters_value_from_app in *.
    unfold letter_digit in *.
    set (v := letters_value_from 0 s) in *.
    destruct fuel as [|fuel]; [simpl in Hfuel; lia|].
    cbn [col_loop].
    destruct (Z.eqb_spec (v * 26 + (ord c - 64)) 0) as [E|_]; [lia|].
    assert (Hq : (v * 26 + (ord c - 64) - 1) / 26 = v).
    { symmetry. apply (Z.div_unique _ 26 v (ord c - 65)); lia. }
    assert (Hr : (v * 26 + (ord c - 64) - 1) mod 26 = ord c - 65).
    { symmetry. apply (Z.mod_unique _ 26 v (ord c - 65)); lia. }
    rewrite Hq, Hr.
    replace (ord c - 65 + 65) with (ord c) by lia. rewrite chr_ord.
    rewrite string_app_assoc. simpl. apply IH; [exact Hs | lia].
Qed.

Lemma col_to_excel_of_letters : forall s,
  string_forallb is_upper s = true ->
  _col_to_excel (letters_value s) = Some s.
Proof.
  intros s Hs. unfold _col_to_excel.
  rewrite col_loop_letters.
  - now rewrite string_app_nil_r.
  - exact Hs.
  - pose proof (letters_value_nonneg s Hs). lia.
Qed.

Lemma letters_value_from_ge : forall s acc,
  string_forallb is_upper s = true -> 0 <= acc ->
  acc <= letters_value_from acc s.
Proof.
  induction s as [|c s IH]; intros acc Hup Hacc;
    cbn [letters_value_from string_forallb] in *.
  - lia.
  - apply andb_true_iff in Hup as [Hc Hs]. apply is_upper_range in Hc.
    assert (H : acc * 26 + letter_digit c <=
                letters_value_from (acc * 26 + letter_digit c) s)
      by (apply IH; [exact Hs | unfold letter_digit; lia]).
    unfold letter_digit in *. lia.
Qed.

Lemma letters_value_positive : forall s, column_name s -> 1 <= letters_value s.
Proof.
  intros [|c s] [Hne Hup]; [contradiction|].
  unfold letters_value. cbn [letters_value_from string_forallb] in *.
  apply andb_true_iff in Hup as [Hc Hs]. apply is_upper_range in Hc.
  assert (H : 0 * 26 + letter_digit c <=
              letters_value_from (0 * 26 + letter_digit c) s)
    by (apply letters_value_from_ge; [exact Hs | unfold letter_digit; lia]).
  unfold letter_digit in *. lia.
Qed.

Lemma col_to_excel_returns : forall n,
  1 <= n ->
  exists s, _col_to_excel n = Some s /\ column_name s /\ letters_value s = n.
Proof.
  intros n Hn.
  destruct (col_loop_spec (Z.to_nat n) n "" ltac:(lia))
    as (s & Hrun & Hup & Hval & Hne).
  rewrite string_app_nil_r in Hrun.
  exists s. split; [exact Hrun|]. split; [|exact Hval].
  split; [apply Hne; lia | exact Hup].
Qed.

(** C2.  For every column index [n >= 1], [_col_to_excel] returns a column
    name (a non-empty word over A..Z) whose bijective base-26 value is [n],
    and it is the only column name with that value; every column name is
    returned for its value, which is at least 1.  In particular 1 is "A",
    26 is "Z", 27 is "AA", 52 is "AZ", 702 is "ZZ" and 703 is "AAA". *)
Theorem col_to_excel_bijective_base26 :
  (forall n, 1 <= n ->
     exists s, _col_to_excel n = Some s /\ column_name s /\
               letters_value s = n /\
               forall t, column_name t -> letters_value t = n -> t = s) /\
  (forall s, column_name s ->
     1 <= letters_value s /\ _col_to_excel (letters_value s) = Some s) /\
  _col_to_excel 1 = Some "A" /\
  _col_to_excel 26 = Some "Z" /\
  _col_to_excel 27 = Some "AA" /\
  _col_to_excel 52 = Some "AZ" /\
  _col_to_excel 702 = Some "ZZ" /\
  _col_to_excel 703 = Some "AAA".
Proof.
  split; [|split; [|repeat split; vm_compute; reflexivity]].
  2: { intros s Hs. split; [now apply letters_value_positive|].
       apply col_to_excel_of_letters, Hs. }
  intros n Hn.
  destruct (col_to_excel_returns n Hn) as (s & Hrun & Hname & Hval).
  exists s. repeat split; try assumption; try apply Hname.
  intros t [_ Ht] Hv.
  pose proof (col_to_excel_of_letters t Ht) as Hback.
  rewrite Hv, Hrun in Hback. now inversion Hback.
Qed.

Lemma col_to_excel_bijective_base26_witness :
  1 <= 18278 /\
  exists s, _col_to_excel 18278 = Some s /\ column_name s /\
            letters_value s = 18278 /\
            forall t, column_name t -> letters_value t = 18278 -> t = s.
Proof.
  split; [lia|].
  apply (proj1 col_to_excel_bijective_base26 18278). lia.
Defined.

(** ** Natural sort key: proofs *)

Lemma re_split_text_prefix : forall t cur s,
  no_digit t = true ->
  re_split_from false cur (t ++ s) = re_split_from false (cur ++ t) s.
Proof.
  induction t as [|c t IH]; intros cur s Ht; simpl in *.
  - now rewrite string_app_nil_r.
  - apply andb_true_iff in Ht as [Hc Ht].
    apply negb_true_iff in Hc. rewrite Hc. simpl.
    rewrite IH by exact Ht. now rewrite string_app_assoc.
Qed.

Lemma re_split_run_prefix : forall d cur s,
  string_forallb is_digit d = true ->
  re_split_from true cur (d ++ s) = re_split_from true (cur ++ d) s.
Proof.
  induction d as [|c d IH]; intros cur s Hd; simpl in *.
  - now rewrite string_app_nil_r.
  - apply andb_true_iff in Hd as [Hc Hd]. rewrite Hc. simpl.
    rewrite IH by exact Hd. now rewrite string_app_assoc.
Qed.

Lemma digit_run_cons : forall d,
  digit_run d = true ->
  exists c d', d = String c d' /\ is_digit c = true /\
               string_forallb is_digit d' = true.
Proof.
  intros [|c d'] H; [discriminate|].
  simpl in H. apply andb_true_iff in H as [Hc Hd]. now exists c, d'.
Qed.

Lemma digit_run_forall : forall d, digit_run d = true -> string_forallb is_digit d = true.
Proof. intros [|c d] H; [discriminate | exact H]. Qed.

Lemma no_digit_not_run : forall t, no_digit t = true -> digit_run t = false.
Proof.
  intros [|c t] H; [reflexivity|].
  simpl in *. apply andb_true_iff in H as [Hc _].
  apply negb_true_iff in Hc. now rewrite Hc.
Qed.

(** Induction along an alternating segmentation, two spans at a time. *)
Lemma alternating_ind : forall P : bool -> list string -> Prop,
  (forall first t, no_digit t = true -> P first [t]) ->
  (forall first t d rest,
      no_digit t = true -> (first || negb (String.eqb t "")) = true ->
      digit_run d = true -> alternating false rest = true ->
      P false rest -> P first (t :: d :: rest)) ->
  forall first spans, alternating first spans = true -> P first spans.
Proof.
  intros P Hone Hstep.
  assert (H : forall n first spans, (List.length spans <= n)%nat ->
                alternating first spans = true -> P first spans).
  { induction n as [|n IH]; intros first spans Hlen Hok.
    - destruct spans; [discriminate | simpl in Hlen; lia].
    - destruct spans as [|t [|d rest]]; [discriminate| |].
      + apply Hone. exact Hok.
      + simpl in Hok.
        repeat (apply andb_true_iff in Hok as [Hok ?]).
        apply Hstep; auto. apply IH; [simpl in Hlen; lia | assumption]. }
  intros first spans. apply (H (List.length spans)). lia.
Qed.

(** After a digit run, the scanner reads back the rest of a segmentation. *)
Lemma re_split_after_run : forall first rest,
  alternating first rest = true -> first = false ->
  forall cur, re_split_from true cur (join rest) = cur :: rest.
Proof.
  apply (alternating_ind
           (fun first rest => first = false ->
              forall cur, re_split_from true cur (join rest) = cur :: rest)).
  - intros first t Ht _ cur. simpl. rewrite string_app_nil_r.
    destruct t as [|c t]; [reflexivity|].
    simpl in *. apply andb_true_iff in Ht as [Hc Ht].
    apply negb_true_iff in Hc. rewrite Hc. simpl.
    pose proof (re_split_text_prefix t (String c "") "" Ht) as E.
    rewrite string_app_nil_r in E. rewrite E. reflexivity.
  - intros first t d rest Ht Hne Hd _ IH -> cur.
    simpl in Hne. destruct t as [|c t]; [discriminate|].
    destruct (digit_run_cons d Hd) as (c2 & d' & -> & Hc2 & Hd').
    simpl in Ht. apply andb_true_iff in Ht as [Hc Ht].
    apply negb_true_iff in Hc.
    cbn [join]. cbn [append re_split_from]. rewrite Hc. simpl.
    rewrite re_split_text_prefix by exact Ht.
    cbn [append re_split_from]. rewrite Hc2. simpl.
    rewrite re_split_run_prefix by exact Hd'.
    simpl. rewrite (IH eq_refl). reflexivity.
Qed.

(** [re.split] returns the alternating segmentation, whichever way it is
    written down. *)
Lemma re_split_of_alternating : forall spans,
  alternating true spans = true ->
  re_split_digits (join spans) = spans.
Proof.
  intros spans Hok. unfold re_split_digits.
  destruct spans as [|t [|d rest]]; [discriminate| |].
  - simpl in *. rewrite string_app_nil_r.
    pose proof (re_split_text_prefix t "" "" Hok) as E.
    rewrite string_app_nil_r in E. exact E.
  - simpl in Hok. repeat (apply andb_true_iff in Hok as [Hok ?]).
    destruct (digit_run_cons d) as (c2 & d' & -> & Hc2 & Hd'); [assumption|].
    cbn [join]. rewrite re_split_text_prefix by assumption.
    cbn [append re_split_from]. rewrite Hc2. simpl.
    rewrite re_split_run_prefix by exact Hd'.
    simpl. rewrite (re_split_after_run false rest) by auto. reflexivity.
Qed.

Lemma join_re_split_from : forall s in_run cur,
  join (re_split_from in_run cur s) = cur ++ s.
Proof.
  induction s as [|c s IH]; intros in_run cur; simpl.
  - destruct in_run; simpl; now rewrite ?string_app_nil_r.
  - destruct (Bool.eqb (is_digit c) in_run); simpl; rewrite IH.
    + now rewrite string_app_assoc.
    + reflexivity.
Qed.

Lemma no_digit_app : forall s t, no_digit (s ++ t) = no_digit s && no_digit t.
Proof. intros. apply string_forallb_app. Qed.

Lemma digit_run_snoc : forall d c,
  digit_run d = true -> is_digit c = true -> digit_run (d ++ String c "") = true.
Proof.
  intros d c Hd Hc. destruct d as [|a d]; [discriminate|].
  simpl in *. apply andb_true_iff in Hd as [Ha Hd].
  rewrite Ha, string_forallb_app, Hd. simpl. now rewrite Hc.
Qed.

Lemma string_snoc_nonempty : forall s c, String.eqb (s ++ String c "") "" = false.
Proof. intros [|a s] c; reflexivity. Qed.

Lemma re_split_from_alternating : forall s,
  (forall cur first,
      no_digit cur = true -> (first || negb (String.eqb cur "")) = true ->
      alternating first (re_split_from false cur s) = true) /\
  (forall cur,
      digit_run cur = true ->
      exists d rest, re_split_from true cur s = d :: rest /\
                     digit_run d = true /\ alternating false rest = true).
Proof.
  induction s as [|c s [IHt IHr]]; split.
  - intros cur first Hcur _. exact Hcur.
  - intros cur Hcur. exists cur, [""]. auto.
  - intros cur first Hcur Hne. cbn [re_split_from].
    destruct (is_digit c) eqn:Hc; cbn [Bool.eqb].
    + destruct (IHr (String c "")) as (d & rest & E & Hd & Hrest).
      { cbn [digit_run string_forallb]. now rewrite Hc. }
      rewrite E. cbn [alternating]. now rewrite Hcur, Hne, Hd, Hrest.
    + apply IHt.
      * rewrite no_digit_app, Hcur. unfold no_digit.
        cbn [string_forallb]. now rewrite Hc.
      * rewrite string_snoc_nonempty. apply orb_true_r.
  - intros cur Hcur. cbn [re_split_from].
    destruct (is_digit c) eqn:Hc; cbn [Bool.eqb].
    + apply IHr. now apply digit_run_snoc.
    + exists cur, (re_split_from false (String c "") s).
      split; [reflexivity|]. split; [exact Hcur|].
      apply IHt; [|reflexivity].
      unfold no_digit. cbn [string_forallb]. now rewrite Hc.
Qed.

Lemma re_split_alternating : forall s,
  alternating true (re_split_digits s) = true /\ join (re_split_digits s) = s.
Proof.
  intros s. split.
  - apply (proj1 (re_split_from_alternating s)); reflexivity.
  - unfold re_split_digits. now rewrite join_re_split_from.
Qed.

Lemma lower_char_lowercase : forall c, lower_char c = lowercase_char c.
Proof.
  intros [b0 b1 b2 b3 b4 b5 b6 b7].
  destruct b0, b1, b2, b3, b4, b5, b6, b7; vm_compute; reflexivity.
Qed.

Lemma lower_lowercase : forall t, lower t = lowercase t.
Proof.
  induction t as [|c t IH]; simpl; [reflexivity|].
  now rewrite lower_char_lowercase, IH.
Qed.

Lemma int_from_value : forall d acc,
  int_from acc d = acc * 10 ^ Z.of_nat (String.length d) + digits_value d.
Proof.
  induction d as [|c d IH]; intros acc; cbn [int_from digits_value String.length].
  - change (10 ^ Z.of_nat 0) with 1. lia.
  - rewrite IH, Nat2Z.inj_succ, Z.pow_succ_r by lia. ring.
Qed.

Lemma is_digit_isdigit_char : forall c, is_digit c = true -> isdigit_char c = true.
Proof. intros c H. unfold isdigit_char. now rewrite H. Qed.

Lemma digit_run_isdigit : forall d, digit_run d = true -> isdigit d = true.
Proof.
  intros [|c d] H; [discriminate|]. cbn [digit_run isdigit] in *.
  revert H. generalize (String c d). clear c d.
  induction s as [|c s IH]; simpl; intros H; [reflexivity|].
  apply andb_true_iff in H as [Hc Hs].
  now rewrite (is_digit_isdigit_char c Hc), IH.
Qed.

Lemma key_segment_text : forall t,
  no_digit t = true ->
  key_segment t = if isdigit t
                  then Err (ValueError
                              ("invalid literal for int() with base 10: '"
                               ++ t ++ "'"))
                  else Ok (SStr (lowercase t)).
Proof.
  intros t Ht. unfold key_segment, int.
  rewrite (no_digit_not_run t Ht), lower_lowercase.
  now destruct (isdigit t).
Qed.

Lemma key_segment_run : forall d,
  digit_run d = true ->
  key_segment d =
    if Nat.leb (String.length d) int_max_str_digits
    then Ok (SInt (digits_value d))
    else Err (ValueError
                ("Exceeds the limit (4300 digits) for integer string conversion: value has "
                 ++ string_of_Z (Z.of_nat (String.length d))
                 ++ " digits; use sys.set_int_max_str_digits() to increase the limit")).
Proof.
  intros d Hd. unfold key_segment, int.
  rewrite (digit_run_isdigit d Hd), Hd.
  destruct (Nat.leb_spec (String.length d) int_max_str_digits) as [Hle|Hgt].
  - apply Nat.ltb_ge in Hle. rewrite Hle. simpl.
    rewrite int_from_value, Z.mul_0_l, Z.add_0_l. reflexivity.
  - apply Nat.ltb_lt in Hgt. now rewrite Hgt.
Qed.

(** On plain spans the key is the sequence of the typed segments. *)
Lemma key_of_alternating : forall first spans,
  alternating first spans = true ->
  plain_spans false spans = true ->
  rmap key_segment spans = Ok (typed_segments false spans).
Proof.
  apply (alternating_ind
           (fun _ spans =>
              plain_spans false spans = true ->
              rmap key_segment spans = Ok (typed_segments false spans))).
  - intros _ t Ht Hp. cbn [plain_spans] in Hp.
    apply andb_true_iff in Hp as [Hp _]. apply negb_true_iff in Hp.
    cbn [rmap typed_segments]. rewrite (key_segment_text t Ht), Hp.
    reflexivity.
  - intros _ t d rest Ht _ Hd _ IH Hp. cbn [plain_spans negb] in Hp.
    apply andb_true_iff in Hp as [Hpt Hp].
    apply andb_true_iff in Hp as [Hpd Hp].
    apply negb_true_iff in Hpt.
    cbn [rmap typed_segments negb].
    rewrite (key_segment_text t Ht), Hpt, (key_segment_run d Hd), Hpd.
    cbn [rbind]. rewrite (IH Hp). reflexivity.
Qed.

(** A key that is returned is the sequence of the typed segments, and the
    spans are plain: in this range of code points a text span that
    [str.isdigit] accepts is refused by [int]. *)
Lemma key_returned : forall first spans,
  alternating first spans = true ->
  forall k, rmap key_segment spans = Ok k ->
            plain_spans false spans = true /\ k = typed_segments false spans.
Proof.
  apply (alternating_ind
           (fun _ spans =>
              forall k, rmap key_segment spans = Ok k ->
                        plain_spans false spans = true /\
                        k = typed_segments false spans)).
  - intros _ t Ht k H. cbn [rmap] in H.
    rewrite (key_segment_text t Ht) in H. cbn [plain_spans typed_segments].
    destruct (isdigit t); [discriminate|]. simpl in H.
    injection H as <-. auto.
  - intros _ t d rest Ht _ Hd _ IH k H. cbn [rmap] in H.
    rewrite (key_segment_text t Ht), (key_segment_run d Hd) in H.
    cbn [plain_spans typed_segments negb].
    destruct (isdigit t); [discriminate|].
    destruct (Nat.leb (String.length d) int_max_str_digits);
      [|discriminate].
    cbn [rbind] in H.
    destruct (rmap key_segment rest) as [k'|e] eqn:E; [|discriminate].
    simpl in H. injection H as <-.
    destruct (IH k' eq_refl) as [Hp ->]. now rewrite Hp.
Qed.

(** ** The stable sort: proofs *)

Section SortFacts.

Context {K A : Type}.
Variable lt : K -> K -> result bool.

Lemma sort_insert_perm : forall (x : K * A) l r,
  sort_insert lt x l = Ok r -> Permutation (x :: l) r.
Proof.
  intros x l. induction l as [|y l IH]; intros r H; simpl in H.
  - inversion H. apply Permutation_refl.
  - destruct (lt (fst y) (fst x)) as [[|]|e]; simpl in H; try discriminate.
    + destruct (sort_insert lt x l) as [r'|e]; simpl in H; [|discriminate].
      inversion H; subst. eapply perm_trans; [apply perm_swap|].
      apply perm_skip. now apply IH.
    + inversion H. apply Permutation_refl.
Qed.

Lemma sort_decorated_perm : forall (l r : list (K * A)),
  sort_decorated lt l = Ok r -> Permutation l r.
Proof.
  induction l as [|x l IH]; intros r H; simpl in H.
  - inversion H. apply perm_nil.
  - destruct (sort_decorated lt l) as [r'|e]; simpl in H; [|discriminate].
    eapply perm_trans; [apply perm_skip, IH; reflexivity|].
    now apply sort_insert_perm.
Qed.

(** A class of keys no two members of which compare strictly. *)
Variable sel : K -> bool.
Hypothesis sel_flat : forall a b,
  sel a = true -> sel b = true -> lt a b <> Ok true.

Lemma sort_insert_stable : forall (x : K * A) l r,
  sort_insert lt x l = Ok r ->
  filter (fun p => sel (fst p)) r = filter (fun p => sel (fst p)) (x :: l).
Proof.
  intros x l. induction l as [|y l IH]; intros r H; simpl in H.
  - now inversion H.
  - destruct (lt (fst y) (fst x)) as [[|]|e] eqn:Hlt; simpl in H;
      try discriminate.
    + destruct (sort_insert lt x l) as [r'|e]; simpl in H; [|discriminate].
      inversion H; subst r. clear H.
      specialize (IH r' eq_refl). cbn [filter] in *. rewrite IH.
      destruct (sel (fst y)) eqn:Hy, (sel (fst x)) eqn:Hx; try reflexivity.
      exfalso. exact (sel_flat _ _ Hy Hx Hlt).
    + now inversion H.
Qed.

Lemma sort_decorated_stable : forall (l r : list (K * A)),
  sort_decorated lt l = Ok r ->
  filter (fun p => sel (fst p)) r = filter (fun p => sel (fst p)) l.
Proof.
  induction l as [|x l IH]; intros r H; simpl in H.
  - now inversion H.
  - destruct (sort_decorated lt l) as [r'|e]; simpl in H; [|discriminate].
    rewrite (sort_insert_stable _ _ _ H). cbn [filter].
    now rewrite (IH r' eq_refl).
Qed.

(** The sort returns when the keys at hand all compare. *)
Variable good : K -> Prop.
Hypothesis lt_total : forall a b, good a -> good b -> exists c, lt a b = Ok c.

Lemma sort_insert_returns : forall (x : K * A) l,
  good (fst x) -> Forall (fun p => good (fst p)) l ->
  exists r, sort_insert lt x l = Ok r.
Proof.
  intros x l Hx. induction l as [|y l IH]; intros Hl; simpl.
  - now exists [x].
  - inversion Hl as [|? ? Hy Hl']; subst.
    destruct (lt_total _ _ Hy Hx) as [[|] E]; rewrite E; simpl.
    + destruct (IH Hl') as [r ->]. simpl. now eexists.
    + now eexists.
Qed.

Lemma sort_decorated_returns : forall (l : list (K * A)),
  Forall (fun p => good (fst p)) l -> exists r, sort_decorated lt l = Ok r.
Proof.
  induction l as [|x l IH]; intros Hl; simpl.
  - now exists [].
  - inversion Hl as [|? ? Hx Hl']; subst.
    destruct (IH Hl') as [r E]. rewrite E. simpl.
    apply sort_insert_returns; [exact Hx|].
    apply (Permutation_Forall (sort_decorated_perm _ _ E)). exact Hl'.
Qed.

(** The output is in order: no element is strictly smaller than the one
    before it. *)
Hypothesis lt_asym : forall a b, lt a b = Ok true -> lt b a = Ok false.

Lemma sort_insert_sorted : forall (x : K * A) l r,
  Sorted (not_after lt) l -> sort_insert lt x l = Ok r ->
  Sorted (not_after lt) r /\
  (forall z, not_after lt z x -> HdRel (not_after lt) z l ->
             HdRel (not_after lt) z r).
Proof.
  intros x l. induction l as [|y l IH]; intros r Hs H; simpl in H.
  - inversion H; subst. split.
    + repeat constructor.
    + intros z Hz _. now constructor.
  - destruct (lt (fst y) (fst x)) as [[|]|e] eqn:Hlt; simpl in H;
      try discriminate.
    + destruct (sort_insert lt x l) as [r'|e]; simpl in H; [|discriminate].
      inversion H; subst r. clear H.
      inversion Hs as [|? ? Hs' Hhd]; subst.
      destruct (IH r' Hs' eq_refl) as [Hr' Hrel]. split.
      * constructor; [exact Hr'|]. apply Hrel; [|exact Hhd].
        unfold not_after. now apply lt_asym.
      * intros z _ Hz. inversion Hz; subst. now constructor.
    + inversion H; subst r. split.
      * constructor; [exact Hs|]. now constructor.
      * intros z Hz _. now constructor.
Qed.

Lemma sort_decorated_sorted : forall (l r : list (K * A)),
  sort_decorated lt l = Ok r -> Sorted (not_after lt) r.
Proof.
  induction l as [|x l IH]; intros r H; simpl in H.
  - inversion H. constructor.
  - destruct (sort_decorated lt l) as [r'|e]; simpl in H; [|discriminate].
    exact (proj1 (sort_insert_sorted x r' r (IH r' eq_refl) H)).
Qed.

End SortFacts.

(** Decorating: every element paired with its key. *)
Lemma rmap_decorate : forall {K A : Type} (key : A -> result K) (l : list A) dec,
  rmap (decorate key) l = Ok dec ->
  map snd dec = l /\ Forall (fun p => key (snd p) = Ok (fst p)) dec.
Proof.
  intros K A key. induction l as [|x l IH]; intros dec H; simpl in H.
  - inversion H. split; [reflexivity | constructor].
  - unfold decorate at 1 in H.
    destruct (key x) as [k|e] eqn:Hk; simpl in H; [|discriminate].
    destruct (rmap (decorate key) l) as [dec'|e]; simpl in H; [|discriminate].
    inversion H; subst dec. destruct (IH dec' eq_refl) as [Hm Hf].
    split; [simpl; now rewrite Hm | constructor; [exact Hk | exact Hf]].
Qed.

Lemma rmap_returns : forall {A B : Type} (f : A -> result B) (l : list A),
  Forall (fun x => exists y, f x = Ok y) l -> exists r, rmap f l = Ok r.
Proof.
  intros A B f. induction l as [|x l IH]; intros H; simpl.
  - now eexists.
  - inversion H as [|? ? [y Hy] Hl]; subst. rewrite Hy. simpl.
    destruct (IH Hl) as [r ->]. simpl. now eexists.
Qed.

Lemma rmap_Forall2 : forall {A B : Type} (f : A -> result B) (l : list A) r,
  rmap f l = Ok r -> Forall2 (fun x y => f x = Ok y) l r.
Proof.
  intros A B f. induction l as [|x l IH]; intros r H; simpl in H.
  - inversion H. constructor.
  - destruct (f x) as [y|e] eqn:Hy; simpl in H; [|discriminate].
    destruct (rmap f l) as [r'|e]; simpl in H; [|discriminate].
    inversion H; subst. constructor; [exact Hy | now apply IH].
Qed.

(** ** Comparison of keys: proofs *)

Section ListOrder.

Context {A : Type}.
Variable eqb : A -> A -> bool.
Variable lt : A -> A -> result bool.

Hypothesis eqb_eq : forall x y, eqb x y = true <-> x = y.

Lemma list_eqb_eq : forall v w, list_eqb eqb v w = true <-> v = w.
Proof.
  induction v as [|x v IH]; intros [|y w]; simpl; split; intros H;
    try reflexivity; try discriminate.
  - apply andb_true_iff in H as [Hx Hv].
    apply eqb_eq in Hx. apply IH in Hv. now subst.
  - inversion H; subst. apply andb_true_iff. split.
    + now apply eqb_eq.
    + now apply IH.
Qed.

Lemma list_lt_irrefl : forall v, list_lt eqb lt v v = Ok false.
Proof.
  induction v as [|x v IH]; simpl; [reflexivity|].
  now rewrite (proj2 (eqb_eq x x) eq_refl).
Qed.

Hypothesis lt_asym : forall x y, lt x y = Ok true -> lt y x = Ok false.

Lemma eqb_sym : forall x y, eqb x y = eqb y x.
Proof.
  intros x y. destruct (eqb x y) eqn:E1, (eqb y x) eqn:E2; try reflexivity.
  - apply eqb_eq in E1. subst. now rewrite (proj2 (eqb_eq y y) eq_refl) in E2.
  - apply eqb_eq in E2. subst. now rewrite (proj2 (eqb_eq x x) eq_refl) in E1.
Qed.

Lemma list_lt_asym : forall v w,
  list_lt eqb lt v w = Ok true -> list_lt eqb lt w v = Ok false.
Proof.
  induction v as [|x v IH]; intros [|y w] H; simpl in *;
    try reflexivity; try discriminate.
  rewrite (eqb_sym y x). destruct (eqb x y); [now apply IH | now apply lt_asym].
Qed.

(** Two lists whose elements compare position by position compare. *)
Lemma list_lt_returns : forall (R : A -> A -> Prop) v w,
  (forall x y, R x y -> exists c, lt x y = Ok c) ->
  (forall n x y, nth_error v n = Some x -> nth_error w n = Some y -> R x y) ->
  exists c, list_lt eqb lt v w = Ok c.
Proof.
  intros R v w HR. revert w.
  induction v as [|x v IH]; intros [|y w] Hnth; simpl; try (now eexists).
  destruct (eqb x y).
  - apply IH. intros n a b Ha Hb. exact (Hnth (S n) a b Ha Hb).
  - apply HR. exact (Hnth O x y eq_refl eq_refl).
Qed.

End ListOrder.

Lemma segment_eqb_eq : forall a b, segment_eqb a b = true <-> a = b.
Proof.
  intros [x|x] [y|y]; simpl; split; intros H; try discriminate.
  - apply Z.eqb_eq in H. now subst.
  - inversion H. apply Z.eqb_refl.
  - apply String.eqb_eq in H. now subst.
  - inversion H. apply String.eqb_refl.
Qed.

Lemma segment_lt_asym : forall a b,
  segment_lt a b = Ok true -> segment_lt b a = Ok false.
Proof.
  intros [x|x] [y|y] H; simpl in *; try discriminate.
  - inversion H as [E]. f_equal. apply Z.ltb_lt in E. apply Z.ltb_ge. lia.
  - inversion H as [E]. f_equal. unfold String.ltb in *.
    rewrite String.compare_antisym.
    destruct (String.compare x y); try discriminate. reflexivity.
Qed.

Lemma row_key_eqb_eq : forall k k', row_key_eqb k k' = true <-> k = k'.
Proof.
  apply list_eqb_eq. apply list_eqb_eq. exact segment_eqb_eq.
Qed.

Lemma row_key_lt_irrefl : forall k, row_key_lt k k = Ok false.
Proof.
  apply list_lt_irrefl. apply list_eqb_eq. exact segment_eqb_eq.
Qed.

Lemma row_key_lt_asym : forall k k',
  row_key_lt k k' = Ok true -> row_key_lt k' k = Ok false.
Proof.
  apply list_lt_asym.
  - apply list_eqb_eq. exact segment_eqb_eq.
  - apply list_lt_asym; [exact segment_eqb_eq | exact segment_lt_asym].
Qed.

Lemma key_shape_nth : forall k is_run n a,
  key_shape is_run k = true -> nth_error k n = Some a ->
  match a with
  | SInt _ => xorb is_run (Nat.odd n) = true
  | SStr _ => xorb is_run (Nat.odd n) = false
  end.
Proof.
  induction k as [|b k IH]; intros is_run n a Hs Hn.
  - destruct n; discriminate.
  - destruct n as [|n].
    + simpl in Hn. inversion Hn; subst a.
      destruct b; simpl in Hs; apply andb_true_iff in Hs as [Hb _];
        destruct is_run; try discriminate; reflexivity.
    + simpl in Hn.
      assert (Hk : key_shape (negb is_run) k = true).
      { destruct b; simpl in Hs; now apply andb_true_iff in Hs as [_ Hk]. }
      specialize (IH (negb is_run) n a Hk Hn).
      rewrite Nat.odd_succ, <- Nat.negb_odd.
      destruct a, is_run, (Nat.odd n); simpl in *; congruence.
Qed.

(** Two keys of the same shape compare: the same position never holds an
    [int] in one and a [str] in the other. *)
Lemma natural_keys_compare : forall k1 k2,
  key_shape false k1 = true -> key_shape false k2 = true ->
  exists c, list_lt segment_eqb segment_lt k1 k2 = Ok c.
Proof.
  intros k1 k2 H1 H2.
  apply (list_lt_returns segment_eqb segment_lt
           (fun a b => match a, b with
                       | SInt _, SInt _ | SStr _, SStr _ => True
                       | _, _ => False
                       end)).
  - intros [x|x] [y|y] H; simpl; try contradiction; now eexists.
  - intros n a b Ha Hb.
    pose proof (key_shape_nth k1 false n a H1 Ha) as Pa.
    pose proof (key_shape_nth k2 false n b H2 Hb) as Pb.
    destruct a, b; simpl in *; try exact I; congruence.
Qed.

Lemma typed_segments_shape : forall spans is_run,
  key_shape is_run (typed_segments is_run spans) = true.
Proof.
  induction spans as [|t spans IH]; intros is_run; simpl; [reflexivity|].
  destruct is_run; simpl; apply IH.
Qed.

Lemma natural_sort_key_typed : forall s,
  plain_text s = true ->
  natural_sort_key s = Ok (typed_segments false (re_split_digits s)).
Proof.
  intros s Hp. apply (key_of_alternating true); [|exact Hp].
  apply re_split_alternating.
Qed.

Lemma natural_sort_key_returned : forall s k,
  natural_sort_key s = Ok k ->
  plain_text s = true /\ k = typed_segments false (re_split_digits s).
Proof.
  intros s k H. apply (key_returned true); [|exact H].
  apply re_split_alternating.
Qed.

Lemma natural_sort_key_shape : forall s k,
  natural_sort_key s = Ok k -> key_shape false k = true.
Proof.
  intros s k H. destruct (natural_sort_key_returned s k H) as [_ ->].
  apply typed_segments_shape.
Qed.

Lemma row_keys_compare : forall k1 k2 : row_key,
  Forall (fun k => key_shape false k = true) k1 ->
  Forall (fun k => key_shape false k = true) k2 ->
  exists c, row_key_lt k1 k2 = Ok c.
Proof.
  intros k1 k2 H1 H2.
  apply (list_lt_returns (list_eqb segment_eqb)
           (list_lt segment_eqb segment_lt)
           (fun a b => key_shape false a = true /\ key_shape false b = true)).
  - intros a b [Ha Hb]. now apply natural_keys_compare.
  - intros n a b Ha Hb. split.
    + apply nth_error_In in Ha. rewrite Forall_forall in H1. now apply H1.
    + apply nth_error_In in Hb. rewrite Forall_forall in H2. now apply H2.
Qed.

(** ** [natural_sort_multiple_columns]: proofs *)

Section SortProofs.

Variable py_repr : pyval -> string.

Lemma sort_key_of_row_shape : forall sort_keys row k,
  sort_key_of_row py_repr sort_keys row = Ok k ->
  Forall (fun seg => key_shape false seg = true) k.
Proof.
  intros sort_keys row k H. unfold sort_key_of_row in H.
  apply rmap_Forall2 in H.
  induction H as [|key seg keys segs Hkey _ IH]; constructor; [|exact IH].
  destruct (py_index row key) as [v|e]; simpl in Hkey; [|discriminate].
  destruct (str_of py_repr v) as [text|e]; simpl in Hkey; [|discriminate].
  exact (natural_sort_key_shape text seg Hkey).
Qed.

(** The text of a plain cell is returned by [str] and is plain. *)
Lemma plain_cell_text : forall v,
  plain_cell v = true ->
  exists text, str_of py_repr v = Ok text /\ plain_text text = true.
Proof.
  intros v H. destruct v as [|b|z|s|l|l|l|d]; try discriminate.
  - now exists "None".
  - destruct b; [now exists "True" | now exists "False"].
  - cbn [plain_cell] in H. apply andb_true_iff in H as [Hz Hp].
    exists (string_of_Z z). cbn [str_of py_str]. now rewrite Hz.
  - exists s. auto.
Qed.

Lemma sort_key_of_row_returns : forall sort_keys row,
  Forall (fun key => exists v, py_index row key = Ok v /\ plain_cell v = true)
         sort_keys ->
  exists k, sort_key_of_row py_repr sort_keys row = Ok k.
Proof.
  intros sort_keys row H. apply rmap_returns.
  apply Forall_impl with (2 := H).
  intros key (v & Hv & Hp). rewrite Hv. simpl.
  destruct (plain_cell_text v Hp) as (text & -> & Htext). simpl.
  rewrite (natural_sort_key_typed text Htext). now eexists.
Qed.

Lemma filter_has_key_decorated : forall sort_keys k (l : list (row_key * list pyval)),
  Forall (fun p => sort_key_of_row py_repr sort_keys (snd p) = Ok (fst p)) l ->
  filter (has_key py_repr sort_keys k) (map snd l) =
  map snd (filter (fun p => row_key_eqb (fst p) k) l).
Proof.
  intros sort_keys k. induction l as [|p l IH]; intros H; [reflexivity|].
  inversion H as [|? ? Hp Hl]; subst. simpl.
  unfold has_key at 1. rewrite Hp.
  destruct (row_key_eqb (fst p) k); simpl; now rewrite IH.
Qed.

Lemma sorted_rows_of_decorated : forall sort_keys (l : list (row_key * list pyval)),
  Forall (fun p => sort_key_of_row py_repr sort_keys (snd p) = Ok (fst p)) l ->
  Sorted (not_after row_key_lt) l ->
  Sorted (in_order py_repr sort_keys) (map snd l).
Proof.
  intros sort_keys l Hinv Hs. induction Hs as [|p l Hs IH Hhd]; simpl.
  - constructor.
  - inversion Hinv as [|? ? Hp Hl]; subst.
    constructor; [now apply IH|].
    destruct Hhd as [|q l Hpq]; simpl; constructor.
    inversion Hl as [|? ? Hq _]; subst.
    exists (fst p), (fst q). auto.
Qed.

(** C9.  [natural_sort_multiple_columns] is a stable sort.  It returns
    whenever every row has the sort columns and the cells in them are plain
    (a [None], [bool], [int] or [str] whose text has plain spans, so that no
    key holds an [int] where another holds a [str] and [int] refuses no
    span); and whenever it returns, the
    rows are a permutation of the input in key order, and for every
    composite key the rows that have that key appear in the same relative
    order as in the input. *)
Theorem natural_sort_is_stable : forall data sort_keys,
  (Forall (fun row =>
             Forall (fun key => exists v, py_index row key = Ok v /\
                                          plain_cell v = true)
                    sort_keys)
          data ->
   exists sorted,
     natural_sort_multiple_columns py_repr data sort_keys = Ok sorted) /\
  (forall sorted,
     natural_sort_multiple_columns py_repr data sort_keys = Ok sorted ->
     Permutation data sorted /\
     Sorted (in_order py_repr sort_keys) sorted /\
     forall k, filter (has_key py_repr sort_keys k) sorted =
               filter (has_key py_repr sort_keys k) data).
Proof.
  intros data sort_keys. unfold natural_sort_multiple_columns, list_sort. split.
  - intros Hcols.
    destruct (rmap_returns (decorate (sort_key_of_row py_repr sort_keys)) data)
      as [dec Hdec].
    { apply Forall_impl with (2 := Hcols). intros row Hrow.
      destruct (sort_key_of_row_returns sort_keys row Hrow) as [k Hk].
      unfold decorate. rewrite Hk. simpl. now eexists. }
    rewrite Hdec. simpl.
    destruct (rmap_decorate _ _ _ Hdec) as [_ Hinv].
    destruct (sort_decorated_returns row_key_lt
                (fun k => Forall (fun seg => key_shape false seg = true) k)
                row_keys_compare dec) as [r Hr].
    { apply Forall_impl with (2 := Hinv). intros p Hp.
      now apply sort_key_of_row_shape in Hp. }
    rewrite Hr. simpl. now eexists.
  - intros sorted H.
    destruct (rmap (decorate (sort_key_of_row py_repr sort_keys)) data)
      as [dec|e] eqn:Hdec; simpl in H; [|discriminate].
    destruct (sort_decorated row_key_lt dec) as [r|e] eqn:Hr; simpl in H;
      [|discriminate].
    inversion H; subst sorted. clear H.
    destruct (rmap_decorate _ _ _ Hdec) as [Hdata Hinv].
    pose proof (sort_decorated_perm row_key_lt dec r Hr) as Hperm.
    assert (Hinv' : Forall (fun p => sort_key_of_row py_repr sort_keys (snd p)
                                     = Ok (fst p)) r)
      by exact (Permutation_Forall Hperm Hinv).
    split; [|split].
    + rewrite <- Hdata. now apply Permutation_map.
    + apply sorted_rows_of_decorated; [exact Hinv'|].
      exact (sort_decorated_sorted row_key_lt row_key_lt_asym dec r Hr).
    + intros k. rewrite <- Hdata.
      rewrite !filter_has_key_decorated by assumption. f_equal.
      apply (sort_decorated_stable row_key_lt (fun k' => row_key_eqb k' k));
        [|exact Hr].
      intros a b Ha Hb. apply row_key_eqb_eq in Ha, Hb. subst.
      rewrite row_key_lt_irrefl. discriminate.
Qed.

End SortProofs.

Lemma natural_sort_is_stable_witness :
  let data := [[PStr "b"; PInt 1]; [PStr "a10"; PInt 2]; [PStr "B"; PInt 3];
               [PStr "a9"; PInt 4]; [PStr "b"; PInt 5]] in
  let sorted := [[PStr "a9"; PInt 4]; [PStr "a10"; PInt 2]; [PStr "b"; PInt 1];
                 [PStr "B"; PInt 3]; [PStr "b"; PInt 5]] in
  natural_sort_multiple_columns (fun _ => "") data [0] = Ok sorted /\
  Permutation data sorted /\
  Sorted (in_order (fun _ => "") [0]) sorted /\
  forall k, filter (has_key (fun _ => "") [0] k) sorted =
            filter (has_key (fun _ => "") [0] k) data.
Proof.
  split; [reflexivity|].
  apply (proj2 (natural_sort_is_stable (fun _ => "") _ [0])). reflexivity.
Defined.

(** C1 (amended).  For a string whose spans are plain (no text span
    between two runs of 0-9 is made of other digit characters only, no run
    has more than 4300 digits) the natural sort key is the sequence of the
    typed segments of its alternating segmentation (text, maximal digit
    run, text, ...): the integer value of every digit run and the lowercase
    text of every other span; every string has such a segmentation.
    Sorting "item2", "item10", "item1" by this key gives "item1", "item2",
    "item10", directly and as the cells of a sort column. *)
Theorem natural_sort_key_segments : forall py_repr : pyval -> string,
  (forall spans,
     alternating true spans = true ->
     plain_spans false spans = true ->
     natural_sort_key (join spans) = Ok (typed_segments false spans)) /\
  (forall s, exists spans, join spans = s /\ alternating true spans = true) /\
  natural_sort_key "Item10B-007x"
    = Ok [SStr "item"; SInt 10; SStr "b-"; SInt 7; SStr "x"] /\
  list_sort natural_sort_key
            (list_lt segment_eqb segment_lt)
            ["item2"; "item10"; "item1"]
    = Ok ["item1"; "item2"; "item10"] /\
  natural_sort_multiple_columns py_repr
      [[PStr "item2"]; [PStr "item10"]; [PStr "item1"]] [0]
    = Ok [[PStr "item1"]; [PStr "item2"]; [PStr "item10"]].
Proof.
  intros py_repr. split; [|split; [|split; [|split]]].
  - intros spans Hok Hplain. unfold natural_sort_key.
    rewrite (re_split_of_alternating spans Hok).
    exact (key_of_alternating true spans Hok Hplain).
  - intros s. exists (re_split_digits s).
    destruct (re_split_alternating s) as [Hok Hjoin]. now split.
  - vm_compute. reflexivity.
  - vm_compute. reflexivity.
  - vm_compute. reflexivity.
Qed.

Lemma natural_sort_key_segments_witness :
  natural_sort_key (join ["File"; "10"; "-V"; "007"; ""]) =
  Ok (typed_segments false ["File"; "10"; "-V"; "007"; ""]) /\
  typed_segments false ["File"; "10"; "-V"; "007"; ""] =
  [SStr "file"; SInt 10; SStr "-v"; SInt 7; SStr ""].
Proof.
  split; [|vm_compute; reflexivity].
  apply (proj1 (natural_sort_key_segments (fun _ => ""))); reflexivity.
Defined.

(** C1, as stated, fails.  The string made of "10" and a superscript two
    has the segmentation "", "10", superscript two, but the key is not the
    sequence of its typed segments: [str.isdigit] accepts the superscript,
    and [int] refuses it.  The string made of "v" and 4301 digits has the
    segmentation "v", the digits, "", and [int] refuses the run. *)
Lemma natural_sort_key_not_every_string :
  (alternating true [""; "10"; superscript_two] = true /\
   natural_sort_key (join [""; "10"; superscript_two])
     = Err (ValueError ("invalid literal for int() with base 10: '"
                        ++ superscript_two ++ "'")) /\
   natural_sort_key (join [""; "10"; superscript_two])
     <> Ok (typed_segments false [""; "10"; superscript_two])) /\
  (alternating true ["v"; digits_of_ones 4301; ""] = true /\
   natural_sort_key (join ["v"; digits_of_ones 4301; ""])
     = Err (ValueError
              "Exceeds the limit (4300 digits) for integer string conversion: value has 4301 digits; use sys.set_int_max_str_digits() to increase the limit")).
Proof.
  split; [split; [|split]|split].
  - vm_compute. reflexivity.
  - vm_compute. reflexivity.
  - vm_compute. discriminate.
  - vm_compute. reflexivity.
  - vm_compute. reflexivity.
Qed.

(** ** The table store: proofs *)

Lemma assoc_dict_set_same : forall {A : Type} k (v : A) d,
  assoc k (dict_set k v d) = Some v.
Proof.
  intros A k v. induction d as [|[k' v'] d IH]; simpl.
  - now rewrite String.eqb_refl.
  - destruct (String.eqb k k') eqn:E; simpl; rewrite E; [reflexivity | exact IH].
Qed.

Lemma assoc_dict_set_other : forall {A : Type} k k' (v : A) d,
  k' <> k -> assoc k' (dict_set k v d) = assoc k' d.
Proof.
  intros A k k' v d Hne. induction d as [|[k0 v0] d IH]; simpl.
  - apply String.eqb_neq in Hne. now rewrite Hne.
  - destruct (String.eqb k k0) eqn:E; simpl.
    + apply String.eqb_eq in E. subst k0.
      apply String.eqb_neq in Hne. now rewrite Hne.
    + now rewrite IH.
Qed.

Lemma assoc_app_new : forall {A : Type} k k' (v : A) d,
  assoc k d = None ->
  assoc k' (d ++ [(k, v)]) = if String.eqb k' k then Some v else assoc k' d.
Proof.
  intros A k k' v d. induction d as [|[k0 v0] d IH]; intros Hk; simpl in *.
  - reflexivity.
  - destruct (String.eqb k k0) eqn:E; [discriminate|].
    destruct (String.eqb k' k0) eqn:E'.
    + destruct (String.eqb_spec k' k) as [->|_]; [congruence | reflexivity].
    + now apply IH.
Qed.

Lemma map_fst_dict_set : forall {A : Type} k (v : A) d,
  assoc k d <> None -> map fst (dict_set k v d) = map fst d.
Proof.
  intros A k v. induction d as [|[k' v'] d IH]; intros H; simpl in *.
  - contradiction.
  - destruct (String.eqb k k'); simpl; [reflexivity | now rewrite IH].
Qed.

(** [_create_sheet] always returns, and the sheet then exists with what
    the store held for it. *)
Lemma create_sheet_ok : forall sheet_name w,
  _create_sheet sheet_name w = (Ok tt, snd (_create_sheet sheet_name w)).
Proof.
  intros sheet_name w. unfold _create_sheet, bind, get, ret, modify.
  destruct (assoc sheet_name (output_data w)); reflexivity.
Qed.

Lemma create_sheet_assoc : forall sheet_name w name,
  assoc name (output_data (snd (_create_sheet sheet_name w))) =
  match assoc name (output_data w) with
  | Some sh => Some sh
  | None => if String.eqb name sheet_name then Some (mk_sheet [] [] None)
            else None
  end.
Proof.
  intros sheet_name w name. unfold _create_sheet, bind, get, ret, modify.
  destruct (assoc sheet_name (output_data w)) eqn:E; simpl.
  - destruct (assoc name (output_data w)) eqn:E'; [reflexivity|].
    destruct (String.eqb_spec name sheet_name) as [->|_]; [congruence|reflexivity].
  - rewrite (assoc_app_new sheet_name name _ _ E).
    destruct (String.eqb_spec name sheet_name) as [->|_].
    + now rewrite E.
    + now destruct (assoc name (output_data w)).
Qed.

Lemma create_sheet_exists : forall sheet_name w,
  exists sh,
    assoc sheet_name (output_data (snd (_create_sheet sheet_name w))) = Some sh /\
    headers sh = headers_of w sheet_name /\
    data sh = rows_of w sheet_name.
Proof.
  intros sheet_name w. rewrite create_sheet_assoc.
  unfold headers_of, rows_of.
  destruct (assoc sheet_name (output_data w)) as [sh|].
  - now exists sh.
  - rewrite String.eqb_refl. now eexists.
Qed.

Lemma create_sheet_rows : forall sheet_name w name,
  rows_of (snd (_create_sheet sheet_name w)) name = rows_of w name.
Proof.
  intros sheet_name w name. unfold rows_of. rewrite create_sheet_assoc.
  destruct (assoc name (output_data w)); [reflexivity|].
  now destruct (String.eqb name sheet_name).
Qed.

Lemma create_sheet_headers : forall sheet_name w name,
  headers_of (snd (_create_sheet sheet_name w)) name = headers_of w name.
Proof.
  intros sheet_name w name. unfold headers_of. rewrite create_sheet_assoc.
  destruct (assoc name (output_data w)); [reflexivity|].
  now destruct (String.eqb name sheet_name).
Qed.

Lemma py_index_first : forall {A : Type} (x : A) l, py_index (x :: l) 0 = Ok x.
Proof.
  intros A x l. unfold py_index.
  replace (0 <? 0) with false by reflexivity.
  replace ((0 <=? 0) && (0 <? Z.of_nat (List.length (x :: l)))) with true.
  - reflexivity.
  - symmetry. apply andb_true_iff. split; [reflexivity|].
    apply Z.ltb_lt. simpl List.length. lia.
Qed.

(** C10.  [add_data] reads [data[0]] without a guard: an empty list or
    tuple ends in IndexError, and a set, which the type check accepts, ends
    in the TypeError of indexing a set.  The store is then the store after
    [_create_sheet]: no sheet has gained a row, and the error is not the
    column-count ValueError. *)
Theorem add_data_first_element_unguarded : forall sheet_name w,
  add_data sheet_name (PList []) w
    = (Err IndexError, snd (_create_sheet sheet_name w)) /\
  add_data sheet_name (PTuple []) w
    = (Err IndexError, snd (_create_sheet sheet_name w)) /\
  (forall l,
     is_list_tuple_set (PSet l) = true /\
     add_data sheet_name (PSet l) w
       = (Err (TypeError "'set' object is not subscriptable"),
          snd (_create_sheet sheet_name w))) /\
  (forall name,
     rows_of (snd (_create_sheet sheet_name w)) name = rows_of w name).
Proof.
  intros sheet_name w. unfold add_data, bind.
  rewrite create_sheet_ok. repeat split.
  apply create_sheet_rows.
Qed.

Lemma sheet_item_ok : forall sheet_name w sh,
  assoc sheet_name (output_data w) = Some sh ->
  sheet_item sheet_name w = (Ok sh, w).
Proof.
  intros sheet_name w sh H. unfold sheet_item, bind, get, ret. now rewrite H.
Qed.

Lemma update_sheet_ok : forall sheet_name f w sh,
  assoc sheet_name (output_data w) = Some sh ->
  update_sheet sheet_name f w =
  (Ok tt, set_output_data (dict_set sheet_name (f sh) (output_data w)) w).
Proof.
  intros sheet_name f w sh H. unfold update_sheet, bind.
  rewrite (sheet_item_ok _ _ _ H). reflexivity.
Qed.

Lemma py_len_iter : forall v n,
  py_len v = Ok n -> exists items, py_iter v = Ok items.
Proof.
  intros [| | | | | | |] n H; try discriminate; simpl; now eexists.
Qed.

(** The batch loop appends the rows in front of the first row of the wrong
    length and stops at that row. *)
Lemma add_batch_stops : forall sheet_name bad post n pre w sh,
  assoc sheet_name (output_data w) = Some sh ->
  Forall (fun r => py_len r = Ok (List.length (headers sh))) pre ->
  py_len bad = Ok n -> n <> List.length (headers sh) ->
  exists w' sh',
    add_batch sheet_name (pre ++ bad :: post) w
      = (Err (ValueError "Invalid Data Found, Column Count Mismatch"), w') /\
    assoc sheet_name (output_data w') = Some sh' /\
    headers sh' = headers sh /\
    data sh' = (data sh ++ map normalized_row pre)%list.
Proof.
  intros sheet_name bad post n pre.
  induction pre as [|r pre IH]; intros w sh Hsh Hpre Hbad Hn.
  - exists w, sh. simpl. unfold bind, lift. rewrite Hbad.
    rewrite (sheet_item_ok _ _ _ Hsh).
    apply Nat.eqb_neq in Hn. rewrite Hn. simpl.
    rewrite app_nil_r. auto.
  - inversion Hpre as [|? ? Hr Hpre']; subst.
    destruct (py_len_iter _ _ Hr) as [items Hitems].
    set (sh2 := set_data (data sh ++ [map blank_none items]) sh).
    set (w2 := set_output_data (dict_set sheet_name sh2 (output_data w)) w).
    assert (Hsh2 : assoc sheet_name (output_data w2) = Some sh2)
      by apply assoc_dict_set_same.
    destruct (IH w2 sh2 Hsh2 Hpre' Hbad Hn) as (w' & sh' & Hrun & Hsh' & Hh & Hd).
    exists w', sh'. split; [|split; [exact Hsh' | split]].
    + cbn [app add_batch]. unfold bind at 1. unfold lift at 1. rewrite Hr.
      unfold bind at 1. rewrite (sheet_item_ok _ _ _ Hsh).
      rewrite Nat.eqb_refl. cbn [negb].
      unfold bind at 1. unfold lift at 1. rewrite Hitems.
      unfold bind at 1. unfold append_row.
      rewrite (update_sheet_ok _ _ _ _ Hsh). exact Hrun.
    + exact Hh.
    + rewrite Hd. unfold sh2. simpl.
      unfold normalized_row at 2. rewrite Hitems.
      now rewrite <- app_assoc.
Qed.

(** C3.  A batch-form call (the first element of [data] is a list, tuple or
    set) whose row [bad] has a length different from the header count,
    after rows [pre] of the right length, fails with the column-count
    ValueError; the rows of [pre] have been appended by then and stay in
    the sheet. *)
Theorem add_data_batch_not_atomic :
  forall sheet_name w data pre bad post n,
    data = PList (pre ++ bad :: post) \/ data = PTuple (pre ++ bad :: post) ->
    is_list_tuple_set (hd PNone (pre ++ bad :: post)) = true ->
    Forall (fun r => py_len r = Ok (List.length (headers_of w sheet_name))) pre ->
    py_len bad = Ok n ->
    n <> List.length (headers_of w sheet_name) ->
    exists w',
      add_data sheet_name data w
        = (Err (ValueError "Invalid Data Found, Column Count Mismatch"), w') /\
      rows_of w' sheet_name
        = (rows_of w sheet_name ++ map normalized_row pre)%list /\
      headers_of w' sheet_name = headers_of w sheet_name.
Proof.
  intros sheet_name w data pre bad post n Hdata Hfirst Hpre Hbad Hn.
  destruct (create_sheet_exists sheet_name w) as (sh & Hsh & Hh & Hd).
  rewrite <- Hh in Hpre, Hn.
  destruct (add_batch_stops sheet_name bad post n pre _ sh Hsh Hpre Hbad Hn)
    as (w' & sh' & Hrun & Hsh' & Hh' & Hd').
  exists w'. split; [|split].
  - unfold add_data. unfold bind at 1. rewrite create_sheet_ok.
    destruct (pre ++ bad :: post)%list as [|first rows] eqn:Erows.
    { destruct pre; discriminate. }
    simpl in Hfirst.
    destruct Hdata as [-> | ->]; cbn [is_list_tuple_set negb];
      unfold bind at 1; unfold lift at 1; cbn [py_getitem];
      rewrite py_index_first, Hfirst;
      unfold bind at 1; unfold lift at 1; cbn [py_iter]; exact Hrun.
  - unfold rows_of at 1. rewrite Hsh', Hd', Hd. reflexivity.
  - unfold headers_of at 1. rewrite Hsh', Hh', Hh. reflexivity.
Qed.

Lemma add_data_batch_not_atomic_witness :
  let w := snd (add_headers "S" (PList [PStr "A"; PStr "B"]) new_wrapper) in
  exists w',
    add_data "S" (PList [PList [PStr "a"; PNone]; PTuple [PInt 1; PInt 2];
                         PList [PStr "x"]; PList [PStr "c"; PStr "d"]]) w
      = (Err (ValueError "Invalid Data Found, Column Count Mismatch"), w') /\
    rows_of w' "S"
      = (rows_of w "S" ++
         map normalized_row [PList [PStr "a"; PNone]; PTuple [PInt 1; PInt 2]])%list /\
    headers_of w' "S" = headers_of w "S".
Proof.
  apply (add_data_batch_not_atomic "S" _ _
           [PList [PStr "a"; PNone]; PTuple [PInt 1; PInt 2]]
           (PList [PStr "x"]) [PList [PStr "c"; PStr "d"]] 1%nat).
  - left. reflexivity.
  - reflexivity.
  - repeat constructor.
  - reflexivity.
  - vm_compute. discriminate.
Defined.

Lemma existsb_py_eqb_str : forall x seen,
  existsb (py_eqb (PStr x)) (map PStr seen) = true <-> In x seen.
Proof.
  intros x. induction seen as [|y seen IH]; simpl.
  - split; [discriminate | contradiction].
  - rewrite orb_true_iff, IH, String.eqb_eq. split; intros [H|H]; auto.
Qed.

(** [set] of a list of strings: it has as many elements as the list exactly
    when no string is repeated. *)
Lemma py_set_strings : forall hs seen,
  exists r,
    py_set (map PStr seen) (map PStr hs) = Ok r /\
    (List.length r <= List.length seen + List.length hs)%nat /\
    (List.length r = (List.length seen + List.length hs)%nat <->
     NoDup hs /\ forall x, In x hs -> ~ In x seen).
Proof.
  induction hs as [|x hs IH]; intros seen.
  - exists (rev (map PStr seen)). simpl.
    rewrite length_rev, length_map, Nat.add_0_r.
    repeat split; auto using NoDup_nil.
  - cbn [map py_set hashable].
    destruct (existsb (py_eqb (PStr x)) (map PStr seen)) eqn:E.
    + apply existsb_py_eqb_str in E.
      destruct (IH seen) as (r & Hr & Hle & _).
      exists r. split; [exact Hr|]. simpl. split; [lia|].
      split; [lia|]. intros [_ H]. exfalso. apply (H x); simpl; auto.
    + assert (Hx : ~ In x seen).
      { intros Hin. apply existsb_py_eqb_str in Hin. congruence. }
      destruct (IH (x :: seen)) as (r & Hr & Hle & Hiff).
      exists r. split; [exact Hr|]. simpl in *. split; [lia|].
      rewrite Nat.add_succ_r. rewrite Hiff. split.
      * intros [Hnd Hdis]. split.
        -- constructor; [|exact Hnd]. intros Hin. apply (Hdis x Hin). now left.
        -- intros y [->|Hy]; [exact Hx|].
           intros Hin. apply (Hdis y Hy). now right.
      * intros [Hnd Hdis]. inversion Hnd as [|? ? Hnotin Hnd']; subst.
        split; [exact Hnd'|]. intros y Hy [->|Hin]; [contradiction|].
        apply (Hdis y); auto.
Qed.

(** C6.  When the headers handed to [add_headers] are strings and one of
    them occurs twice (strings that differ, if only in case, are different
    headers), the call fails with the duplicate-header ValueError and the
    headers of every sheet are what they were: empty for a sheet the call
    has just created, the earlier list otherwise.  Without a repeat the
    call stores the list. *)
Theorem add_headers_rejects_duplicates : forall sheet_name w data hs,
  py_iter data = Ok (map PStr hs) ->
  (~ NoDup hs ->
   add_headers sheet_name data w
     = (Err (ValueError "Duplicate Header Found."),
        snd (_create_sheet sheet_name w)) /\
   forall name,
     headers_of (snd (_create_sheet sheet_name w)) name = headers_of w name) /\
  (NoDup hs ->
   exists w',
     add_headers sheet_name data w = (Ok tt, w') /\
     headers_of w' sheet_name = map PStr hs).
Proof.
  intros sheet_name w data hs Hiter.
  destruct (py_set_strings hs []) as (r & Hr & _ & Hiff).
  simpl in Hr, Hiff.
  assert (Hrun :
    add_headers sheet_name data w =
    (if negb (Nat.eqb (List.length (map PStr hs)) (List.length r))
     then raise (ValueError "Duplicate Header Found.")
     else update_sheet sheet_name (set_headers (map PStr hs)))
      (snd (_create_sheet sheet_name w))).
  { unfold add_headers. unfold bind at 1. rewrite create_sheet_ok.
    unfold bind at 1. unfold lift at 1. rewrite Hiter.
    unfold bind at 1. unfold lift at 1. rewrite Hr. reflexivity. }
  rewrite length_map in Hrun.
  split.
  - intros Hdup. split; [|apply create_sheet_headers].
    rewrite Hrun.
    destruct (Nat.eqb_spec (List.length hs) (List.length r)) as [E|_];
      [|reflexivity].
    exfalso. apply Hdup. apply Hiff; auto.
  - intros Hnd.
    destruct (create_sheet_exists sheet_name w) as (sh & Hsh & _).
    rewrite Hrun.
    destruct (Nat.eqb_spec (List.length hs) (List.length r)) as [_|E].
    + cbn [negb]. rewrite (update_sheet_ok _ _ _ _ Hsh).
      eexists. split; [reflexivity|].
      unfold headers_of. simpl. now rewrite assoc_dict_set_same.
    + exfalso. apply E. symmetry. apply Hiff. split; [exact Hnd | auto].
Qed.

Lemma add_headers_rejects_duplicates_witness :
  (add_headers "S" (PList [PStr "A"; PStr "B"; PStr "A"]) new_wrapper
     = (Err (ValueError "Duplicate Header Found."),
        snd (_create_sheet "S" new_wrapper)) /\
   forall name,
     headers_of (snd (_create_sheet "S" new_wrapper)) name
     = headers_of new_wrapper name) /\
  exists w',
    add_headers "S" (PTuple [PStr "A"; PStr "B"; PStr "a"]) new_wrapper
      = (Ok tt, w') /\
    headers_of w' "S" = map PStr ["A"; "B"; "a"].
Proof.
  split.
  - apply (proj1 (add_headers_rejects_duplicates "S" new_wrapper
                    (PList [PStr "A"; PStr "B"; PStr "A"]) ["A"; "B"; "A"]
                    eq_refl)).
    intros H. inversion H as [|? ? Hin _]; subst. apply Hin. simpl. auto.
  - apply (proj2 (add_headers_rejects_duplicates "S" new_wrapper
                    (PTuple [PStr "A"; PStr "B"; PStr "a"]) ["A"; "B"; "a"]
                    eq_refl)).
    repeat constructor; simpl; intuition discriminate.
Defined.

Lemma merge_rows_ok : forall header_count rows,
  Forall (fun row => List.length row = header_count) rows ->
  merge_rows header_count rows = Ok rows.
Proof.
  intros header_count. induction rows as [|row rows IH]; intros H; simpl.
  - reflexivity.
  - inversion H as [|? ? Hrow Hrows]; subst.
    rewrite Nat.eqb_refl. simpl. now rewrite (IH Hrows).
Qed.

Lemma merge_rows_mismatch : forall header_count rows,
  Exists (fun row => List.length row <> header_count) rows ->
  merge_rows header_count rows
    = Err (SystemExit "Invalid Data Found, Column Count Mismatch").
Proof.
  intros header_count. induction rows as [|row rows IH]; intros H; simpl.
  - inversion H.
  - destruct (Nat.eqb_spec header_count (List.length row)) as [E|E]; simpl.
    + inversion H as [? ? Hrow|? ? Hrows]; subst; [congruence|].
      now rewrite (IH Hrows).
    + reflexivity.
Qed.

(** C5.  For a sheet of the store, [_merge_data] fails with the no-headers
    SystemExit when the header list is empty; with headers, it fails with
    the column-count SystemExit when some stored row has another length,
    and otherwise returns the header row followed by the data rows in
    stored order.  The store is not changed. *)
Theorem merge_data_validates : forall sheet_name w sh,
  assoc sheet_name (output_data w) = Some sh ->
  (headers sh = [] ->
   _merge_data sheet_name w
     = (Err (SystemExit ("No Headers Found: " ++ sheet_name)), w)) /\
  (headers sh <> [] ->
   Exists (fun row => List.length row <> List.length (headers sh)) (data sh) ->
   _merge_data sheet_name w
     = (Err (SystemExit "Invalid Data Found, Column Count Mismatch"), w)) /\
  (headers sh <> [] ->
   Forall (fun row => List.length row = List.length (headers sh)) (data sh) ->
   _merge_data sheet_name w = (Ok (headers sh :: data sh), w)).
Proof.
  intros sheet_name w sh Hsh.
  unfold _merge_data, bind, get, lift, ret, raise. rewrite Hsh.
  split; [|split].
  - intros ->. reflexivity.
  - intros Hne Hex.
    destruct (Nat.eqb_spec (List.length (headers sh)) 0) as [E|_].
    + destruct (headers sh); [contradiction | discriminate].
    + now rewrite (merge_rows_mismatch _ _ Hex).
  - intros Hne Hall.
    destruct (Nat.eqb_spec (List.length (headers sh)) 0) as [E|_].
    + destruct (headers sh); [contradiction | discriminate].
    + now rewrite (merge_rows_ok _ _ Hall).
Qed.

Lemma merge_data_validates_witness :
  let w := snd (add_data "S" (PList [PList [PStr "a"; PNone];
                                     PList [PInt 1; PInt 2]])
                  (snd (add_headers "S" (PList [PStr "A"; PStr "B"])
                          new_wrapper))) in
  _merge_data "S" w
    = (Ok [[PStr "A"; PStr "B"]; [PStr "a"; PStr ""]; [PInt 1; PInt 2]], w).
Proof.
  intros w.
  apply (proj2 (proj2 (merge_data_validates "S" w
           (mk_sheet [PStr "A"; PStr "B"]
                     [[PStr "a"; PStr ""]; [PInt 1; PInt 2]] None)
           eq_refl))).
  - discriminate.
  - repeat constructor.
Defined.

(** ** Table rules: proofs *)

Lemma styles_of_set_stdout : forall o w name,
  styles_of (set_stdout o w) name = styles_of w name.
Proof. reflexivity. Qed.











(** A rule whose [bg_color] is true but not a string is refused before the
    engine is reached: [bg_color.lstrip] raises, the rules after it are not
    read and the ones before it stay recorded.  A colour that is no hex
    value is refused by the engine's [PatternFill]. *)
Example conditional_format_color_not_a_string :
  let batch :=
    PList [PDict [("formula", PList [PStr "$A2 = 1"]); ("bg_color", PStr "FF0000")];
           PDict [("formula", PList [PStr "$A2 = 2"]); ("bg_color", PInt 5)];
           PDict [("formula", PList [PStr "$A2 = 3"]); ("bg_color", PStr "00FF00")]] in
  let named :=
    PList [PDict [("formula", PList [PStr "$A2 = 1"]); ("bg_color", PStr "red")]] in
  fst (conditional_format "S" batch new_wrapper) = Err AttributeError /\
  styles_of (snd (conditional_format "S" batch new_wrapper)) "S"
    = [mk_Rule "expression" "FF0000" (PList [PStr "$A2 = 1"]) false] /\
  fst (conditional_format "S" named new_wrapper)
    = Err (ValueError "Colors must be aRGB hex values").
Proof. repeat split; reflexivity. Qed.

(** ** Freezing panes: proofs *)

Lemma py_eqb_str : forall v name, py_eqb v (PStr name) = true <-> v = PStr name.
Proof.
  intros v name. destruct v; simpl; split; intros H; try discriminate.
  - apply String.eqb_eq in H. now subst.
  - inversion H. apply String.eqb_refl.
Qed.

Lemma find_header_none : forall name cells col_idx,
  Forall (fun v => v <> PStr name) cells ->
  find_header name col_idx cells = None.
Proof.
  intros name. induction cells as [|v cells IH]; intros col_idx H; simpl.
  - reflexivity.
  - inversion H as [|? ? Hv Hcells]; subst.
    destruct (py_eqb v (PStr name)) eqn:E.
    + apply py_eqb_str in E. contradiction.
    + now apply IH.
Qed.

Lemma find_header_first : forall name before after col_idx,
  Forall (fun v => v <> PStr name) before ->
  find_header name col_idx (before ++ PStr name :: after)
    = Some (col_idx + Z.of_nat (List.length before)).
Proof.
  intros name. induction before as [|v before IH]; intros after col_idx H.
  - simpl. rewrite String.eqb_refl. f_equal. lia.
  - inversion H as [|? ? Hv Hbefore]; subst. cbn [app find_header].
    destruct (py_eqb v (PStr name)) eqn:E.
    + apply py_eqb_str in E. contradiction.
    + rewrite (IH after (col_idx + 1) Hbefore). f_equal.
      cbn [List.length]. lia.
Qed.

(** Only column 1 is called "A". *)
Lemma col_to_excel_A : forall col, _col_to_excel col = Some "A" -> col = 1.
Proof.
  intros col H.
  destruct (Z_lt_le_dec col 1) as [Hlt|Hge].
  - destruct (Z.eq_dec col 0) as [->|Hne]; [discriminate|].
    unfold _col_to_excel in H.
    replace (Z.to_nat col) with O in H by lia. simpl in H.
    destruct (Z.eqb_spec col 0); [contradiction | discriminate].
  - destruct (col_to_excel_returns col Hge) as (s & Hs & _ & Hv).
    rewrite H in Hs. inversion Hs; subst s. now vm_compute in Hv.
Qed.

Lemma coordinate_not_A1 : forall letters,
  letters <> "A" -> String.eqb (letters ++ "1") "A1" = false.
Proof.
  intros letters H. apply String.eqb_neq. intros E. apply H.
  destruct letters as [|a [|b s]]; simpl in E.
  - discriminate.
  - now inversion E.
  - inversion E as [[Ha Hb]]. destruct s; discriminate.
Qed.

(** The empty cells that reading row 1 creates do not hold the name. *)
Lemma find_header_pad : forall name n cells col_idx,
  find_header name col_idx (pad_none n cells) = find_header name col_idx cells.
Proof.
  intros name. induction n as [|n IH]; intros cells col_idx; [reflexivity|].
  destruct cells as [|v cells]; cbn [pad_none find_header].
  - cbn [py_eqb]. rewrite IH. reflexivity.
  - now rewrite IH.
Qed.

(** C4, as the code has it.  For a sheet with a configured freeze header,
    [_freeze_columns] looks for the first cell of the header row whose
    value equals the name.  Without such a cell it raises the
    invalid-header RuntimeError.  With the cell in column [column_number]
    it sets [freeze_panes] to the cell of row 1 in column
    [column_number + 1]: the cell to the right of the header cell, in the
    header row itself. *)
Theorem freeze_columns_right_of_header : forall w ws name hdr rest,
  assoc (title ws) (frozen_columns w) = Some name ->
  ws_rows ws = hdr :: rest ->
  hdr <> [] ->
  (Forall (fun v => v <> PStr name) hdr ->
   _freeze_columns ws w = (Err (RuntimeError "Invalid Header"), w)) /\
  (forall before after,
     hdr = (before ++ PStr name :: after)%list ->
     Forall (fun v => v <> PStr name) before ->
     let column_number := Z.of_nat (List.length before) + 1 in
     exists ws',
       _freeze_columns ws w = (Ok ws', w) /\
       freeze_panes ws' <> None /\
       freeze_panes ws' = cell_coordinate (column_number + 1) 1 /\
       title ws' = title ws).
Proof.
  intros w ws name hdr rest Hname Hrows Hne.
  split.
  - intros Hnone. unfold _freeze_columns, bind, get, raise.
    rewrite Hname, Hrows, find_header_pad.
    now rewrite (find_header_none _ _ _ Hnone).
  - intros before after -> Hbefore column_number.
    destruct (col_to_excel_returns (column_number + 1)) as (letters & Hl & _ & _).
    { unfold column_number. lia. }
    assert (HA : letters <> "A").
    { intros ->. apply col_to_excel_A in Hl. unfold column_number in Hl. lia. }
    eexists. split; [|split; [|split]].
    + unfold _freeze_columns, bind, get, raise, ret, lift_loop.
      rewrite Hname, Hrows, find_header_pad.
      rewrite (find_header_first _ _ _ _ Hbefore).
      replace (1 + Z.of_nat (List.length before)) with column_number
        by (unfold column_number; lia).
      rewrite Hl. reflexivity.
    + simpl. now rewrite (coordinate_not_A1 _ HA).
    + simpl. rewrite (coordinate_not_A1 _ HA).
      unfold cell_coordinate. now rewrite Hl.
    + reflexivity.
Qed.

Lemma freeze_columns_right_of_header_witness :
  let w := snd (freeze_column_after "Instances" "Instance ID" new_wrapper) in
  let ws := mk_worksheet "Instances"
              [[PStr "Region"; PStr "Instance ID"; PStr "State"];
               [PStr "us-east-1"; PStr "i-1"; PStr "running"]]
              [] [] [] None in
  exists ws',
    _freeze_columns ws w = (Ok ws', w) /\
    freeze_panes ws' <> None /\
    freeze_panes ws' = cell_coordinate (Z.of_nat 1 + 1 + 1) 1 /\
    title ws' = title ws.
Proof.
  intros w ws.
  apply (proj2 (freeze_columns_right_of_header w ws "Instance ID"
                  [PStr "Region"; PStr "Instance ID"; PStr "State"]
                  [[PStr "us-east-1"; PStr "i-1"; PStr "running"]]
                  eq_refl eq_refl ltac:(discriminate))
               [PStr "Region"] [PStr "State"] eq_refl).
  repeat constructor. discriminate.
Defined.


(** ** The store stays a dict *)

Lemma preserves_bind : forall {A B : Type} P (m : M A) (k : A -> M B),
  preserves P m -> (forall a, preserves P (k a)) -> preserves P (bind m k).
Proof.
  intros A B P m k Hm Hk w Hw. unfold bind.
  specialize (Hm w Hw). destruct (m w) as [[a|e] w1]; simpl in *.
  - now apply Hk.
  - exact Hm.
Qed.

Lemma preserves_ret : forall {A : Type} P (a : A), preserves P (ret a).
Proof. intros A P a w Hw. exact Hw. Qed.

Lemma preserves_raise : forall {A : Type} P e, preserves P (@raise A e).
Proof. intros A P e w Hw. exact Hw. Qed.

Lemma preserves_lift : forall {A : Type} P (r : result A), preserves P (lift r).
Proof. intros A P r w Hw. exact Hw. Qed.

Lemma preserves_get : forall P, preserves P get.
Proof. intros P w Hw. exact Hw. Qed.

Lemma preserves_modify : forall P f,
  (forall w, P w -> P (f w)) -> preserves P (modify f).
Proof. intros P f Hf w Hw. now apply Hf. Qed.

Create HintDb store.

#[local] Hint Resolve preserves_ret preserves_raise preserves_lift
  preserves_get : store.

Ltac keeps :=
  repeat first
    [ solve [auto with store]
    | apply preserves_bind; [|intros ?]
    | match goal with
      | |- preserves _ (if ?c then _ else _) => destruct c
      | |- preserves _ (match ?x with _ => _ end) => destruct x
      end ].

Lemma assoc_none_notin : forall {A : Type} k (d : list (string * A)),
  assoc k d = None -> ~ In k (map fst d).
Proof.
  intros A k. induction d as [|[k' v] d IH]; intros H; simpl in *.
  - tauto.
  - destruct (String.eqb_spec k k') as [->|Hne]; [discriminate|].
    intros [E|Hin]; [congruence | now apply IH].
Qed.

Lemma NoDup_snoc : forall {A : Type} (x : A) l,
  NoDup l -> ~ In x l -> NoDup (l ++ [x]).
Proof.
  intros A x l Hnd Hx. apply NoDup_rev in Hnd.
  rewrite <- (rev_involutive (l ++ [x])). apply NoDup_rev.
  rewrite rev_app_distr. simpl. constructor; [|exact Hnd].
  now rewrite <- in_rev.
Qed.

Lemma dict_set_keys : forall {A : Type} k (v : A) d,
  map fst (dict_set k v d) =
  match assoc k d with
  | Some _ => map fst d
  | None => (map fst d ++ [k])%list
  end.
Proof.
  intros A k v. induction d as [|[k' v'] d IH]; simpl.
  - reflexivity.
  - destruct (String.eqb k k'); simpl; [reflexivity|].
    rewrite IH. now destruct (assoc k d).
Qed.

Lemma dict_set_distinct : forall {A : Type} k (v : A) d,
  NoDup (map fst d) -> NoDup (map fst (dict_set k v d)).
Proof.
  intros A k v d H. rewrite dict_set_keys.
  destruct (assoc k d) eqn:E; [exact H|].
  apply NoDup_snoc; [exact H | now apply assoc_none_notin].
Qed.

Lemma new_wrapper_distinct : keys_distinct new_wrapper.
Proof. constructor. Qed.

Lemma create_sheet_distinct : forall sheet_name,
  preserves keys_distinct (_create_sheet sheet_name).
Proof.
  intros sheet_name w Hw. unfold _create_sheet, bind, get, ret, modify.
  destruct (assoc sheet_name (output_data w)) eqn:E; simpl; [exact Hw|].
  unfold keys_distinct. simpl. rewrite map_app. simpl.
  apply NoDup_snoc; [exact Hw | now apply assoc_none_notin].
Qed.

Lemma update_sheet_distinct : forall sheet_name f,
  preserves keys_distinct (update_sheet sheet_name f).
Proof.
  intros sheet_name f. unfold update_sheet, sheet_item. keeps.
  apply preserves_modify. intros w Hw. now apply dict_set_distinct.
Qed.

Lemma sheet_item_distinct : forall sheet_name,
  preserves keys_distinct (sheet_item sheet_name).
Proof. intros sheet_name. unfold sheet_item. keeps. Qed.

#[local] Hint Resolve create_sheet_distinct update_sheet_distinct
  sheet_item_distinct : store.

Lemma add_headers_distinct : forall sheet_name data,
  preserves keys_distinct (add_headers sheet_name data).
Proof. intros sheet_name data. unfold add_headers. keeps. Qed.

Lemma add_batch_distinct : forall sheet_name rows,
  preserves keys_distinct (add_batch sheet_name rows).
Proof.
  intros sheet_name. induction rows as [|r rows IH]; cbn [add_batch].
  - auto with store.
  - pose proof IH. unfold append_row. keeps.
Qed.

#[local] Hint Resolve add_batch_distinct : store.

Lemma add_data_distinct : forall sheet_name data,
  preserves keys_distinct (add_data sheet_name data).
Proof.
  intros sheet_name data. unfold add_data, append_row. keeps.
Qed.

(** ** Export: proofs *)

Lemma bind_ok : forall {A B : Type} (m : M A) (k : A -> M B) w b w',
  bind m k w = (Ok b, w') ->
  exists a w1, m w = (Ok a, w1) /\ k a w1 = (Ok b, w').
Proof.
  intros A B m k w b w' H. unfold bind in H.
  destruct (m w) as [[a|e] w1]; [|discriminate]. now exists a, w1.
Qed.

Lemma lift_ok : forall {A : Type} (r : result A) w a w',
  lift r w = (Ok a, w') -> r = Ok a /\ w' = w.
Proof. intros A r w a w' H. unfold lift in H. now inversion H. Qed.

Lemma sheet_item_inv : forall sheet_name w sh w',
  sheet_item sheet_name w = (Ok sh, w') ->
  assoc sheet_name (output_data w) = Some sh /\ w' = w.
Proof.
  intros sheet_name w sh w' H. unfold sheet_item, bind, get, ret, raise in H.
  destruct (assoc sheet_name (output_data w)); inversion H; auto.
Qed.

Lemma merge_data_state : forall sheet_name w r w',
  _merge_data sheet_name w = (r, w') -> w' = w.
Proof.
  intros sheet_name w r w' H.
  unfold _merge_data, bind, get, ret, raise, lift in H.
  destruct (assoc sheet_name (output_data w)) as [sh|]; [|now inversion H].
  destruct (Nat.eqb (List.length (headers sh)) 0); [now inversion H|].
  destruct (merge_rows (List.length (headers sh)) (data sh)); now inversion H.
Qed.

Lemma freeze_columns_inv : forall ws w ws' w',
  _freeze_columns ws w = (Ok ws', w') -> w' = w /\ title ws' = title ws.
Proof.
  intros ws w ws' w' H.
  unfold _freeze_columns, bind, get, ret, raise, lift_loop in H.
  destruct (assoc (title ws) (frozen_columns w)) as [name|];
    [|inversion H; auto].
  destruct (ws_rows ws) as [|hdr rest]; [discriminate|].
  destruct (find_header name 1 _) as [c|]; [|discriminate].
  destruct (_col_to_excel (c + 1)); inversion H; auto.
Qed.

Lemma title_fold_append : forall merged ws,
  title (fold_left (fun ws item => ws_append item ws) merged ws) = title ws.
Proof.
  induction merged as [|item merged IH]; intros ws; simpl; [reflexivity|].
  now rewrite IH.
Qed.

Lemma title_fold_formats : forall range styles ws,
  title (fold_left (fun ws style => add_conditional_formatting range style ws)
                   styles ws) = title ws.
Proof.
  intros range. induction styles as [|style styles IH]; intros ws; simpl;
    [reflexivity|]. now rewrite IH.
Qed.

(** What the engine builds is the record of the arguments. *)
Lemma expression_rule_ok : forall color formula r,
  expression_rule color formula = Ok r ->
  r = mk_Rule "expression" color formula false.
Proof.
  intros color formula r H. unfold expression_rule in H.
  destruct (aRGB color); [|discriminate].
  destruct formula; try discriminate;
    destruct (forallb str_returns l); try discriminate; now injection H as <-.
Qed.

Lemma title_apply_cell_rules : forall hdrs max_row header cell_rules ws ws',
  apply_cell_rules hdrs max_row header cell_rules ws = Ok ws' ->
  title ws' = title ws.
Proof.
  intros hdrs max_row header.
  induction cell_rules as [|rule cell_rules IH]; intros ws ws' H;
    cbn [apply_cell_rules] in H.
  - now inversion H.
  - destruct (list_index (PStr header) hdrs) as [i|]; simpl in H; [|discriminate].
    destruct (col_letters (i + 1)) as [c|]; simpl in H; [|discriminate].
    destruct (expression_rule _ _) as [r|]; simpl in H; [|discriminate].
    now rewrite (IH _ _ H).
Qed.

Lemma title_apply_cell_styles : forall hdrs max_row styles ws ws',
  apply_cell_styles hdrs max_row styles ws = Ok ws' -> title ws' = title ws.
Proof.
  intros hdrs max_row.
  induction styles as [|[header cell_rules] styles IH]; intros ws ws' H;
    simpl in H.
  - now inversion H.
  - destruct (apply_cell_rules hdrs max_row header cell_rules ws) as [ws1|] eqn:E;
      simpl in H; [|discriminate].
    rewrite (IH _ _ H). exact (title_apply_cell_rules _ _ _ _ _ _ E).
Qed.

Section ExportProofs.

Variable py_repr : pyval -> string.

(** The sort step of [export_sheet] touches the rows of its sheet only. *)
Lemma sort_step_inv : forall sheet_name (sk : option (list Z)) rows w w1,
  match sk with
  | Some (k :: keys) =>
      do sorted <- lift (natural_sort_multiple_columns py_repr rows
                                                       (k :: keys)) ;;
      update_sheet sheet_name (set_data sorted)
  | _ => ret tt
  end w = (Ok tt, w1) ->
  stdout w1 = stdout w /\
  forall name, name <> sheet_name ->
               assoc name (output_data w1) = assoc name (output_data w).
Proof.
  intros sheet_name sk rows w w1 H.
  destruct sk as [[|k keys]|]; try (inversion H; auto; fail).
  apply bind_ok in H as (sorted & w2 & H1 & H2).
  apply lift_ok in H1 as [_ ->].
  unfold update_sheet in H2. apply bind_ok in H2 as (sh' & w3 & H3 & H4).
  apply sheet_item_inv in H3 as [_ ->].
  unfold modify in H4. inversion H4; subst w1. simpl. split; [reflexivity|].
  intros name Hne. now apply assoc_dict_set_other.
Qed.

(** One turn of the export loop: a sheet without rows adds nothing to the
    workbook and prints its message, a sheet with rows adds one worksheet
    that carries its name; no other sheet of the store is touched. *)
Lemma export_sheet_spec : forall wb sheet_name w wb1 w1,
  export_sheet py_repr wb sheet_name w = (Ok wb1, w1) ->
  map title wb1
    = (map title wb ++ if has_data w sheet_name then [sheet_name] else [])%list /\
  (forall name, name <> sheet_name ->
                assoc name (output_data w1) = assoc name (output_data w)) /\
  stdout w1
    = (stdout w ++ if has_data w sheet_name then []
                   else [(sheet_name ++ ": No Data Found")%string])%list.
Proof.
  intros wb sheet_name w wb1 w1 H. unfold export_sheet in H.
  apply bind_ok in H as (sh & w0 & Hsh & H).
  apply sheet_item_inv in Hsh as [Hsh ->].
  unfold has_data, rows_of. rewrite Hsh.
  destruct (data sh) as [|row rows] eqn:Hdata.
  - apply bind_ok in H as ([] & w2 & Hp & H).
    unfold print, modify in Hp. inversion Hp; subst w2.
    unfold ret in H. inversion H; subst. simpl.
    rewrite app_nil_r. auto.
  - cbv zeta in H.
    apply bind_ok in H as ([] & ws & Hsort & H).
    apply sort_step_inv in Hsort as [Hout Hother].
    apply bind_ok in H as (merged & w2 & Hm & H).
    pose proof (merge_data_state _ _ _ _ Hm) as ->.
    apply bind_ok in H as (max_col & w2 & Hc & H).
    apply lift_ok in Hc as [_ ->].
    apply bind_ok in H as (w3 & w2 & Hg & H).
    unfold get in Hg. inversion Hg; subst w3 w2. clear Hg.
    apply bind_ok in H as (sh' & w2 & Hsh' & H).
    apply sheet_item_inv in Hsh' as [_ ->].
    apply bind_ok in H as (ws1 & w2 & Hs & H).
    apply lift_ok in Hs as [Hs ->].
    apply bind_ok in H as (ws2 & w2 & Hf & H).
    apply freeze_columns_inv in Hf as [-> Ht].
    unfold ret in H. inversion H; subst wb1 w1. clear H.
    split; [|split].
    + rewrite map_app. simpl. f_equal. f_equal. rewrite Ht.
      unfold _autosize_columns. cbn [title].
      rewrite title_fold_formats.
      rewrite (title_apply_cell_styles _ _ _ _ _ Hs).
      cbn [add_table title]. now rewrite title_fold_append.
    + exact Hother.
    + rewrite Hout. now rewrite app_nil_r.
Qed.

Lemma has_data_ext : forall w w1 name,
  assoc name (output_data w1) = assoc name (output_data w) ->
  has_data w1 name = has_data w name.
Proof. intros w w1 name H. unfold has_data, rows_of. now rewrite H. Qed.

Lemma export_sheets_spec : forall names wb w wb1 w1,
  NoDup names ->
  export_sheets py_repr wb names w = (Ok wb1, w1) ->
  map title wb1 = (map title wb ++ filter (has_data w) names)%list /\
  forall name, In name names -> has_data w name = false ->
               In (name ++ ": No Data Found") (stdout w1).
Proof.
  induction names as [|name names IH]; intros wb w wb1 w1 Hnd H.
  - inversion H; subst. simpl. rewrite app_nil_r. split; [reflexivity|].
    intros name [].
  - cbn [export_sheets] in H.
    apply bind_ok in H as (wb2 & w2 & Hone & Hrest).
    apply export_sheet_spec in Hone as (Ht & Hother & Hout).
    inversion Hnd as [|? ? Hnotin Hnd']; subst.
    assert (Hsame : forall n, In n names -> has_data w2 n = has_data w n).
    { intros n Hn. apply has_data_ext, Hother. intros ->. contradiction. }
    assert (Hgrow : forall names' wb' w' wb'' w'',
               export_sheets py_repr wb' names' w' = (Ok wb'', w'') ->
               forall line, In line (stdout w') -> In line (stdout w'')).
    { clear. induction names' as [|n names' IHn]; intros wb' w' wb'' w'' H line Hl.
      - inversion H; subst. exact Hl.
      - cbn [export_sheets] in H.
        apply bind_ok in H as (wb2 & w2 & Hone & Hrest).
        apply export_sheet_spec in Hone as (_ & _ & Hout).
        apply (IHn _ _ _ _ Hrest). rewrite Hout. apply in_or_app. now left. }
    destruct (IH _ _ _ _ Hnd' Hrest) as [Htitles Hlog]. split.
    + rewrite Htitles, Ht, <- app_assoc. f_equal. cbn [filter].
      rewrite (filter_ext_in _ _ _ Hsame).
      now destruct (has_data w name).
    + intros n [<-|Hn] Hempty.
      * apply (Hgrow _ _ _ _ _ Hrest). rewrite Hout, Hempty.
        apply in_or_app. right. now left.
      * apply Hlog; [exact Hn|]. now rewrite (Hsame n Hn).
Qed.


End ExportProofs.


(** C4 as stated does not hold.  Export a sheet whose header "Region" is
    rendered in cell A1, with the panes to freeze after "Region": the cell
    directly below and one column right of A1 is B2, and the exported sheet
    has [freeze_panes] at B1. *)
Lemma freeze_columns_not_below_header :
  let w :=
    snd (freeze_column_after "Instances" "Region"
    (snd (add_data "Instances" (PList [PStr "us-east-1"; PStr "i-xxxxx1"])
    (snd (add_headers "Instances" (PList [PStr "Region"; PStr "Instance ID"])
            new_wrapper))))) in
  exists wb w',
    export_excel (fun _ => "") w = (Ok (Some wb), w') /\
    map ws_rows wb = [[[PStr "Region"; PStr "Instance ID"];
                       [PStr "us-east-1"; PStr "i-xxxxx1"]]] /\
    find_header "Region" 1 [PStr "Region"; PStr "Instance ID"] = Some 1 /\
    cell_coordinate (1 + 1) (1 + 1) = Some "B2" /\
    map freeze_panes wb = [Some "B1"] /\
    map freeze_panes wb <> [cell_coordinate (1 + 1) (1 + 1)].
Proof.
  intros w. eexists. eexists.
  split; [vm_compute; reflexivity|].
  repeat split. discriminate.
Qed.

(** * Further properties of the module *)

(** ** [_col_to_excel] outside the column range *)

Lemma col_loop_negative : forall fuel col acc,
  col < 0 -> col_loop fuel col acc = None.
Proof.
  induction fuel as [|fuel IH]; intros col acc Hcol; cbn [col_loop];
    destruct (Z.eqb_spec col 0) as [E|_]; try lia; [reflexivity|].
  apply IH. apply Z.div_lt_upper_bound; lia.
Qed.

(** X1.  [_col_to_excel(0)] is the empty string, and for a negative index
    the [while] loop never ends: [div] stays negative, so no number of
    iterations brings it to zero. *)
Theorem col_to_excel_outside_range :
  _col_to_excel 0 = Some "" /\
  (forall col, col < 0 ->
     forall fuel acc, col_loop fuel col acc = None) /\
  (forall col, col < 0 -> (col - 1) / 26 < 0).
Proof.
  split; [reflexivity|]. split.
  - intros col Hcol fuel acc. now apply col_loop_negative.
  - intros col Hcol. apply Z.div_lt_upper_bound; lia.
Qed.

Lemma col_to_excel_outside_range_witness :
  -1 < 0 /\ col_loop 5000 (-1) "" = None.
Proof.
  split; [lia|].
  apply (proj1 (proj2 col_to_excel_outside_range) (-1)). lia.
Defined.

(** ** Natural sort: what can go wrong, and what the key ignores *)

Lemma py_index_error : forall {A : Type} (l : list A) i e,
  py_index l i = Err e -> e = IndexError.
Proof.
  intros A l i e H. unfold py_index in H.
  destruct ((0 <=? (if i <? 0 then i + Z.of_nat (List.length l) else i)) &&
            ((if i <? 0 then i + Z.of_nat (List.length l) else i)
               <? Z.of_nat (List.length l))); [|now inversion H].
  destruct (nth_error l _); now inversion H.
Qed.

Lemma rmap_error : forall {A B : Type} (f : A -> result B) (l : list A) e,
  rmap f l = Err e -> exists x, In x l /\ f x = Err e.
Proof.
  intros A B f. induction l as [|x l IH]; intros e H; simpl in H.
  - discriminate.
  - destruct (f x) as [y|e'] eqn:Hx; simpl in H.
    + destruct (rmap f l) as [ys|e'] eqn:Hl; simpl in H; [discriminate|].
      inversion H; subst. destruct (IH e eq_refl) as (z & Hz & Hfz).
      exists z. split; [now right | exact Hfz].
    + inversion H; subst. exists x. split; [now left | exact Hx].
Qed.

Section SortErrors.

Variable py_repr : pyval -> string.

(** With plain cells the key of a row fails only for a missing column. *)
Lemma sort_key_of_row_error : forall sort_keys row e,
  Forall (fun key => forall v, py_index row key = Ok v -> plain_cell v = true)
         sort_keys ->
  sort_key_of_row py_repr sort_keys row = Err e -> e = IndexError.
Proof.
  intros sort_keys row e Hplain H. unfold sort_key_of_row in H.
  apply rmap_error in H as (key & Hin & Hkey).
  rewrite Forall_forall in Hplain. specialize (Hplain key Hin).
  destruct (py_index row key) as [v|e'] eqn:E; simpl in Hkey.
  - destruct (plain_cell_text py_repr v (Hplain v eq_refl))
      as (text & Htext & Hp).
    rewrite Htext in Hkey. simpl in Hkey.
    rewrite (natural_sort_key_typed text Hp) in Hkey. discriminate.
  - inversion Hkey; subst. exact (py_index_error _ _ _ E).
Qed.

(** The sort returns as soon as every row has a key. *)
Lemma natural_sort_returns : forall data sort_keys,
  Forall (fun row => exists k, sort_key_of_row py_repr sort_keys row = Ok k)
         data ->
  exists sorted,
    natural_sort_multiple_columns py_repr data sort_keys = Ok sorted.
Proof.
  intros data sort_keys Hkeys.
  unfold natural_sort_multiple_columns, list_sort.
  destruct (rmap_returns (decorate (sort_key_of_row py_repr sort_keys)) data)
    as [dec Hdec].
  { apply Forall_impl with (2 := Hkeys). intros row [k Hk].
    unfold decorate. rewrite Hk. simpl. now eexists. }
  rewrite Hdec. simpl.
  destruct (rmap_decorate _ _ _ Hdec) as [_ Hinv].
  destruct (sort_decorated_returns row_key_lt
              (fun k => Forall (fun seg => key_shape false seg = true) k)
              row_keys_compare dec) as [r Hr].
  { apply Forall_impl with (2 := Hinv). intros p Hp.
    now apply sort_key_of_row_shape in Hp. }
  rewrite Hr. simpl. now eexists.
Qed.

(** What [natural_sort_key] and [str] raise is a ValueError. *)
Lemma natural_sort_key_error : forall s e,
  natural_sort_key s = Err e -> exists msg, e = ValueError msg.
Proof.
  intros s e H. unfold natural_sort_key in H.
  apply rmap_error in H as (text & _ & H). unfold key_segment, int in H.
  destruct (isdigit text); [|discriminate].
  destruct (digit_run text).
  - destruct (Nat.ltb int_max_str_digits (String.length text));
      simpl in H; [|discriminate].
    injection H as <-. now eexists.
  - simpl in H. injection H as <-. now eexists.
Qed.

Lemma str_of_error : forall v e,
  str_of py_repr v = Err e -> exists msg, e = ValueError msg.
Proof.
  intros v e H. destruct v; try discriminate.
  cbn [str_of] in H. destruct (str_fits z); [discriminate|].
  injection H as <-. now eexists.
Qed.

(** When the sort raises, the key of some row has raised it: two keys that
    were returned compare. *)
Lemma natural_sort_error : forall data sort_keys e,
  natural_sort_multiple_columns py_repr data sort_keys = Err e ->
  exists row, In row data /\ sort_key_of_row py_repr sort_keys row = Err e.
Proof.
  intros data sort_keys e H.
  unfold natural_sort_multiple_columns, list_sort in H.
  destruct (rmap (decorate (sort_key_of_row py_repr sort_keys)) data)
    as [dec|e'] eqn:Hdec; simpl in H.
  - destruct (rmap_decorate _ _ _ Hdec) as [_ Hinv].
    destruct (sort_decorated_returns row_key_lt
                (fun k => Forall (fun seg => key_shape false seg = true) k)
                row_keys_compare dec) as [r Hr].
    { apply Forall_impl with (2 := Hinv). intros p Hp.
      now apply sort_key_of_row_shape in Hp. }
    rewrite Hr in H. discriminate.
  - injection H as ->. apply rmap_error in Hdec as (row & Hin & Hrow).
    exists row. split; [exact Hin|]. unfold decorate in Hrow.
    destruct (sort_key_of_row py_repr sort_keys row); [discriminate|].
    simpl in Hrow. now injection Hrow as ->.
Qed.

(** Rows that have the sort columns do not make the sort raise
    IndexError. *)
Lemma natural_sort_no_index_error : forall data sort_keys,
  Forall (fun row =>
            Forall (fun key => exists v, py_index row key = Ok v) sort_keys)
         data ->
  natural_sort_multiple_columns py_repr data sort_keys <> Err IndexError.
Proof.
  intros data sort_keys Hcols H.
  apply natural_sort_error in H as (row & Hin & H).
  rewrite Forall_forall in Hcols. specialize (Hcols row Hin).
  unfold sort_key_of_row in H. apply rmap_error in H as (key & Hkey & H).
  rewrite Forall_forall in Hcols. destruct (Hcols key Hkey) as [v Hv].
  rewrite Hv in H. simpl in H.
  destruct (str_of py_repr v) as [text|e] eqn:Hs; simpl in H.
  - apply natural_sort_key_error in H as [msg H]. discriminate.
  - injection H as ->. apply str_of_error in Hs as [msg Hs]. discriminate.
Qed.

(** X2.  When the cells of the sort columns are plain,
    [natural_sort_multiple_columns] returns or raises IndexError, and it
    raises only for a row without one of the sort columns: the comparison
    of two keys does not raise TypeError, because every key then holds a
    [str] at the even positions and an [int] at the odd ones, and [int]
    refuses no span. *)
Theorem natural_sort_fails_only_on_missing_column : forall data sort_keys,
  Forall (fun row =>
            Forall (fun key => forall v, py_index row key = Ok v ->
                                         plain_cell v = true)
                   sort_keys)
         data ->
  (exists sorted,
     natural_sort_multiple_columns py_repr data sort_keys = Ok sorted) \/
  (natural_sort_multiple_columns py_repr data sort_keys = Err IndexError /\
   exists row, In row data /\
               sort_key_of_row py_repr sort_keys row = Err IndexError).
Proof.
  intros data sort_keys Hplain.
  destruct (rmap (decorate (sort_key_of_row py_repr sort_keys)) data)
    as [dec|e] eqn:Hdec.
  - left. apply natural_sort_returns.
    destruct (rmap_decorate _ _ _ Hdec) as [Hdata Hinv].
    rewrite <- Hdata. clear Hdata Hdec Hplain.
    induction Hinv as [|p dec Hp _ IH]; simpl; constructor; [|exact IH].
    now exists (fst p).
  - right. pose proof Hdec as Hrow.
    apply rmap_error in Hrow as (row & Hin & Hrow).
    unfold decorate in Hrow.
    destruct (sort_key_of_row py_repr sort_keys row) as [k|e'] eqn:Hk;
      simpl in Hrow; [discriminate|].
    inversion Hrow; subst e'.
    rewrite Forall_forall in Hplain.
    pose proof (sort_key_of_row_error _ _ _ (Hplain row Hin) Hk) as ->.
    split.
    + unfold natural_sort_multiple_columns, list_sort. now rewrite Hdec.
    + now exists row.
Qed.

End SortErrors.

Lemma natural_sort_fails_only_on_missing_column_witness :
  let data := [[PStr "b2"; PInt 7]; [PStr "a10"]; [PStr "A9"; PNone]] in
  natural_sort_multiple_columns (fun _ => "") data [0]
    = Ok [[PStr "A9"; PNone]; [PStr "a10"]; [PStr "b2"; PInt 7]] /\
  natural_sort_multiple_columns (fun _ => "") data [0; 1] = Err IndexError /\
  ((exists sorted,
      natural_sort_multiple_columns (fun _ => "") data [0; 1] = Ok sorted) \/
   (natural_sort_multiple_columns (fun _ => "") data [0; 1] = Err IndexError /\
    exists row, In row data /\
                sort_key_of_row (fun _ => "") [0; 1] row = Err IndexError)).
Proof.
  intros data. split; [vm_compute; reflexivity|].
  split; [vm_compute; reflexivity|].
  apply (natural_sort_fails_only_on_missing_column (fun _ => "") data [0; 1]).
  repeat constructor; intros v H; vm_compute in H;
    try discriminate; injection H as <-; vm_compute; reflexivity.
Defined.

Lemma is_digit_range : forall c, is_digit c = true <-> 48 <= ord c <= 57.
Proof.
  intros c. unfold is_digit. rewrite andb_true_iff, !Z.leb_le. tauto.
Qed.

Lemma ord_bound : forall c, 0 <= ord c < 256.
Proof.
  intros c. unfold ord. pose proof (N_ascii_bounded c) as H.
  split; [apply N2Z.is_nonneg|].
  change 256 with (Z.of_N 256). now apply N2Z.inj_lt.
Qed.

(** The facts about one character are checked on the 256 characters. *)
Ltac each_char c :=
  destruct c as [[] [] [] [] [] [] [] []]; vm_compute; try reflexivity;
  try discriminate.

Lemma lower_char_digit : forall c, is_digit (lower_char c) = is_digit c.
Proof. intros c. each_char c. Qed.

Lemma lower_char_isdigit : forall c,
  isdigit_char (lower_char c) = isdigit_char c.
Proof. intros c. each_char c. Qed.

Lemma lower_char_idem : forall c, lower_char (lower_char c) = lower_char c.
Proof. intros c. each_char c. Qed.

Lemma lower_char_of_digit : forall c,
  isdigit_char c = true -> lower_char c = c.
Proof. intros c. each_char c. Qed.

Lemma lower_app : forall s t, lower (s ++ t) = lower s ++ lower t.
Proof.
  induction s as [|c s IH]; intros t; simpl; [reflexivity | now rewrite IH].
Qed.

Lemma lower_idem : forall s, lower (lower s) = lower s.
Proof.
  induction s as [|c s IH]; simpl; [reflexivity|].
  now rewrite lower_char_idem, IH.
Qed.

Lemma lower_digits : forall s,
  string_forallb isdigit_char s = true -> lower s = s.
Proof.
  induction s as [|c s IH]; intros H; simpl in *; [reflexivity|].
  apply andb_true_iff in H as [Hc Hs].
  now rewrite (IH Hs), (lower_char_of_digit c Hc).
Qed.

Lemma forallb_digit_lower : forall s,
  string_forallb isdigit_char (lower s) = string_forallb isdigit_char s.
Proof.
  induction s as [|c s IH]; simpl; [reflexivity|].
  now rewrite lower_char_isdigit, IH.
Qed.

Lemma isdigit_lower : forall s, isdigit (lower s) = isdigit s.
Proof.
  intros [|c s]; [reflexivity|].
  change (isdigit (lower (String c s)))
    with (string_forallb isdigit_char (lower (String c s))).
  apply forallb_digit_lower.
Qed.

Lemma isdigit_forall : forall s,
  isdigit s = true -> string_forallb isdigit_char s = true.
Proof. intros [|c s] H; [discriminate | exact H]. Qed.

Lemma re_split_from_lower : forall s in_run cur,
  re_split_from in_run (lower cur) (lower s)
  = map lower (re_split_from in_run cur s).
Proof.
  induction s as [|c s IH]; intros in_run cur; cbn [lower re_split_from].
  - now destruct in_run.
  - rewrite lower_char_digit.
    destruct (Bool.eqb (is_digit c) in_run).
    + rewrite <- IH, lower_app. reflexivity.
    + cbn [map]. f_equal. apply (IH (is_digit c) (String c "")).
Qed.

(** The element of the key does not see letter case. *)
Lemma key_segment_lower : forall text,
  key_segment (lower text) = key_segment text.
Proof.
  intros text. unfold key_segment. rewrite isdigit_lower.
  destruct (isdigit text) eqn:Hd.
  - now rewrite (lower_digits text (isdigit_forall text Hd)).
  - now rewrite lower_idem.
Qed.

Lemma rmap_map : forall {A B C : Type} (g : A -> B) (f : B -> result C) l,
  rmap f (map g l) = rmap (fun x => f (g x)) l.
Proof.
  intros A B C g f. induction l as [|x l IH]; simpl; [reflexivity|].
  now rewrite IH.
Qed.

Lemma rmap_ext : forall {A B : Type} (f g : A -> result B) l,
  (forall x, f x = g x) -> rmap f l = rmap g l.
Proof.
  intros A B f g l H. induction l as [|x l IH]; simpl; [reflexivity|].
  now rewrite H, IH.
Qed.

(** X3.  The natural sort key does not see letter case: a string and its
    lowercase form have the same key, so rows that differ only in case tie
    and keep their input order. *)
Theorem natural_sort_key_ignores_case : forall s,
  natural_sort_key (lower s) = natural_sort_key s.
Proof.
  intros s. unfold natural_sort_key, re_split_digits.
  change "" with (lower "") at 1. rewrite re_split_from_lower, rmap_map.
  apply rmap_ext. exact key_segment_lower.
Qed.

(** ** [add_headers] and [add_data]: effects on the store *)

Lemma same_elsewhere_refl : forall sheet_name w, same_elsewhere sheet_name w w.
Proof. intros. repeat split; auto. Qed.

Lemma same_elsewhere_trans : forall sheet_name w1 w2 w3,
  same_elsewhere sheet_name w1 w2 -> same_elsewhere sheet_name w2 w3 ->
  same_elsewhere sheet_name w1 w3.
Proof.
  intros sheet_name w1 w2 w3 (A1 & B1 & C1 & D1 & E1 & F1)
         (A2 & B2 & C2 & D2 & E2 & F2).
  repeat split; try congruence.
  intros name Hne. rewrite (A2 name Hne). now apply A1.
Qed.

Lemma create_sheet_elsewhere : forall sheet_name w,
  same_elsewhere sheet_name w (snd (_create_sheet sheet_name w)).
Proof.
  intros sheet_name w. split.
  - intros name Hne. rewrite create_sheet_assoc.
    destruct (assoc name (output_data w)); [reflexivity|].
    apply String.eqb_neq in Hne. now rewrite Hne.
  - unfold _create_sheet, bind, get, ret, modify.
    destruct (assoc sheet_name (output_data w)); repeat split.
Qed.

Lemma update_sheet_elsewhere : forall sheet_name f w,
  same_elsewhere sheet_name w (snd (update_sheet sheet_name f w)).
Proof.
  intros sheet_name f w. unfold update_sheet, sheet_item, bind, get, ret,
    raise, modify.
  destruct (assoc sheet_name (output_data w)); simpl.
  - repeat split. intros name Hne. now apply assoc_dict_set_other.
  - apply same_elsewhere_refl.
Qed.

(** A method built from steps that each leave the rest alone leaves the
    rest alone. *)
Lemma elsewhere_bind : forall {A B : Type} sheet_name (m : M A) (k : A -> M B),
  (forall w, same_elsewhere sheet_name w (snd (m w))) ->
  (forall a w, same_elsewhere sheet_name w (snd (k a w))) ->
  forall w, same_elsewhere sheet_name w (snd (bind m k w)).
Proof.
  intros A B sheet_name m k Hm Hk w. unfold bind.
  specialize (Hm w). destruct (m w) as [[a|e] w1]; simpl in *.
  - exact (same_elsewhere_trans _ _ _ _ Hm (Hk a w1)).
  - exact Hm.
Qed.

Ltac elsewhere :=
  repeat first
    [ apply same_elsewhere_refl
    | apply create_sheet_elsewhere
    | apply update_sheet_elsewhere
    | solve [auto]
    | apply elsewhere_bind; [intros ?|intros ? ?]
    | match goal with
      | |- same_elsewhere _ _ (snd ((if ?c then _ else _) _)) => destruct c
      | |- same_elsewhere _ _ (snd ((match ?x with _ => _ end) _)) => destruct x
      end ].

Lemma sheet_item_elsewhere : forall sheet_name w,
  same_elsewhere sheet_name w (snd (sheet_item sheet_name w)).
Proof. intros sheet_name w. unfold sheet_item. elsewhere. Qed.

Lemma add_batch_elsewhere : forall sheet_name rows w,
  same_elsewhere sheet_name w (snd (add_batch sheet_name rows w)).
Proof.
  intros sheet_name. induction rows as [|r rows IH]; intros w;
    cbn [add_batch].
  - apply same_elsewhere_refl.
  - unfold append_row. pose proof (sheet_item_elsewhere sheet_name).
    elsewhere.
Qed.

(** X4.  [add_headers] and [add_data] work on one entry of the store:
    whether they return or raise, the entries of the other sheets, the
    formatting rules, the freeze settings and the printed output are what
    they were. *)
Theorem add_methods_touch_one_sheet : forall sheet_name data w,
  same_elsewhere sheet_name w (snd (add_headers sheet_name data w)) /\
  same_elsewhere sheet_name w (snd (add_data sheet_name data w)).
Proof.
  intros sheet_name data w. split.
  - unfold add_headers. elsewhere.
  - unfold add_data, append_row.
    pose proof (add_batch_elsewhere sheet_name) as Hbatch.
    pose proof (sheet_item_elsewhere sheet_name) as Hitem. elsewhere.
Qed.

(** X5.  [add_data] creates the sheet before it looks at its argument: an
    argument that is not a list, tuple or set (a string, a dict, a number,
    None) is refused with TypeError, and the sheet exists afterwards, with
    the headers and rows the store held for it (none for a new sheet). *)
Theorem add_data_refuses_other_types : forall sheet_name input w,
  is_list_tuple_set input = false ->
  add_data sheet_name input w
    = (Err (TypeError "Invalid Data Type, Requires List, Tuple, or Set"),
       snd (_create_sheet sheet_name w)) /\
  (exists sh,
     assoc sheet_name (output_data (snd (_create_sheet sheet_name w))) = Some sh /\
     headers sh = headers_of w sheet_name /\
     data sh = rows_of w sheet_name).
Proof.
  intros sheet_name input w Hdata. split.
  - unfold add_data. unfold bind at 1. rewrite create_sheet_ok, Hdata.
    reflexivity.
  - apply create_sheet_exists.
Qed.

Lemma add_data_refuses_other_types_witness :
  add_data "S" (PStr "ab") new_wrapper
    = (Err (TypeError "Invalid Data Type, Requires List, Tuple, or Set"),
       snd (_create_sheet "S" new_wrapper)) /\
  (exists sh,
     assoc "S" (output_data (snd (_create_sheet "S" new_wrapper))) = Some sh /\
     headers sh = headers_of new_wrapper "S" /\
     data sh = rows_of new_wrapper "S").
Proof.
  apply (add_data_refuses_other_types "S" (PStr "ab") new_wrapper).
  reflexivity.
Defined.

Lemma append_row_ok : forall sheet_name row w sh,
  assoc sheet_name (output_data w) = Some sh ->
  append_row sheet_name row w =
  (Ok tt,
   set_output_data
     (dict_set sheet_name (set_data (data sh ++ [row]) sh) (output_data w)) w).
Proof.
  intros sheet_name row w sh H. unfold append_row.
  now rewrite (update_sheet_ok _ _ _ _ H).
Qed.






(** ** Well-formed rows: an invariant of [add_data] *)

Lemma chars_length : forall s, List.length (chars s) = String.length s.
Proof. induction s as [|c s IH]; simpl; [reflexivity | now rewrite IH]. Qed.

Lemma py_len_iter_length : forall v n items,
  py_len v = Ok n -> py_iter v = Ok items -> List.length items = n.
Proof.
  intros v n items Hl Hi.
  destruct v; simpl in *; try discriminate;
    inversion Hl; inversion Hi; subst;
    rewrite ?chars_length, ?length_map; reflexivity.
Qed.

Lemma blank_none_no_none : forall items,
  Forall (fun v => v <> PNone) (map blank_none items).
Proof.
  induction items as [|v items IH]; simpl; constructor; [|exact IH].
  destruct v; simpl; discriminate.
Qed.

Lemma well_formed_create : forall sheet_name w,
  rows_well_formed w -> rows_well_formed (snd (_create_sheet sheet_name w)).
Proof.
  intros sheet_name w H name. rewrite create_sheet_rows, create_sheet_headers.
  apply H.
Qed.

Lemma well_formed_append : forall sheet_name row w sh,
  rows_well_formed w ->
  assoc sheet_name (output_data w) = Some sh ->
  List.length row = List.length (headers sh) ->
  Forall (fun v => v <> PNone) row ->
  rows_well_formed
    (set_output_data
       (dict_set sheet_name (set_data (data sh ++ [row]) sh) (output_data w)) w).
Proof.
  intros sheet_name row w sh H Hsh Hlen Hrow name.
  specialize (H name). unfold rows_of, headers_of in *. simpl.
  destruct (String.eqb_spec name sheet_name) as [->|Hne].
  - rewrite assoc_dict_set_same. rewrite Hsh in H. simpl.
    apply Forall_app. split; [exact H|]. constructor; [|constructor]. auto.
  - now rewrite (assoc_dict_set_other _ _ _ _ Hne).
Qed.

Lemma add_batch_well_formed : forall sheet_name rows w sh,
  assoc sheet_name (output_data w) = Some sh ->
  rows_well_formed w ->
  rows_well_formed (snd (add_batch sheet_name rows w)).
Proof.
  intros sheet_name. induction rows as [|r rows IH]; intros w sh Hsh Hwf.
  - exact Hwf.
  - cbn [add_batch]. unfold bind at 1. unfold lift at 1.
    destruct (py_len r) as [n|e] eqn:Hr; [|exact Hwf].
    unfold bind at 1. rewrite (sheet_item_ok _ _ _ Hsh).
    destruct (Nat.eqb_spec n (List.length (headers sh))) as [Hn|Hn];
      cbn [negb]; [|exact Hwf].
    unfold bind at 1. unfold lift at 1.
    destruct (py_iter r) as [items|e] eqn:Hitems; [|exact Hwf].
    unfold bind at 1. rewrite (append_row_ok _ _ _ _ Hsh).
    apply (IH _ (set_data (data sh ++ [map blank_none items]) sh)).
    + apply assoc_dict_set_same.
    + apply well_formed_append; auto using blank_none_no_none.
      rewrite length_map, <- Hn. exact (py_len_iter_length _ _ _ Hr Hitems).
Qed.

Lemma new_wrapper_well_formed : rows_well_formed new_wrapper.
Proof. intros name. constructor. Qed.

Lemma add_data_well_formed : forall sheet_name input w,
  rows_well_formed w ->
  rows_well_formed (snd (add_data sheet_name input w)).
Proof.
  intros sheet_name input w Hwf.
  destruct (create_sheet_exists sheet_name w) as (sh & Hsh & Hh & Hd).
  pose proof (well_formed_create sheet_name w Hwf) as Hwf1.
  unfold add_data. unfold bind at 1. rewrite create_sheet_ok.
  destruct (is_list_tuple_set input); cbn [negb]; [|exact Hwf1].
  unfold bind at 1. unfold lift at 1.
  destruct (py_getitem input 0) as [first|e]; [|exact Hwf1].
  destruct (is_list_tuple_set first).
  - unfold bind at 1. unfold lift at 1.
    destruct (py_iter input) as [rows|e]; [|exact Hwf1].
    exact (add_batch_well_formed _ _ _ _ Hsh Hwf1).
  - unfold bind at 1. unfold lift at 1.
    destruct (py_len input) as [n|e] eqn:Hn; [|exact Hwf1].
    unfold bind at 1. rewrite (sheet_item_ok _ _ _ Hsh).
    destruct (Nat.eqb_spec n (List.length (headers sh))) as [E|E];
      [|exact Hwf1].
    unfold bind at 1. unfold lift at 1.
    destruct (py_iter input) as [items|e] eqn:Hitems; [|exact Hwf1].
    rewrite (append_row_ok _ _ _ _ Hsh).
    apply well_formed_append; auto using blank_none_no_none.
    rewrite length_map, <- E. exact (py_len_iter_length _ _ _ Hn Hitems).
Qed.

Lemma add_headers_well_formed : forall sheet_name input w,
  rows_well_formed w ->
  rows_of w sheet_name = [] ->
  rows_well_formed (snd (add_headers sheet_name input w)).
Proof.
  intros sheet_name input w Hwf Hempty.
  destruct (create_sheet_exists sheet_name w) as (sh & Hsh & Hh & Hd).
  assert (Hnil : data sh = []) by (rewrite Hd; exact Hempty).
  pose proof (well_formed_create sheet_name w Hwf) as Hwf1.
  unfold add_headers. unfold bind at 1. rewrite create_sheet_ok.
  unfold bind at 1. unfold lift at 1.
  destruct (py_iter input) as [data_list|e]; [|exact Hwf1].
  unfold bind at 1. unfold lift at 1.
  destruct (py_set [] data_list) as [distinct|e]; [|exact Hwf1].
  destruct (negb (Nat.eqb (List.length data_list) (List.length distinct)));
    [exact Hwf1|].
  rewrite (update_sheet_ok _ _ _ _ Hsh). intros name.
  specialize (Hwf1 name). unfold rows_of, headers_of in *. simpl.
  destruct (String.eqb_spec name sheet_name) as [->|Hne].
  - rewrite assoc_dict_set_same. simpl. rewrite Hnil. constructor.
  - now rewrite (assoc_dict_set_other _ _ _ _ Hne).
Qed.

(** X8.  Well-formedness of the rows is an invariant of the usual use of
    the store: it holds for a new wrapper; [add_data] keeps it whether it
    returns or raises, so every row it stores is as long as the header list
    of its sheet and free of None; and [add_headers] keeps it when the
    sheet has no row yet. *)
Theorem add_data_keeps_rows_well_formed :
  rows_well_formed new_wrapper /\
  (forall sheet_name input w,
     rows_well_formed w ->
     rows_well_formed (snd (add_data sheet_name input w))) /\
  (forall sheet_name input w,
     rows_well_formed w ->
     rows_of w sheet_name = [] ->
     rows_well_formed (snd (add_headers sheet_name input w))).
Proof.
  split; [exact new_wrapper_well_formed|].
  split; [exact add_data_well_formed | exact add_headers_well_formed].
Qed.

Lemma add_data_keeps_rows_well_formed_witness :
  rows_well_formed
    (snd (add_data "S" (PList [PList [PStr "a"; PNone]; PList [PStr "x"]])
       (snd (add_headers "S" (PList [PStr "A"; PStr "B"]) new_wrapper)))).
Proof.
  apply (proj1 (proj2 add_data_keeps_rows_well_formed)).
  apply (proj2 (proj2 add_data_keeps_rows_well_formed)); [|reflexivity].
  apply (proj1 add_data_keeps_rows_well_formed).
Defined.

(** X9.  In a store with well-formed rows the only way [_merge_data] can
    fail for an existing sheet is a missing header list: with headers it
    returns the header row followed by the rows. *)
Theorem merge_data_of_well_formed_rows : forall sheet_name w sh,
  rows_well_formed w ->
  assoc sheet_name (output_data w) = Some sh ->
  headers sh <> [] ->
  _merge_data sheet_name w = (Ok (headers sh :: data sh), w).
Proof.
  intros sheet_name w sh Hwf Hsh Hne.
  specialize (Hwf sheet_name). unfold rows_of, headers_of in Hwf.
  rewrite Hsh in Hwf.
  unfold _merge_data, bind, get, lift, ret, raise. rewrite Hsh.
  destruct (Nat.eqb_spec (List.length (headers sh)) 0) as [E|_].
  - destruct (headers sh); [contradiction | discriminate].
  - rewrite merge_rows_ok; [reflexivity|].
    apply Forall_impl with (2 := Hwf). now intros row [Hlen _].
Qed.

Lemma merge_data_of_well_formed_rows_witness :
  let w := snd (add_data "S" (PList [PStr "a"; PNone])
             (snd (add_headers "S" (PList [PStr "A"; PStr "B"]) new_wrapper))) in
  _merge_data "S" w
    = (Ok [[PStr "A"; PStr "B"]; [PStr "a"; PStr ""]], w).
Proof.
  intros w.
  apply (merge_data_of_well_formed_rows "S" w
           (mk_sheet [PStr "A"; PStr "B"] [[PStr "a"; PStr ""]] None)).
  - apply add_data_well_formed.
    apply add_headers_well_formed; [|reflexivity].
    apply new_wrapper_well_formed.
  - reflexivity.
  - discriminate.
Defined.

(** ** Replacing the headers of a sheet that has rows *)

(** X10.  [add_headers] with distinct strings replaces the header list and
    nothing else: the stored rows and the stored sort keys stay as they
    are, unchecked against the new headers.  A row whose length differs
    from the new header count is first reported by [_merge_data], that is
    at export. *)
Theorem add_headers_replaces_without_checking_rows :
  forall sheet_name input hs w,
    py_iter input = Ok (map PStr hs) ->
    NoDup hs ->
    exists w',
      add_headers sheet_name input w = (Ok tt, w') /\
      headers_of w' sheet_name = map PStr hs /\
      rows_of w' sheet_name = rows_of w sheet_name /\
      keys_of w' sheet_name = keys_of w sheet_name /\
      (hs <> [] ->
       Exists (fun row => List.length row <> List.length hs)
              (rows_of w sheet_name) ->
       _merge_data sheet_name w'
         = (Err (SystemExit "Invalid Data Found, Column Count Mismatch"), w')).
Proof.
  intros sheet_name input hs w Hiter Hnd.
  destruct (py_set_strings hs []) as (r & Hr & _ & Hiff).
  simpl in Hr, Hiff.
  assert (Hlen : List.length (map PStr hs) = List.length r).
  { rewrite length_map. symmetry. apply Hiff. split; [exact Hnd | auto]. }
  destruct (create_sheet_exists sheet_name w) as (sh & Hsh & Hh & Hd).
  assert (Hkeys : sort_keys sh = keys_of w sheet_name).
  { pose proof (create_sheet_assoc sheet_name w sheet_name) as Ha.
    rewrite Hsh in Ha. unfold keys_of.
    destruct (assoc sheet_name (output_data w)) as [sh0|].
    - now inversion Ha.
    - rewrite String.eqb_refl in Ha. now inversion Ha. }
  eexists. split; [|split; [|split; [|split]]].
  - unfold add_headers. unfold bind at 1. rewrite create_sheet_ok.
    unfold bind at 1. unfold lift at 1. rewrite Hiter.
    unfold bind at 1. unfold lift at 1. rewrite Hr.
    rewrite Hlen, Nat.eqb_refl. cbn [negb].
    apply (update_sheet_ok _ _ _ _ Hsh).
  - unfold headers_of. simpl. now rewrite assoc_dict_set_same.
  - unfold rows_of at 1. simpl. now rewrite assoc_dict_set_same.
  - unfold keys_of at 1. simpl. now rewrite assoc_dict_set_same.
  - intros Hne Hex.
    unfold _merge_data, bind, get, lift, ret, raise. simpl.
    rewrite assoc_dict_set_same. simpl. rewrite length_map.
    destruct (Nat.eqb_spec (List.length hs) 0) as [E|_].
    + destruct hs; [contradiction | discriminate].
    + rewrite merge_rows_mismatch; [reflexivity|].
      rewrite Hd. exact Hex.
Qed.

Lemma add_headers_replaces_without_checking_rows_witness :
  let w := snd (add_data "S" (PList [PStr "a"; PStr "b"])
             (snd (add_headers "S" (PList [PStr "A"; PStr "B"]) new_wrapper))) in
  exists w',
    add_headers "S" (PList [PStr "A"; PStr "B"; PStr "C"]) w = (Ok tt, w') /\
    headers_of w' "S" = map PStr ["A"; "B"; "C"] /\
    rows_of w' "S" = rows_of w "S" /\
    keys_of w' "S" = keys_of w "S" /\
    (["A"; "B"; "C"] <> [] ->
     Exists (fun row => List.length row <> List.length ["A"; "B"; "C"])
            (rows_of w "S") ->
     _merge_data "S" w'
       = (Err (SystemExit "Invalid Data Found, Column Count Mismatch"), w')).
Proof.
  intros w.
  apply (add_headers_replaces_without_checking_rows "S"
           (PList [PStr "A"; PStr "B"; PStr "C"]) ["A"; "B"; "C"] w eq_refl).
  repeat constructor; simpl; intuition discriminate.
Defined.

(** ** [sort_data] *)

Lemma list_index_first : forall x l i,
  list_index x l = Ok i -> first_index l x i.
Proof.
  intros x. induction l as [|y l IH]; intros i H; simpl in H.
  - discriminate.
  - destruct (py_eqb y x) eqn:E.
    + inversion H; subst i. split; [simpl List.length; lia|]. split.
      * exists y. auto.
      * intros j v Hj. simpl in Hj. lia.
    + destruct (list_index x l) as [i'|e] eqn:Hi; simpl in H; [|discriminate].
      inversion H; subst i. destruct (IH i' eq_refl) as (Hb & (v & Hv & Hev) & Hf).
      assert (Hnat : Z.to_nat (i' + 1) = S (Z.to_nat i')) by lia.
      split; [simpl List.length; lia|]. split.
      * exists v. rewrite Hnat. auto.
      * intros j v' Hj Hnth. rewrite Hnat in Hj. destruct j as [|j].
        -- simpl in Hnth. inversion Hnth; subst. exact E.
        -- simpl in Hnth. apply (Hf j v'); [lia | exact Hnth].
Qed.

Lemma list_index_of_member : forall x l,
  py_in x l = true -> exists i, list_index x l = Ok i.
Proof.
  intros x. induction l as [|y l IH]; intros H; simpl in *.
  - discriminate.
  - destruct (py_eqb y x); [now eexists|].
    destruct (IH H) as [i ->]. simpl. now eexists.
Qed.

Lemma list_index_not_member : forall x l e,
  list_index x l = Err e -> py_in x l = false.
Proof.
  intros x. induction l as [|y l IH]; intros e H; simpl in *.
  - reflexivity.
  - destruct (py_eqb y x); [discriminate|].
    destruct (list_index x l) as [i|e'] eqn:Hi; simpl in H; [discriminate|].
    now apply (IH e').
Qed.

Lemma py_index_in_bounds : forall {A : Type} (l : list A) k,
  0 <= k < Z.of_nat (List.length l) -> exists v, py_index l k = Ok v.
Proof.
  intros A l k Hk. unfold py_index.
  destruct (Z.ltb_spec k 0) as [Hneg|_]; [lia|].
  destruct (Z.leb_spec 0 k) as [_|Hneg]; [|lia].
  destruct (Z.ltb_spec k (Z.of_nat (List.length l))) as [_|Hge]; [|lia].
  simpl. destruct (nth_error l (Z.to_nat k)) as [v|] eqn:E; [now eexists|].
  apply nth_error_None in E. lia.
Qed.

Section SortData.

Variable py_repr : pyval -> string.

Lemma resolve_sort_keys_first : forall sheet_headers hs keys,
  resolve_sort_keys py_repr sheet_headers hs = Ok keys ->
  Forall2 (first_index sheet_headers) hs keys.
Proof.
  intros sheet_headers. induction hs as [|h hs IH]; intros keys H; simpl in H.
  - inversion H. constructor.
  - destruct (py_in h sheet_headers); simpl in H; [|discriminate].
    destruct (list_index h sheet_headers) as [i|e] eqn:Hi; simpl in H;
      [|discriminate].
    destruct (resolve_sort_keys py_repr sheet_headers hs) as [keys'|e] eqn:Hr;
      simpl in H; [|discriminate].
    inversion H; subst keys. constructor.
    + now apply list_index_first.
    + now apply IH.
Qed.


(** X11.  When [sort_data] returns, the sheet existed before the call and
    its sort keys are now one index per requested header, in order: each
    is the position of the first header of the sheet equal to the
    requested one, so it lies within the header list.  A string argument
    counts as one header, any other argument is iterated.  The headers and
    rows of the sheet, and the rest of the store, are unchanged. *)
Theorem sort_data_resolves_first_positions : forall sheet_name hdrs w w',
  sort_data py_repr sheet_name hdrs w = (Ok tt, w') ->
  exists sh requested keys,
    assoc sheet_name (output_data w) = Some sh /\
    ((exists s, hdrs = PStr s /\ requested = [hdrs]) \/
     ((forall s, hdrs <> PStr s) /\ py_iter hdrs = Ok requested)) /\
    Forall2 (first_index (headers sh)) requested keys /\
    keys_of w' sheet_name = Some keys /\
    headers_of w' sheet_name = headers sh /\
    rows_of w' sheet_name = data sh /\
    same_elsewhere sheet_name w w'.
Proof.
  intros sheet_name hdrs w w' H. unfold sort_data in H.
  apply bind_ok in H as (w0 & w1 & Hg & H).
  unfold get in Hg. inversion Hg; subst w0 w1. clear Hg.
  destruct (assoc sheet_name (output_data w)) as [sh|] eqn:Hsh;
    [|discriminate].
  apply bind_ok in H as (requested & w1 & Hreq & H).
  apply lift_ok in Hreq as [Hreq ->].
  apply bind_ok in H as (keys & w1 & Hkeys & H).
  apply lift_ok in Hkeys as [Hkeys ->].
  rewrite (update_sheet_ok _ _ _ _ Hsh) in H. inversion H; subst w'. clear H.
  exists sh, requested, keys. split; [reflexivity|]. split; [|split].
  - destruct hdrs; try (right; split; [discriminate | exact Hreq]).
    left. exists s. inversion Hreq. auto.
  - now apply resolve_sort_keys_first.
  - unfold keys_of, headers_of, rows_of. simpl.
    rewrite assoc_dict_set_same. simpl. repeat split; auto.
    intros name Hne. now apply assoc_dict_set_other.
Qed.

Lemma resolve_sort_keys_returns : forall sheet_headers hs,
  Forall (fun x => py_in x sheet_headers = true) hs ->
  exists keys, resolve_sort_keys py_repr sheet_headers hs = Ok keys.
Proof.
  intros sheet_headers hs H.
  induction H as [|x hs Hx _ [keys IH]]; cbn [resolve_sort_keys].
  - now eexists.
  - rewrite Hx. cbn [negb].
    destruct (list_index_of_member _ _ Hx) as [i ->]. simpl.
    rewrite IH. simpl. now eexists.
Qed.


(** X13.  Sort keys that [sort_data] has stored fit the sheet's rows as
    long as every row has the length of the header list: every row has
    every sort column, so the natural sort of the rows by these keys does
    not raise IndexError; and it returns when the cells of the rows are
    plain. *)
Theorem sort_data_keys_fit_rows : forall sheet_name hdrs w w',
  sort_data py_repr sheet_name hdrs w = (Ok tt, w') ->
  Forall (fun row => List.length row = List.length (headers_of w sheet_name))
         (rows_of w sheet_name) ->
  exists keys,
    keys_of w' sheet_name = Some keys /\
    Forall (fun row =>
              Forall (fun key => exists v, py_index row key = Ok v) keys)
           (rows_of w' sheet_name) /\
    natural_sort_multiple_columns py_repr (rows_of w' sheet_name) keys
      <> Err IndexError /\
    (Forall (fun row => forallb plain_cell row = true)
            (rows_of w' sheet_name) ->
     exists sorted,
       natural_sort_multiple_columns py_repr (rows_of w' sheet_name) keys
         = Ok sorted).
Proof.
  intros sheet_name hdrs w w' H Hrows. unfold sort_data in H.
  apply bind_ok in H as (w0 & w1 & Hg & H).
  unfold get in Hg. inversion Hg; subst w0 w1. clear Hg.
  destruct (assoc sheet_name (output_data w)) as [sh|] eqn:Hsh;
    [|discriminate].
  apply bind_ok in H as (requested & w1 & Hreq & H).
  apply lift_ok in Hreq as [Hreq ->].
  apply bind_ok in H as (keys & w1 & Hkeys & H).
  apply lift_ok in Hkeys as [Hkeys ->].
  rewrite (update_sheet_ok _ _ _ _ Hsh) in H. inversion H; subst w'. clear H.
  apply resolve_sort_keys_first in Hkeys.
  unfold rows_of, headers_of in Hrows. rewrite Hsh in Hrows.
  assert (Hbounds : Forall (fun k => 0 <= k < Z.of_nat (List.length (headers sh)))
                           keys).
  { clear -Hkeys. induction Hkeys as [|h k hs ks Hk _ IH]; constructor;
      [apply Hk | exact IH]. }
  assert (Hcols : Forall (fun row =>
                            Forall (fun key => exists v, py_index row key = Ok v)
                                   keys)
                         (data sh)).
  { apply Forall_impl with (2 := Hrows). intros row Hlen.
    apply Forall_impl with (2 := Hbounds). intros k Hk.
    apply py_index_in_bounds. now rewrite Hlen. }
  exists keys. unfold keys_of, rows_of. simpl.
  rewrite assoc_dict_set_same. simpl.
  split; [reflexivity|]. split; [exact Hcols|].
  split; [now apply natural_sort_no_index_error|].
  intros Hplain. apply natural_sort_returns.
  rewrite Forall_forall in Hcols, Hplain. apply Forall_forall.
  intros row Hin. apply sort_key_of_row_returns.
  specialize (Hcols row Hin). specialize (Hplain row Hin).
  apply Forall_impl with (2 := Hcols). intros key [v Hv].
  exists v. split; [exact Hv|].
  rewrite forallb_forall in Hplain. apply Hplain.
  unfold py_index in Hv.
  destruct ((0 <=? (if key <? 0 then key + Z.of_nat (List.length row) else key))
            && ((if key <? 0 then key + Z.of_nat (List.length row) else key)
                  <? Z.of_nat (List.length row))); [|discriminate].
  destruct (nth_error row _) as [x|] eqn:E; [|discriminate].
  injection Hv as <-. exact (nth_error_In _ _ E).
Qed.

End SortData.

Lemma sort_data_resolves_first_positions_witness :
  let w := snd (add_headers "S" (PList [PStr "Region"; PStr "Id"; PStr "Zone"])
                  new_wrapper) in
  let hdrs := PTuple [PStr "Zone"; PStr "Region"] in
  let w' := snd (sort_data (fun _ => "") "S" hdrs w) in
  keys_of w' "S" = Some [2; 0] /\
  exists sh requested keys,
    assoc "S" (output_data w) = Some sh /\
    ((exists s, hdrs = PStr s /\ requested = [hdrs]) \/
     ((forall s, hdrs <> PStr s) /\ py_iter hdrs = Ok requested)) /\
    Forall2 (first_index (headers sh)) requested keys /\
    keys_of w' "S" = Some keys /\
    headers_of w' "S" = headers sh /\
    rows_of w' "S" = data sh /\
    same_elsewhere "S" w w'.
Proof.
  intros w hdrs w'. split; [reflexivity|].
  apply (sort_data_resolves_first_positions (fun _ => "") "S" hdrs w w').
  reflexivity.
Defined.


Lemma sort_data_keys_fit_rows_witness :
  let w := snd (add_data "S" (PList [PList [PStr "b"; PInt 2];
                                     PList [PStr "a"; PInt 10]])
             (snd (add_headers "S" (PList [PStr "Name"; PStr "Size"])
                     new_wrapper))) in
  let w' := snd (sort_data (fun _ => "") "S" (PStr "Size") w) in
  natural_sort_multiple_columns (fun _ => "") (rows_of w' "S") [1]
    = Ok [[PStr "b"; PInt 2]; [PStr "a"; PInt 10]] /\
  exists keys,
    keys_of w' "S" = Some keys /\
    Forall (fun row =>
              Forall (fun key => exists v, py_index row key = Ok v) keys)
           (rows_of w' "S") /\
    natural_sort_multiple_columns (fun _ => "") (rows_of w' "S") keys
      <> Err IndexError /\
    (Forall (fun row => forallb plain_cell row = true) (rows_of w' "S") ->
     exists sorted,
       natural_sort_multiple_columns (fun _ => "") (rows_of w' "S") keys
         = Ok sorted).
Proof.
  intros w w'. split; [vm_compute; reflexivity|].
  apply (sort_data_keys_fit_rows (fun _ => "") "S" (PStr "Size") w w').
  - reflexivity.
  - repeat constructor.
Defined.

(** ** The formatting registries *)

(** X14.  [format_cells] always returns and appends the rule to the list
    kept for that header of that sheet; the rules of every other header
    and sheet are unchanged.  Neither the sheet nor the header is looked
    up in the store, which is left as it was. *)
Theorem format_cells_accumulates : forall sheet_name header rule bg_color w,
  exists w',
    format_cells sheet_name header rule bg_color w = (Ok tt, w') /\
    cell_rules_of w' sheet_name header
      = (cell_rules_of w sheet_name header ++ [mk_cell_rule rule bg_color])%list /\
    (forall s h, s <> sheet_name \/ h <> header ->
                 cell_rules_of w' s h = cell_rules_of w s h) /\
    output_data w' = output_data w.
Proof.
  intros sheet_name header rule bg_color w. eexists.
  split; [reflexivity|]. split; [|split; [|reflexivity]].
  - unfold cell_rules_of. simpl. rewrite !assoc_dict_set_same.
    now destruct (assoc sheet_name (cell_styles w)).
  - intros s h Hdiff. unfold cell_rules_of. simpl.
    destruct (String.eqb_spec s sheet_name) as [->|Hs].
    + rewrite assoc_dict_set_same.
      destruct Hdiff as [Hs|Hh]; [contradiction|].
      rewrite (assoc_dict_set_other _ _ _ _ Hh).
      destruct (assoc sheet_name (cell_styles w)); reflexivity.
    + now rewrite (assoc_dict_set_other _ _ _ _ Hs).
Qed.

Lemma add_table_rules_store : forall sheet_name d rules,
  preserves (fun w => output_data w = d) (add_table_rules sheet_name rules).
Proof.
  intros sheet_name d. induction rules as [|rule rules IH];
    cbn [add_table_rules].
  - auto with store.
  - destruct rule; auto with store.
    destruct (negb (truthy (dict_get l "formula") &&
                    truthy (dict_get l "bg_color"))).
    + apply preserves_bind; [|intros _; exact IH].
      apply preserves_modify. auto.
    + destruct (dict_get l "bg_color"); auto with store.
      apply preserves_bind; [apply preserves_lift|intros r].
      apply preserves_bind; [|intros _; exact IH].
      apply preserves_modify. auto.
Qed.

Lemma add_table_rules_other_sheets : forall sheet_name name l rules,
  name <> sheet_name ->
  preserves (fun w => styles_of w name = l) (add_table_rules sheet_name rules).
Proof.
  intros sheet_name name l rules Hne. induction rules as [|rule rules IH];
    cbn [add_table_rules].
  - auto with store.
  - destruct rule; auto with store.
    destruct (negb (truthy (dict_get l0 "formula") &&
                    truthy (dict_get l0 "bg_color"))).
    + apply preserves_bind; [|intros _; exact IH].
      apply preserves_modify. auto.
    + destruct (dict_get l0 "bg_color"); auto with store.
      apply preserves_bind; [apply preserves_lift|intros r].
      apply preserves_bind; [|intros _; exact IH].
      apply preserves_modify. intros w Hw. unfold styles_of in *. simpl.
      now rewrite (assoc_dict_set_other _ _ _ _ Hne).
Qed.

(** X15.  The formatting methods never touch the table store: whatever
    their arguments, and whether [conditional_format] returns or raises,
    [output_data] is the same afterwards, so no sheet is created and no
    name is checked.  [conditional_format] on one sheet also leaves the
    table rules of every other sheet as they were. *)
Theorem formatting_leaves_store_alone : forall sheet_name w,
  (forall rules,
     output_data (snd (conditional_format sheet_name rules w)) = output_data w) /\
  (forall rules name,
     name <> sheet_name ->
     styles_of (snd (conditional_format sheet_name rules w)) name
       = styles_of w name) /\
  (forall header rule bg_color,
     output_data (snd (format_cells sheet_name header rule bg_color w))
       = output_data w) /\
  (forall column_name,
     output_data (snd (freeze_column_after sheet_name column_name w))
       = output_data w).
Proof.
  intros sheet_name w. split; [|split; [|split]]; try reflexivity.
  - intros rules. unfold conditional_format.
    destruct rules; try reflexivity.
    destruct (forallb is_dict l); [|reflexivity].
    apply (preserves_bind (fun w' => output_data w' = output_data w));
      [| |reflexivity].
    + apply preserves_modify. auto.
    + intros _. apply add_table_rules_store.
  - intros rules name Hne. unfold conditional_format.
    destruct rules; try reflexivity.
    destruct (forallb is_dict l); [|reflexivity].
    apply (preserves_bind (fun w' => styles_of w' name = styles_of w name));
      [| |reflexivity].
    + apply preserves_modify. intros w0 Hw0. rewrite <- Hw0.
      unfold styles_of, setdefault_nil. simpl.
      destruct (assoc sheet_name (table_styles w0)) eqn:E; [reflexivity|].
      rewrite (assoc_app_new sheet_name name _ _ E).
      apply String.eqb_neq in Hne. now rewrite Hne.
    + intros _. now apply add_table_rules_other_sheets.
Qed.

(** ** [_autosize_columns] *)

Section Autosize.

Variable py_repr : pyval -> string.

Lemma fold_cell_max_length : forall cells m,
  forallb scalar cells = true ->
  fold_left (cell_max_length py_repr) cells m = Nat.max m (longest_text cells).
Proof.
  induction cells as [|v cells IH]; intros m H; simpl in *.
  - now rewrite Nat.max_0_r.
  - apply andb_true_iff in H as [Hv Hcells]. rewrite (IH _ Hcells).
    destruct v; try discriminate; unfold cell_max_length; cbn [py_len py_str];
      try (now destruct (Nat.ltb m _)).
    destruct (Nat.ltb_spec m (String.length s)); lia.
Qed.

Lemma pad_none_app : forall n row,
  pad_none n row = (row ++ repeat PNone (n - List.length row))%list.
Proof.
  induction n as [|n IH]; intros row.
  - simpl. now rewrite app_nil_r.
  - destruct row as [|v row]; cbn [pad_none List.length app].
    + rewrite IH. simpl. now rewrite Nat.sub_0_r.
    + now rewrite IH.
Qed.

Lemma row_within_max_column : forall ws row,
  In row (ws_rows ws) -> Z.of_nat (List.length row) <= max_column ws.
Proof.
  intros ws row Hin. unfold max_column.
  assert (H : Z.of_nat (List.length row)
              <= fold_right (fun row m => Z.max (Z.of_nat (List.length row)) m)
                            0 (ws_rows ws)).
  { induction (ws_rows ws) as [|r rows IH]; [contradiction|].
    simpl. destruct Hin as [->|Hin]; [lia|]. specialize (IH Hin). lia. }
  lia.
Qed.

(** Iterating the columns adds empty cells to the rows and changes no
    cell. *)
Lemma materialized_extends : forall ws,
  Forall2 (fun row row' => exists k, row' = (row ++ repeat PNone k)%list)
          (ws_rows ws) (materialized ws).
Proof.
  intros ws. unfold materialized.
  destruct (ws_rows ws) as [|r rows] eqn:E; [constructor|].
  rewrite <- E. clear E r rows.
  rewrite <- (firstn_skipn (Z.to_nat (max_row ws)) (ws_rows ws)) at 1.
  apply Forall2_app.
  - induction (firstn (Z.to_nat (max_row ws)) (ws_rows ws)) as [|r l IH];
      constructor; [|exact IH].
    rewrite pad_none_app. now eexists.
  - induction (skipn (Z.to_nat (max_row ws)) (ws_rows ws)) as [|r l IH];
      constructor; [|exact IH].
    exists O. simpl. now rewrite app_nil_r.
Qed.

Lemma firstn_map_firstn_skipn : forall {A : Type} (f : A -> A) h (l : list A),
  firstn h (map f (firstn h l) ++ skipn h l) = map f (firstn h l).
Proof.
  intros A f h l. rewrite firstn_app, length_map, length_firstn.
  rewrite firstn_all2 by (rewrite length_map, length_firstn; lia).
  destruct (Nat.le_ge_cases h (List.length l)) as [Hle|Hge].
  - replace (h - Nat.min h (List.length l))%nat with O by lia.
    simpl. apply app_nil_r.
  - rewrite skipn_all2 by exact Hge. rewrite firstn_nil. apply app_nil_r.
Qed.

Lemma materialized_rectangle : forall ws,
  Forall (fun row' => List.length row' = Z.to_nat (max_column ws))
         (firstn (Z.to_nat (max_row ws)) (materialized ws)).
Proof.
  intros ws. unfold materialized.
  destruct (ws_rows ws) as [|r rows] eqn:E.
  - rewrite firstn_nil. constructor.
  - rewrite <- E. rewrite firstn_map_firstn_skipn.
    apply Forall_forall. intros row' Hrow'.
    apply in_map_iff in Hrow' as (row & <- & Hrow).
    assert (Hin : Z.of_nat (List.length row) <= max_column ws).
    { apply row_within_max_column.
      rewrite <- (firstn_skipn (Z.to_nat (max_row ws)) (ws_rows ws)).
      apply in_or_app. now left. }
    rewrite pad_none_app, length_app, repeat_length. lia.
Qed.

(** X16.  [_autosize_columns] on a sheet whose cells are None, booleans,
    integers or strings.  The [max_length] it computes for a column is the
    length of the longest string of the column: [len] of the other values
    raises inside the suppressed block, so they never widen a column,
    whatever their printed length.  The values of the cells, the title, the
    tables, the conditional formats and the panes are left as they are;
    the cells that the rows 1 to [max_row] lack up to [max_column] are
    created, empty. *)
Theorem autosize_measures_strings_only : forall ws,
  ws_rows ws <> [] ->
  Forall (fun row => forallb scalar row = true) (ws_rows ws) ->
  column_max_length (_autosize_columns py_repr ws)
    = (map (fun j => longest_text (column_cells ws j))
           (seq 0 (Z.to_nat (max_column ws)))
       ++ skipn (Z.to_nat (max_column ws)) (column_max_length ws))%list /\
  Forall2 (fun row row' => exists k, row' = (row ++ repeat PNone k)%list)
          (ws_rows ws) (ws_rows (_autosize_columns py_repr ws)) /\
  Forall (fun row' => List.length row' = Z.to_nat (max_column ws))
         (firstn (Z.to_nat (max_row ws))
                 (ws_rows (_autosize_columns py_repr ws))) /\
  title (_autosize_columns py_repr ws) = title ws /\
  tables (_autosize_columns py_repr ws) = tables ws /\
  conditional_formatting (_autosize_columns py_repr ws)
    = conditional_formatting ws /\
  freeze_panes (_autosize_columns py_repr ws) = freeze_panes ws.
Proof.
  intros ws Hne Hrows.
  split; [|split; [apply materialized_extends|
           split; [apply materialized_rectangle|repeat split]]].
  unfold _autosize_columns. cbn [column_max_length].
  destruct (ws_rows ws) as [|r rows] eqn:E; [contradiction|].
  rewrite <- E in Hrows. f_equal.
  apply map_ext. intros j. rewrite fold_cell_max_length; [reflexivity|].
  unfold column_cells, ws_column.
  apply forallb_forall. intros v Hv.
  assert (Hv' : In v (map (fun row => nth j row PNone) (ws_rows ws))).
  { rewrite <- (firstn_skipn (Z.to_nat (max_row ws))
                             (map (fun row => nth j row PNone) (ws_rows ws))).
    apply in_or_app. now left. }
  apply in_map_iff in Hv' as (row & <- & Hrow).
  rewrite Forall_forall in Hrows. specialize (Hrows row Hrow).
  destruct (nth_in_or_default j row PNone) as [Hin | ->]; [|reflexivity].
  rewrite forallb_forall in Hrows. now apply Hrows.
Qed.

End Autosize.

Lemma autosize_measures_strings_only_witness :
  let ws := mk_worksheet "S"
              [[PStr "Name"; PStr "Size"; PStr "Zone"];
               [PStr "alpha"; PInt 123456789];
               [PNone; PBool true; PStr "eu"; PStr "extra"];
               []] [] [] [] None in
  column_max_length (_autosize_columns (fun _ => "") ws)
    = [5%nat; 4%nat; 4%nat; 5%nat] /\
  ws_rows (_autosize_columns (fun _ => "") ws)
    = [[PStr "Name"; PStr "Size"; PStr "Zone"; PNone];
       [PStr "alpha"; PInt 123456789; PNone; PNone];
       [PNone; PBool true; PStr "eu"; PStr "extra"];
       []] /\
  column_max_length (_autosize_columns (fun _ => "") ws)
    = (map (fun j => longest_text (column_cells ws j))
           (seq 0 (Z.to_nat (max_column ws)))
       ++ skipn (Z.to_nat (max_column ws)) (column_max_length ws))%list.
Proof.
  intros ws. split; [reflexivity|]. split; [reflexivity|].
  apply (autosize_measures_strings_only (fun _ => "") ws).
  - discriminate.
  - repeat constructor.
Defined.

(** ** The worksheet that export builds *)

Lemma fold_append_fields : forall merged ws,
  let ws' := fold_left (fun ws item => ws_append item ws) merged ws in
  ws_rows ws' = (ws_rows ws ++ merged)%list /\
  tables ws' = tables ws /\
  conditional_formatting ws' = conditional_formatting ws /\
  freeze_panes ws' = freeze_panes ws.
Proof.
  induction merged as [|item merged IH]; intros ws; simpl.
  - rewrite app_nil_r. auto.
  - destruct (IH (ws_append item ws)) as (A & B & C & D).
    rewrite A, B, C, D. simpl. rewrite <- app_assoc. auto.
Qed.

Lemma fold_formats_fields : forall range styles ws,
  let ws' := fold_left (fun ws style =>
                          add_conditional_formatting range style ws)
                       styles ws in
  ws_rows ws' = ws_rows ws /\
  tables ws' = tables ws /\
  conditional_formatting ws'
    = (conditional_formatting ws ++ map (pair range) styles)%list /\
  freeze_panes ws' = freeze_panes ws.
Proof.
  intros range. induction styles as [|style styles IH]; intros ws; simpl.
  - rewrite app_nil_r. auto.
  - destruct (IH (add_conditional_formatting range style ws)) as (A & B & C & D).
    rewrite A, B, C, D. simpl. rewrite <- app_assoc. auto.
Qed.

Lemma max_column_rectangular : forall ws n,
  ws_rows ws <> [] -> (0 < n)%nat ->
  Forall (fun row => List.length row = n) (ws_rows ws) ->
  max_column ws = Z.of_nat n.
Proof.
  intros ws n Hne Hn Hrows. unfold max_column.
  assert (H : fold_right (fun row m => Z.max (Z.of_nat (List.length row)) m)
                         0 (ws_rows ws) = Z.of_nat n).
  { induction (ws_rows ws) as [|row rows IH]; [contradiction|].
    inversion Hrows as [|? ? Hrow Hrows']; subst. simpl.
    destruct rows as [|row' rows']; [simpl; lia|].
    rewrite IH; [lia | discriminate | exact Hrows']. }
  rewrite H. lia.
Qed.

Lemma last_row_of_full_rows : forall rows i,
  rows <> [] -> 0 < i ->
  Forall (fun row => row <> []) rows ->
  last_row_with_cells i rows = i + Z.of_nat (List.length rows) - 1.
Proof.
  induction rows as [|row rows IH]; intros i Hne Hi Hrows; [contradiction|].
  inversion Hrows as [|? ? Hrow Hrows']; subst.
  cbn [last_row_with_cells]. destruct rows as [|row' rows'].
  - simpl. destruct row; [contradiction | lia].
  - rewrite (IH (i + 1)); [|discriminate | lia | exact Hrows'].
    destruct (Z.ltb_spec 0 (i + 1 + Z.of_nat (List.length (row' :: rows')) - 1));
      simpl List.length in *; lia.
Qed.

Lemma pad_none_full : forall row, pad_none (List.length row) row = row.
Proof.
  intros row. rewrite pad_none_app, Nat.sub_diag. apply app_nil_r.
Qed.

(** Iterating the columns of a sheet whose rows have one length creates no
    cell. *)
Lemma materialized_rectangular : forall ws n,
  ws_rows ws <> [] -> (0 < n)%nat ->
  Forall (fun row => List.length row = n) (ws_rows ws) ->
  materialized ws = ws_rows ws.
Proof.
  intros ws n Hne Hn Hrows.
  pose proof (max_column_rectangular ws n Hne Hn Hrows) as Hwidth.
  unfold materialized. rewrite Hwidth, Nat2Z.id.
  destruct (ws_rows ws) as [|r rows] eqn:E; [reflexivity|].
  rewrite <- E in *. clear E r rows.
  rewrite <- (firstn_skipn (Z.to_nat (max_row ws)) (ws_rows ws)) at 3.
  f_equal.
  assert (H : Forall (fun row => List.length row = n)
                     (firstn (Z.to_nat (max_row ws)) (ws_rows ws))).
  { apply Forall_forall. intros row Hrow. rewrite Forall_forall in Hrows.
    apply Hrows.
    rewrite <- (firstn_skipn (Z.to_nat (max_row ws)) (ws_rows ws)).
    apply in_or_app. now left. }
  induction H as [|row l Hrow _ IH]; simpl; [reflexivity|].
  rewrite IH. f_equal. rewrite <- Hrow. apply pad_none_full.
Qed.

Lemma find_header_from : forall name cells i c,
  find_header name i cells = Some c -> i <= c.
Proof.
  intros name. induction cells as [|v cells IH]; intros i c H; simpl in H.
  - discriminate.
  - destruct (py_eqb v (PStr name)).
    + inversion H. lia.
    + apply IH in H. lia.
Qed.

(** What [_freeze_columns] does to a sheet that has a non-empty first row
    and no pane yet. *)
Lemma freeze_columns_spec : forall ws w ws' w' hdr rest,
  _freeze_columns ws w = (Ok ws', w') ->
  ws_rows ws = hdr :: rest -> hdr <> [] -> freeze_panes ws = None ->
  max_column ws = Z.of_nat (List.length hdr) ->
  exists first_row,
    ws_rows ws' = first_row :: rest /\
    frozen_at (assoc (title ws) (frozen_columns w)) hdr first_row
              (freeze_panes ws') /\
    tables ws' = tables ws /\
    conditional_formatting ws' = conditional_formatting ws.
Proof.
  intros ws w ws' w' hdr rest H Hrows Hne Hpanes Hwidth.
  unfold _freeze_columns, bind, get, ret, raise, lift_loop in H.
  destruct (assoc (title ws) (frozen_columns w)) as [name|].
  - rewrite Hrows, Hwidth, Nat2Z.id, pad_none_full in H.
    destruct (find_header name 1 hdr) as [c|] eqn:Hc; [|discriminate].
    destruct (_col_to_excel (c + 1)) as [letters|] eqn:Hl; [|discriminate].
    inversion H; subst ws' w'. clear H.
    exists (pad_none (Z.to_nat (c + 1)) hdr). simpl.
    split; [reflexivity|]. split; [|auto].
    exists c. split; [exact Hc|]. split; [reflexivity|].
    assert (HA : letters <> "A").
    { intros ->. apply col_to_excel_A in Hl.
      apply find_header_from in Hc. lia. }
    rewrite (coordinate_not_A1 _ HA). unfold cell_coordinate. now rewrite Hl.
  - inversion H; subst ws' w'. exists hdr. simpl. auto.
Qed.

Lemma col_letters_ok : forall col letters,
  col_letters col = Ok letters -> _col_to_excel col = Some letters.
Proof.
  intros col letters H. unfold col_letters in H.
  destruct (_col_to_excel col); now inversion H.
Qed.

Lemma apply_cell_rules_spec : forall hdrs max_row header cell_rules ws ws',
  apply_cell_rules hdrs max_row header cell_rules ws = Ok ws' ->
  exists entries,
    conditional_formatting ws' = (conditional_formatting ws ++ entries)%list /\
    Forall2 (header_entry hdrs max_row) (map (pair header) cell_rules) entries /\
    ws_rows ws' = ws_rows ws /\ tables ws' = tables ws /\
    freeze_panes ws' = freeze_panes ws.
Proof.
  intros hdrs max_row header.
  induction cell_rules as [|rule cell_rules IH]; intros ws ws' H;
    cbn [apply_cell_rules] in H.
  - inversion H; subst. exists []. rewrite app_nil_r.
    repeat split; auto; constructor.
  - destruct (list_index (PStr header) hdrs) as [i|] eqn:Hi; simpl in H;
      [|discriminate].
    destruct (col_letters (i + 1)) as [col|] eqn:Hcol; simpl in H;
      [|discriminate].
    destruct (expression_rule _ _) as [r|] eqn:Hrule; simpl in H;
      [|discriminate].
    apply expression_rule_ok in Hrule. subst r.
    destruct (IH _ _ H) as (entries & Hcf & Hent & Hr & Ht & Hf).
    eexists (_ :: entries). simpl in Hcf. rewrite <- app_assoc in Hcf.
    split; [exact Hcf|]. split; [|auto].
    constructor; [|exact Hent].
    exists i, col. split; [now apply list_index_first|].
    split; [now apply col_letters_ok | reflexivity].
Qed.

Lemma apply_cell_styles_spec : forall hdrs max_row styles ws ws',
  apply_cell_styles hdrs max_row styles ws = Ok ws' ->
  exists entries,
    conditional_formatting ws' = (conditional_formatting ws ++ entries)%list /\
    Forall2 (header_entry hdrs max_row) (flat_cell_rules styles) entries /\
    ws_rows ws' = ws_rows ws /\ tables ws' = tables ws /\
    freeze_panes ws' = freeze_panes ws.
Proof.
  intros hdrs max_row.
  induction styles as [|[header cell_rules] styles IH]; intros ws ws' H;
    simpl in H.
  - inversion H; subst. exists []. rewrite app_nil_r.
    repeat split; auto; constructor.
  - destruct (apply_cell_rules hdrs max_row header cell_rules ws) as [ws1|] eqn:E;
      simpl in H; [|discriminate].
    destruct (apply_cell_rules_spec _ _ _ _ _ _ E) as (e1 & C1 & F1 & R1 & T1 & P1).
    destruct (IH _ _ H) as (e2 & C2 & F2 & R2 & T2 & P2).
    exists (e1 ++ e2)%list. rewrite C2, C1, <- app_assoc.
    split; [reflexivity|]. split; [|repeat split; congruence].
    unfold flat_cell_rules. simpl. apply Forall2_app; assumption.
Qed.

Lemma merge_rows_inv : forall header_count rows r,
  merge_rows header_count rows = Ok r ->
  r = rows /\ Forall (fun row => List.length row = header_count) rows.
Proof.
  intros header_count. induction rows as [|row rows IH]; intros r H;
    simpl in H.
  - inversion H. auto.
  - destruct (Nat.eqb_spec header_count (List.length row)) as [E|E];
      simpl in H; [|discriminate].
    destruct (merge_rows header_count rows) as [r'|] eqn:Hr; simpl in H;
      [|discriminate].
    inversion H; subst r. destruct (IH r' eq_refl) as [-> Hall].
    split; [reflexivity | constructor; auto].
Qed.

Lemma merge_data_inv : forall sheet_name w merged w' sh,
  _merge_data sheet_name w = (Ok merged, w') ->
  assoc sheet_name (output_data w) = Some sh ->
  headers sh <> [] /\
  Forall (fun row => List.length row = List.length (headers sh)) (data sh) /\
  merged = headers sh :: data sh /\ w' = w.
Proof.
  intros sheet_name w merged w' sh H Hsh.
  unfold _merge_data, bind, get, lift, ret, raise in H. rewrite Hsh in H.
  destruct (Nat.eqb_spec (List.length (headers sh)) 0) as [E|E];
    [discriminate|].
  destruct (merge_rows (List.length (headers sh)) (data sh)) as [r|] eqn:Hr;
    [|discriminate].
  inversion H; subst merged w'. destruct (merge_rows_inv _ _ _ Hr) as [-> Hall].
  repeat split; auto. intros Hnil. rewrite Hnil in E. now apply E.
Qed.

Lemma set_data_same : forall sh, set_data (data sh) sh = sh.
Proof. now intros []. Qed.

Section ExportShape.

Variable py_repr : pyval -> string.

Lemma sort_step_spec : forall sheet_name (sk : option (list Z)) rows w w1 sh,
  assoc sheet_name (output_data w) = Some sh ->
  match sk with
  | Some (k :: keys) =>
      do sorted <- lift (natural_sort_multiple_columns py_repr rows
                                                       (k :: keys)) ;;
      update_sheet sheet_name (set_data sorted)
  | _ => ret tt
  end w = (Ok tt, w1) ->
  exists sorted,
    match sk with
    | Some (k :: keys) =>
        natural_sort_multiple_columns py_repr rows (k :: keys) = Ok sorted /\
        assoc sheet_name (output_data w1) = Some (set_data sorted sh)
    | _ => sorted = rows /\ w1 = w
    end /\
    same_elsewhere sheet_name w w1.
Proof.
  intros sheet_name sk rows w w1 sh Hsh H.
  destruct sk as [[|k keys]|];
    try (inversion H; subst; exists rows; split;
         [split; reflexivity | apply same_elsewhere_refl]).
  apply bind_ok in H as (sorted & w2 & H1 & H2).
  apply lift_ok in H1 as [Hsorted ->].
  rewrite (update_sheet_ok _ _ _ _ Hsh) in H2. inversion H2; subst w1.
  exists sorted. split; [split; [exact Hsorted|]|].
  - simpl. apply assoc_dict_set_same.
  - repeat split. intros name Hne. simpl. now apply assoc_dict_set_other.
Qed.

(** One turn of the export loop on a sheet that has rows. *)
Lemma export_sheet_rendered : forall wb sheet_name w wb1 w1 sh,
  export_sheet py_repr wb sheet_name w = (Ok wb1, w1) ->
  assoc sheet_name (output_data w) = Some sh ->
  data sh <> [] ->
  exists sorted ws,
    wb1 = (wb ++ [ws])%list /\
    assoc sheet_name (output_data w1) = Some (set_data sorted sh) /\
    rendered py_repr sheet_name sh (table_style w)
             (match assoc sheet_name (cell_styles w) with
              | Some d => d
              | None => []
              end)
             (styles_of w sheet_name)
             (assoc sheet_name (frozen_columns w))
             sorted ws /\
    same_elsewhere sheet_name w w1.
Proof.
  intros wb sheet_name w wb1 w1 sh H Hsh Hdata. unfold export_sheet in H.
  apply bind_ok in H as (sh0 & w0 & Hitem & H).
  apply sheet_item_inv in Hitem as [Hsh0 ->].
  rewrite Hsh in Hsh0. inversion Hsh0; subst sh0. clear Hsh0.
  destruct (data sh) as [|row rows] eqn:Erows; [contradiction|].
  rewrite <- Erows in H. cbv zeta in H.
  apply bind_ok in H as ([] & ws & Hsort & H).
  destruct (sort_step_spec _ _ _ _ _ _ Hsh Hsort) as (sorted & Hsorted & Hsame).
  assert (Hsh1 : assoc sheet_name (output_data ws) = Some (set_data sorted sh)).
  { destruct (sort_keys sh) as [[|k keys]|]; try apply Hsorted;
      destruct Hsorted as [-> ->]; now rewrite set_data_same. }
  assert (Hsfe : sorted_for_export py_repr sh sorted).
  { unfold sorted_for_export.
    destruct (sort_keys sh) as [[|k keys]|]; apply Hsorted. }
  clear Hsort Hsorted.
  destruct Hsame as (Helse & Hts & Htss & Hcs & Hfc & Hout).
  apply bind_ok in H as (merged & w2 & Hm & H).
  destruct (merge_data_inv _ _ _ _ _ Hm Hsh1) as (Hhdr & Hlens & -> & ->).
  cbn [set_data headers data] in Hhdr, Hlens, H. clear Hm.
  apply bind_ok in H as (max_col & w2 & Hc & H).
  apply lift_ok in Hc as [Hc ->]. apply col_letters_ok in Hc.
  apply bind_ok in H as (w3 & w2 & Hg & H).
  unfold get in Hg. inversion Hg; subst w3 w2. clear Hg.
  apply bind_ok in H as (sh' & w2 & Hsh' & H).
  apply sheet_item_inv in Hsh' as [Hsh' ->].
  rewrite Hsh1 in Hsh'. inversion Hsh'; subst sh'. clear Hsh'.
  cbn [set_data headers] in H.
  apply bind_ok in H as (ws3 & w2 & Hs & H).
  apply lift_ok in Hs as [Hs ->].
  apply bind_ok in H as (ws5 & w2 & Hf & H).
  unfold ret in H. inversion H; subst wb1 w1. clear H.
  (* the sheet after the rows have been appended *)
  set (ws1 := fold_left (fun ws item => ws_append item ws)
                        (headers sh :: sorted) (create_sheet sheet_name)) in *.
  destruct (fold_append_fields (headers sh :: sorted) (create_sheet sheet_name))
    as (R1 & T1 & C1 & P1).
  fold ws1 in R1, T1, C1, P1. simpl in R1, T1, C1, P1.
  assert (Hlenpos : (0 < List.length (headers sh))%nat).
  { destruct (headers sh); [contradiction | simpl; lia]. }
  assert (Hmaxcol : max_column ws1 = Z.of_nat (List.length (headers sh))).
  { apply max_column_rectangular; [rewrite R1; discriminate | exact Hlenpos|].
    rewrite R1. constructor; [reflexivity | exact Hlens]. }
  assert (Hmaxrow : max_row ws1 = Z.of_nat (S (List.length sorted))).
  { unfold max_row. rewrite R1.
    rewrite last_row_of_full_rows; [simpl List.length; lia | discriminate | lia |].
    constructor; [exact Hhdr|].
    apply Forall_impl with (2 := Hlens). intros r Hr Hnil.
    rewrite Hnil in Hr. simpl in Hr. lia. }
  rewrite Hmaxcol in Hc. rewrite Hmaxrow in Hs, Hf.
  destruct (apply_cell_styles_spec _ _ _ _ _ Hs) as (entries & C3 & F3 & R3 & T3 & P3).
  cbn [add_table conditional_formatting ws_rows tables freeze_panes] in C3, R3, T3, P3.
  match type of Hf with
  | _freeze_columns ?x _ = _ => set (ws4 := x) in *
  end.
  destruct (fold_formats_fields
              ("A2:" ++ max_col ++ string_of_Z (Z.of_nat (S (List.length sorted))))
              (match assoc sheet_name (table_styles ws) with
               | Some l => l
               | None => []
               end) ws3) as (R4 & T4 & C4 & P4).
  assert (Hrows3 : ws_rows ws3 = headers sh :: sorted) by congruence.
  assert (Hrows4 : ws_rows ws4 = headers sh :: sorted).
  { unfold ws4, _autosize_columns. cbn [ws_rows].
    rewrite (materialized_rectangular _ (List.length (headers sh)));
      [congruence | rewrite R4, Hrows3; discriminate | exact Hlenpos |].
    rewrite R4, Hrows3. constructor; [reflexivity | exact Hlens]. }
  assert (Hmaxcol4 : max_column ws4 = Z.of_nat (List.length (headers sh))).
  { apply max_column_rectangular;
      [rewrite Hrows4; discriminate | exact Hlenpos |].
    rewrite Hrows4. constructor; [reflexivity | exact Hlens]. }
  assert (Hpanes4 : freeze_panes ws4 = None)
    by (unfold ws4, _autosize_columns; cbn [freeze_panes]; congruence).
  assert (Htitle4 : title ws4 = sheet_name).
  { unfold ws4, _autosize_columns. cbn [title].
    rewrite title_fold_formats, (title_apply_cell_styles _ _ _ _ _ Hs).
    cbn [add_table title]. unfold ws1. now rewrite title_fold_append. }
  destruct (freeze_columns_spec _ _ _ _ _ _ Hf Hrows4 Hhdr Hpanes4 Hmaxcol4)
    as (first_row & R5 & F5 & T5 & C5).
  destruct (freeze_columns_inv _ _ _ _ Hf) as [Ew Htitle5]. subst w2.
  exists sorted, ws5. split; [reflexivity|]. split; [exact Hsh1|].
  split; [|repeat split; assumption].
  exists max_col, first_row, entries.
  split; [exact Hsfe|]. split; [exact Hhdr|]. split; [exact Hlens|].
  split; [exact Hc|]. split; [congruence|]. split; [exact R5|].
  split; [|split; [|split]].
  - rewrite T5. unfold ws4, _autosize_columns. cbn [tables].
    rewrite T4, T3, T1, Hts. reflexivity.
  - rewrite C5. unfold ws4, _autosize_columns. cbn [conditional_formatting].
    rewrite C4, C3, C1. unfold styles_of. rewrite Htss. reflexivity.
  - rewrite <- Hcs. exact F3.
  - rewrite <- Hfc, <- Htitle4. exact F5.
Qed.

End ExportShape.

Section ExportLoop.

Variable py_repr : pyval -> string.

Lemma export_sheet_empty : forall wb sheet_name w sh,
  assoc sheet_name (output_data w) = Some sh ->
  data sh = [] ->
  export_sheet py_repr wb sheet_name w
    = (Ok wb, set_stdout (stdout w ++ [sheet_name ++ ": No Data Found"]) w).
Proof.
  intros wb sheet_name w sh Hsh Hdata. unfold export_sheet.
  unfold bind at 1. rewrite (sheet_item_ok _ _ _ Hsh), Hdata. reflexivity.
Qed.

Lemma exported_transport : forall w w2 w1 ws,
  exported py_repr w2 w1 ws ->
  assoc (title ws) (output_data w2) = assoc (title ws) (output_data w) ->
  table_style w2 = table_style w ->
  table_styles w2 = table_styles w ->
  cell_styles w2 = cell_styles w ->
  frozen_columns w2 = frozen_columns w ->
  exported py_repr w w1 ws.
Proof.
  intros w w2 w1 ws (sh & sorted & Hsh & Hdata & Hsh1 & Hr) Ha Ht Hts Hc Hf.
  exists sh, sorted. unfold styles_of in *.
  rewrite <- Ha, <- Ht, <- Hts, <- Hc, <- Hf. auto.
Qed.

(** The registries and the table style after the loop are those before
    it; the entries of the sheets outside [names] and of the sheets without
    rows are untouched; every new worksheet is the rendering of a sheet of
    [names]. *)
Lemma export_sheets_exported : forall names wb w wb1 w1,
  NoDup names ->
  export_sheets py_repr wb names w = (Ok wb1, w1) ->
  exists new,
    wb1 = (wb ++ new)%list /\
    Forall (fun ws => In (title ws) names /\ exported py_repr w w1 ws) new /\
    (forall n, ~ In n names ->
               assoc n (output_data w1) = assoc n (output_data w)) /\
    (forall n, has_data w n = false ->
               assoc n (output_data w1) = assoc n (output_data w)) /\
    table_style w1 = table_style w /\
    table_styles w1 = table_styles w /\
    cell_styles w1 = cell_styles w /\
    frozen_columns w1 = frozen_columns w.
Proof.
  induction names as [|name names IH]; intros wb w wb1 w1 Hnd H.
  - inversion H; subst. exists []. rewrite app_nil_r.
    repeat split; auto.
  - cbn [export_sheets] in H.
    apply bind_ok in H as (wb2 & w2 & Hone & Hrest).
    inversion Hnd as [|? ? Hnotin Hnd']; subst.
    destruct (IH _ _ _ _ Hnd' Hrest)
      as (new & -> & Hnew & Hout & Hempty & Ht & Hts & Hc & Hf).
    pose proof Hone as Hitem. unfold export_sheet in Hitem.
    apply bind_ok in Hitem as (sh & w0 & Hsh & _).
    apply sheet_item_inv in Hsh as [Hsh _].
    destruct (data sh) as [|row rows] eqn:Hdata.
    + rewrite (export_sheet_empty _ _ _ _ Hsh Hdata) in Hone.
      inversion Hone; subst wb2 w2. clear Hone. simpl in *.
      exists new. split; [reflexivity|].
      split;
        [|repeat split; auto;
          intros n Hn; apply Hout; intros Hin; apply Hn; now right].
      apply Forall_impl with (2 := Hnew). intros ws [Hin Hex].
      split; [now right|].
      apply (exported_transport _ _ _ _ Hex); reflexivity.
    + destruct (export_sheet_rendered py_repr _ _ _ _ _ _ Hone Hsh)
        as (sorted & ws & -> & Hsh1 & Hr & Helse & Ht2 & Hts2 & Hc2 & Hf2 & _).
      { rewrite Hdata. discriminate. }
      exists (ws :: new). rewrite <- app_assoc. split; [reflexivity|].
      assert (Htitle : title ws = name).
      { destruct Hr as (l & f & e & _ & _ & _ & _ & Htitle & _). exact Htitle. }
      split; [constructor|]; [| |repeat split; try congruence].
      * split; [now left|]. exists sh, sorted. rewrite Htitle.
        repeat split; auto.
        -- rewrite Hdata. discriminate.
        -- rewrite (Hout name Hnotin). exact Hsh1.
      * apply Forall_impl with (2 := Hnew). intros ws' [Hin Hex].
        split; [now right|].
        apply (exported_transport _ _ _ _ Hex); auto.
        apply Helse. intros E. rewrite E in Hin. contradiction.
      * intros n Hn. rewrite Hout by (intros Hin; apply Hn; now right).
        apply Helse. intros ->. apply Hn. now left.
      * intros n Hn.
        assert (Hne : n <> name).
        { intros ->. unfold has_data, rows_of in Hn.
          rewrite Hsh, Hdata in Hn. discriminate. }
        rewrite Hempty; [now apply Helse|].
        rewrite <- Hn. apply has_data_ext. now apply Helse.
Qed.

(** What [export_excel] has done when it has saved a document. *)
Lemma export_excel_exported : forall w wb w',
  keys_distinct w ->
  export_excel py_repr w = (Ok (Some wb), w') ->
  Forall (exported py_repr w w') wb /\
  map title wb = filter (has_data w) (map fst (output_data w)) /\
  (forall n, has_data w n = false ->
             assoc n (output_data w') = assoc n (output_data w)) /\
  table_style w' = table_style w /\
  table_styles w' = table_styles w /\
  cell_styles w' = cell_styles w /\
  frozen_columns w' = frozen_columns w.
Proof.
  intros w wb w' Hnd H. unfold export_excel in H.
  apply bind_ok in H as (w0 & w1 & Hg & H).
  unfold get in Hg. inversion Hg; subst w0 w1. clear Hg.
  apply bind_ok in H as (wb1 & w1 & Hrun & H).
  destruct (export_sheets_exported _ _ _ _ _ Hnd Hrun)
    as (new & -> & Hnew & _ & Hempty & Hrest).
  destruct (export_sheets_spec py_repr _ _ _ _ _ Hnd Hrun) as [Htitles _].
  simpl in Htitles. simpl in H.
  destruct new as [|ws new].
  - apply bind_ok in H as (u & w2 & _ & H). discriminate.
  - unfold ret in H. inversion H; subst wb w'. clear H.
    split; [|split; [exact Htitles | split; [exact Hempty | exact Hrest]]].
    apply Forall_impl with (2 := Hnew). now intros ws' [_ Hex].
Qed.

End ExportLoop.

(** ** What an exported document holds *)


Lemma main_wrapper_distinct : keys_distinct (main_wrapper (fun _ => "")).
Proof. repeat constructor; simpl; intuition discriminate. Qed.

Section ExportFacts.

Variable py_repr : pyval -> string.

Lemma natural_sort_permutation : forall rows keys sorted,
  natural_sort_multiple_columns py_repr rows keys = Ok sorted ->
  Permutation rows sorted.
Proof.
  intros rows keys sorted H.
  unfold natural_sort_multiple_columns, list_sort in H.
  destruct (rmap (decorate (sort_key_of_row py_repr keys)) rows)
    as [dec|e] eqn:Hdec; simpl in H; [|discriminate].
  destruct (sort_decorated row_key_lt dec) as [r|e] eqn:Hr; simpl in H;
    [|discriminate].
  inversion H; subst sorted.
  destruct (rmap_decorate _ _ _ Hdec) as [Hrows _]. rewrite <- Hrows.
  apply Permutation_map. exact (sort_decorated_perm row_key_lt dec r Hr).
Qed.

Lemma sorted_for_export_permutation : forall sh sorted,
  sorted_for_export py_repr sh sorted -> Permutation (data sh) sorted.
Proof.
  intros sh sorted H. unfold sorted_for_export in H.
  destruct (sort_keys sh) as [[|k keys]|]; try (subst; apply Permutation_refl).
  exact (natural_sort_permutation _ _ _ H).
Qed.


(** X18.  Validation failures are fatal for the whole export: when a
    document is saved, every sheet of the store that has rows has a
    non-empty header list and only rows as long as it.  So one sheet with
    rows and no headers, or with a row of another length, leaves no
    document, whatever the other sheets hold. *)
Theorem export_needs_every_sheet_valid : forall w wb w',
  keys_distinct w ->
  export_excel py_repr w = (Ok (Some wb), w') ->
  forall sheet_name sh,
    assoc sheet_name (output_data w) = Some sh ->
    data sh <> [] ->
    headers sh <> [] /\
    Forall (fun row => List.length row = List.length (headers sh)) (data sh).
Proof.
  intros w wb w' Hnd H sheet_name sh Hsh Hdata.
  destruct (export_excel_exported py_repr _ _ _ Hnd H) as (Hex & Htitles & _).
  assert (Hin : In sheet_name (map title wb)).
  { rewrite Htitles. apply filter_In. split.
    - clear -Hsh. induction (output_data w) as [|[k v] d IH]; simpl in *;
        [discriminate|].
      destruct (String.eqb_spec sheet_name k); [now left | right; auto].
    - unfold has_data, rows_of. rewrite Hsh.
      destruct (data sh); [contradiction | reflexivity]. }
  apply in_map_iff in Hin as (ws & Htitle & Hws).
  rewrite Forall_forall in Hex.
  destruct (Hex ws Hws) as (sh' & sorted & Hsh' & _ & _ & letters & first_row
                            & entries & Hsfe & Hhdr & Hlens & _).
  rewrite Htitle, Hsh in Hsh'. inversion Hsh'; subst sh'.
  split; [exact Hhdr|].
  apply (Permutation_Forall
           (Permutation_sym (sorted_for_export_permutation _ _ Hsfe))).
  exact Hlens.
Qed.

(** X19.  Export sorts in place.  After an export that has saved a
    document, a sheet with a non-empty list of sort keys holds its rows in
    natural sort order in the store itself, and every other sheet holds its
    rows as before; headers and sort keys are unchanged, and so are the
    table style, the formatting rules and the freeze settings. *)
Theorem export_sorts_the_store : forall w wb w',
  keys_distinct w ->
  export_excel py_repr w = (Ok (Some wb), w') ->
  (forall sheet_name sh,
     assoc sheet_name (output_data w) = Some sh ->
     headers_of w' sheet_name = headers sh /\
     keys_of w' sheet_name = sort_keys sh /\
     sorted_for_export py_repr sh (rows_of w' sheet_name)) /\
  table_style w' = table_style w /\
  table_styles w' = table_styles w /\
  cell_styles w' = cell_styles w /\
  frozen_columns w' = frozen_columns w.
Proof.
  intros w wb w' Hnd H.
  destruct (export_excel_exported py_repr _ _ _ Hnd H)
    as (Hex & Htitles & Hempty & Hrest).
  split; [|exact Hrest].
  intros sheet_name sh Hsh.
  destruct (has_data w sheet_name) eqn:Hd.
  - assert (Hin : In sheet_name (map title wb)).
    { rewrite Htitles. apply filter_In. split; [|exact Hd].
      clear -Hsh. induction (output_data w) as [|[k v] d IH]; simpl in *;
        [discriminate|].
      destruct (String.eqb_spec sheet_name k); [now left | right; auto]. }
    apply in_map_iff in Hin as (ws & Htitle & Hws).
    rewrite Forall_forall in Hex.
    destruct (Hex ws Hws) as (sh' & sorted & Hsh' & _ & Hafter & letters
                              & first_row & entries & Hsfe & _).
    rewrite Htitle in Hsh', Hafter. rewrite Hsh in Hsh'.
    inversion Hsh'; subst sh'.
    unfold headers_of, keys_of, rows_of. rewrite Hafter. simpl. auto.
  - specialize (Hempty _ Hd).
    unfold headers_of, keys_of, rows_of. rewrite Hempty, Hsh.
    repeat split. unfold has_data, rows_of in Hd. rewrite Hsh in Hd.
    unfold sorted_for_export.
    destruct (data sh) eqn:Hdata; [|discriminate].
    destruct (sort_keys sh) as [[|k keys]|]; reflexivity.
Qed.



(** X22.  When no sheet of the store has a row, [export_excel] returns
    without a document and without raising: it prints one "No Data Found"
    line per sheet, in store order, then the "No Sheets Containing Data"
    line, and changes nothing else. *)
Theorem export_without_rows : forall w,
  (forall sheet_name, rows_of w sheet_name = []) ->
  export_excel py_repr w
    = (Ok None,
       set_stdout
         (stdout w ++
          map (fun name => (name ++ ": No Data Found")%string)
              (map fst (output_data w)) ++
          ["FATAL: No Sheets Containing Data - No Excel Doc Generated!"])%list
         w).
Proof.
  intros w Hempty.
  assert (Hloop : forall names w0,
            output_data w0 = output_data w ->
            incl names (map fst (output_data w)) ->
            export_sheets py_repr [] names w0
              = (Ok [],
                 set_stdout
                   (stdout w0 ++
                    map (fun name => (name ++ ": No Data Found")%string) names)
                   w0)).
  { induction names as [|name names IH]; intros w0 Hd Hincl.
    - simpl. rewrite app_nil_r. now destruct w0.
    - assert (Hsh : exists sh, assoc name (output_data w0) = Some sh).
      { rewrite Hd. assert (Hin : In name (map fst (output_data w)))
          by (apply Hincl; now left).
        clear -Hin. induction (output_data w) as [|[k v] d IHd]; simpl in *;
          [contradiction|].
        destruct (String.eqb_spec name k) as [|Hne]; [now eexists|].
        apply IHd. destruct Hin as [E|Hin]; [congruence | exact Hin]. }
      destruct Hsh as [sh Hsh].
      assert (Hdata : data sh = []).
      { specialize (Hempty name). unfold rows_of in Hempty.
        rewrite <- Hd, Hsh in Hempty. exact Hempty. }
      cbn [export_sheets]. unfold bind at 1.
      rewrite (export_sheet_empty py_repr _ _ _ _ Hsh Hdata).
      rewrite IH; [|exact Hd | intros n Hn; apply Hincl; now right].
      simpl. rewrite <- app_assoc. reflexivity. }
  unfold export_excel. unfold bind at 1. unfold get at 1.
  unfold bind at 1. rewrite (Hloop _ w eq_refl (incl_refl _)).
  unfold bind, print, modify, ret. simpl. now rewrite <- app_assoc.
Qed.

End ExportFacts.


Lemma export_needs_every_sheet_valid_witness :
  let w := main_wrapper (fun _ => "") in
  exists wb w',
    export_excel (fun _ => "") w = (Ok (Some wb), w') /\
    forall sheet_name sh,
      assoc sheet_name (output_data w) = Some sh ->
      data sh <> [] ->
      headers sh <> [] /\
      Forall (fun row => List.length row = List.length (headers sh)) (data sh).
Proof.
  intros w. eexists. eexists.
  split; [vm_compute; reflexivity|].
  eapply (export_needs_every_sheet_valid (fun _ => "") w);
    [exact main_wrapper_distinct | vm_compute; reflexivity].
Defined.

Lemma export_sorts_the_store_witness :
  let w := main_wrapper (fun _ => "") in
  exists wb w',
    export_excel (fun _ => "") w = (Ok (Some wb), w') /\
    rows_of w "Instances" = [[PStr "us-east-1"; PStr "i-xxxxx1"];
                             [PStr "eu-west-1"; PStr "i-xxxxx2"]] /\
    rows_of w' "Instances" = [[PStr "eu-west-1"; PStr "i-xxxxx2"];
                              [PStr "us-east-1"; PStr "i-xxxxx1"]] /\
    ((forall sheet_name sh,
        assoc sheet_name (output_data w) = Some sh ->
        headers_of w' sheet_name = headers sh /\
        keys_of w' sheet_name = sort_keys sh /\
        sorted_for_export (fun _ => "") sh (rows_of w' sheet_name)) /\
     table_style w' = table_style w /\
     table_styles w' = table_styles w /\
     cell_styles w' = cell_styles w /\
     frozen_columns w' = frozen_columns w).
Proof.
  intros w. eexists. eexists.
  split; [vm_compute; reflexivity|].
  split; [vm_compute; reflexivity|].
  split; [vm_compute; reflexivity|].
  eapply (export_sorts_the_store (fun _ => "") w);
    [exact main_wrapper_distinct | vm_compute; reflexivity].
Defined.



Lemma export_without_rows_witness :
  let w := snd (add_headers "B" (PList [PStr "Y"])
             (snd (add_headers "A" (PList [PStr "X"]) new_wrapper))) in
  export_excel (fun _ => "") w
    = (Ok None,
       set_stdout
         (stdout w ++
          map (fun name => (name ++ ": No Data Found")%string)
              (map fst (output_data w)) ++
          ["FATAL: No Sheets Containing Data - No Excel Doc Generated!"])%list
         w) /\
  stdout (snd (export_excel (fun _ => "") w))
    = ["A: No Data Found"; "B: No Data Found";
       "FATAL: No Sheets Containing Data - No Excel Doc Generated!"].
Proof.
  intros w. split; [|vm_compute; reflexivity].
  apply (export_without_rows (fun _ => "") w).
  intros sheet_name. unfold rows_of. simpl.
  destruct (String.eqb sheet_name "A"); [reflexivity|].
  destruct (String.eqb sheet_name "B"); reflexivity.
Defined.

(** ** Several wrappers: what is shared and what is not *)

Lemma class_level_ret : forall {A : Type} (a : A), class_level (ret a).
Proof. intros A a tstyle d w. reflexivity. Qed.

Lemma class_level_raise : forall {A : Type} e, class_level (@raise A e).
Proof. intros A e tstyle d w. reflexivity. Qed.

Lemma class_level_bind : forall {A B : Type} (m : M A) (k : A -> M B),
  class_level m -> (forall a, class_level (k a)) -> class_level (bind m k).
Proof.
  intros A B m k Hm Hk tstyle d w. unfold bind. rewrite Hm.
  destruct (m w) as [[a|e] w1]; simpl.
  - apply Hk.
  - reflexivity.
Qed.

Lemma class_level_print : forall line, class_level (print line).
Proof. intros line tstyle d w. reflexivity. Qed.

Lemma class_level_add_table_rules : forall sheet_name rules,
  class_level (add_table_rules sheet_name rules).
Proof.
  intros sheet_name. induction rules as [|rule rules IH];
    cbn [add_table_rules].
  - apply class_level_ret.
  - destruct rule; try apply class_level_raise.
    destruct (negb (truthy (dict_get l "formula") &&
                    truthy (dict_get l "bg_color"))).
    + apply class_level_bind; [apply class_level_print|intros _; exact IH].
    + destruct (dict_get l "bg_color"); try apply class_level_raise.
      apply class_level_bind; [intros tstyle d w; reflexivity|intros r].
      apply class_level_bind; [|intros _; exact IH].
      intros tstyle d w. reflexivity.
Qed.

Lemma class_level_conditional_format : forall sheet_name rules,
  class_level (conditional_format sheet_name rules).
Proof.
  intros sheet_name rules. unfold conditional_format.
  destruct rules; try apply class_level_print.
  destruct (forallb is_dict l); [|apply class_level_print].
  apply class_level_bind.
  - intros tstyle d w. reflexivity.
  - intros _. apply class_level_add_table_rules.
Qed.

Lemma class_level_format_cells : forall sheet_name header rule bg_color,
  class_level (format_cells sheet_name header rule bg_color).
Proof. intros sheet_name header rule bg_color tstyle d w. reflexivity. Qed.

Lemma class_level_freeze_column_after : forall sheet_name column_name,
  class_level (freeze_column_after sheet_name column_name).
Proof. intros sheet_name column_name tstyle d w. reflexivity. Qed.

Lemma nth_error_set_nth_same : forall {A : Type} (l : list A) n x y,
  nth_error l n = Some y -> nth_error (set_nth n x l) n = Some x.
Proof.
  induction l as [|a l IH]; intros [|n] x y H; simpl in *;
    try discriminate; eauto.
Qed.

Lemma nth_error_set_nth_other : forall {A : Type} (l : list A) n k x,
  k <> n -> nth_error (set_nth n x l) k = nth_error l k.
Proof.
  induction l as [|a l IH]; intros [|n] [|k] x H; simpl; auto; congruence.
Qed.

Lemma set_nth_same : forall {A : Type} (l : list A) n x,
  nth_error l n = Some x -> set_nth n x l = l.
Proof.
  induction l as [|a l IH]; intros [|n] x H; simpl in *;
    try discriminate; try congruence.
  f_equal. auto.
Qed.

Lemma self_view_with_own : forall p o o',
  self_view p o
    = with_own (self_table_style o) (self_output_data o) (self_view p o').
Proof. reflexivity. Qed.

Lemma class_level_own : forall {A : Type} (m : M A) w,
  class_level m ->
  snd (m w) = with_own (table_style w) (output_data w) (snd (m w)).
Proof.
  intros A m w Hm.
  pose proof (Hm (table_style w) (output_data w) w) as H.
  replace (with_own (table_style w) (output_data w) w) with w in H
    by now destruct w.
  rewrite H at 1. reflexivity.
Qed.

(** A class-level method called on one wrapper acts on every wrapper as if
    it had been called on that one. *)
Lemma call_class_level : forall {A : Type} (m : M A) p n k r p' wk,
  class_level m ->
  call n m p = Some (r, p') ->
  wrapper_of p k = Some wk ->
  r = fst (m wk) /\ wrapper_of p' k = Some (snd (m wk)).
Proof.
  intros A m p n k r p' wk Hm Hcall Hk. unfold call in Hcall.
  unfold wrapper_of in *.
  destruct (nth_error (objects p) n) as [o|] eqn:En; [|discriminate].
  destruct (nth_error (objects p) k) as [ok|] eqn:Ek; [|discriminate].
  simpl in Hk. injection Hk as <-.
  rewrite (self_view_with_own p o ok), Hm in Hcall.
  simpl in Hcall. injection Hcall as <- <-. split; [reflexivity|].
  simpl.
  assert (Hobj : set_nth n o (objects p) = objects p)
    by now apply set_nth_same.
  destruct o as [ts od]. simpl in *. rewrite Hobj, Ek. simpl.
  f_equal. destruct ok as [tsk odk].
  rewrite (class_level_own m (self_view p (mk_instance tsk odk)) Hm) at 5.
  reflexivity.
Qed.

Lemma formatting_method_class_level : forall m,
  formatting_method m -> class_level m.
Proof.
  intros m [sheet_name header rule bg_color|sheet_name rules
           |sheet_name column_name].
  - apply class_level_format_cells.
  - apply class_level_conditional_format.
  - apply class_level_freeze_column_after.
Qed.

Lemma nth_error_snoc : forall {A : Type} (l : list A) x,
  nth_error (l ++ [x]) (List.length l) = Some x.
Proof. induction l as [|a l IH]; intros x; simpl; auto. Qed.

(** X23.  The formatting rules and the freeze settings belong to the class,
    not to the wrapper.  [format_cells], [conditional_format] or
    [freeze_column_after] called on one wrapper returns what the same call
    on any other wrapper of the interpreter returns, and changes that other
    wrapper as its own call would; a wrapper created afterwards starts with
    the rules and settings made so far, not with empty ones. *)
Theorem formatting_is_shared_between_wrappers : forall m p n k r p' wk,
  formatting_method m ->
  call n m p = Some (r, p') ->
  wrapper_of p k = Some wk ->
  r = fst (m wk) /\
  wrapper_of p' k = Some (snd (m wk)) /\
  forall tstyle,
    wrapper_of (snd (ExcelWrapper tstyle p')) (fst (ExcelWrapper tstyle p'))
      = Some (with_own tstyle [] (snd (m wk))).
Proof.
  intros m p n k r p' wk Hm Hcall Hk.
  destruct (call_class_level m p n k r p' wk
              (formatting_method_class_level m Hm) Hcall Hk) as [Hr Hk'].
  split; [exact Hr|]. split; [exact Hk'|].
  intros tstyle. unfold wrapper_of, ExcelWrapper in *. simpl.
  rewrite nth_error_snoc. simpl. f_equal.
  destruct (nth_error (objects p') k) as [o'|]; [|discriminate].
  simpl in Hk'. injection Hk' as Hk'. rewrite <- Hk'. reflexivity.
Qed.

Lemma formatting_is_shared_between_wrappers_witness :
  let p := mk_interpreter [] [] [] []
             [mk_instance "TableStyleMedium9" [];
              mk_instance "TableStyleLight1"
                [("S", mk_sheet [PStr "A"] [[PStr "1"]] None)]] in
  let m := freeze_column_after "S" "A" in
  let wk := mk_wrapper "TableStyleLight1"
              [("S", mk_sheet [PStr "A"] [[PStr "1"]] None)] [] [] [] [] in
  let p' := mk_interpreter [] [] [("S", "A")] []
              [mk_instance "TableStyleMedium9" [];
               mk_instance "TableStyleLight1"
                 [("S", mk_sheet [PStr "A"] [[PStr "1"]] None)]] in
  frozen_columns wk = [] /\
  option_map frozen_columns (wrapper_of p' 1) = Some [("S", "A")] /\
  Ok tt = fst (m wk) /\
  wrapper_of p' 1 = Some (snd (m wk)) /\
  forall tstyle,
    wrapper_of (snd (ExcelWrapper tstyle p')) (fst (ExcelWrapper tstyle p'))
      = Some (with_own tstyle [] (snd (m wk))).
Proof.
  intros p m wk p'. split; [reflexivity|]. split; [reflexivity|].
  apply (formatting_is_shared_between_wrappers m p 0 1 (Ok tt) p' wk).
  - apply fm_freeze_column_after.
  - reflexivity.
  - reflexivity.
Defined.

(** ** The table store is the wrapper's own *)

Lemma class_state_ret : forall {A : Type} s (a : A),
  preserves (fun w => class_state w = s) (ret a).
Proof. intros. apply preserves_ret. Qed.

Lemma class_state_create_sheet : forall s sheet_name,
  preserves (fun w => class_state w = s) (_create_sheet sheet_name).
Proof.
  intros s sheet_name w Hw. unfold _create_sheet, bind, get.
  destruct (assoc sheet_name (output_data w)); exact Hw.
Qed.

Lemma class_state_sheet_item : forall s sheet_name,
  preserves (fun w => class_state w = s) (sheet_item sheet_name).
Proof.
  intros s sheet_name w Hw. unfold sheet_item, bind, get.
  destruct (assoc sheet_name (output_data w)); exact Hw.
Qed.

Lemma class_state_update_sheet : forall s sheet_name f,
  preserves (fun w => class_state w = s) (update_sheet sheet_name f).
Proof.
  intros s sheet_name f. unfold update_sheet.
  apply preserves_bind; [apply class_state_sheet_item|].
  intros sh. apply preserves_modify. auto.
Qed.

Lemma class_state_add_batch : forall s sheet_name rows,
  preserves (fun w => class_state w = s) (add_batch sheet_name rows).
Proof.
  intros s sheet_name. induction rows as [|row rows IH]; cbn [add_batch].
  - apply preserves_ret.
  - apply preserves_bind; [apply preserves_lift|intros n].
    apply preserves_bind; [apply class_state_sheet_item|intros sh].
    destruct (negb (Nat.eqb n (List.length (headers sh))));
      [apply preserves_raise|].
    apply preserves_bind; [apply preserves_lift|intros items].
    apply preserves_bind; [apply class_state_update_sheet|intros _].
    exact IH.
Qed.

Lemma store_method_class_state : forall py_repr s m,
  store_method py_repr m -> preserves (fun w => class_state w = s) m.
Proof.
  intros py_repr s m [sheet_name input|sheet_name input|sheet_name hdrs].
  - unfold add_headers.
    apply preserves_bind; [apply class_state_create_sheet|intros _].
    apply preserves_bind; [apply preserves_lift|intros data_list].
    apply preserves_bind; [apply preserves_lift|intros distinct].
    destruct (negb (Nat.eqb (List.length data_list) (List.length distinct)));
      [apply preserves_raise|apply class_state_update_sheet].
  - unfold add_data, append_row.
    apply preserves_bind; [apply class_state_create_sheet|intros _].
    destruct (negb (is_list_tuple_set input)); [apply preserves_raise|].
    apply preserves_bind; [apply preserves_lift|intros first].
    destruct (is_list_tuple_set first).
    + apply preserves_bind; [apply preserves_lift|intros rows].
      apply class_state_add_batch.
    + apply preserves_bind; [apply preserves_lift|intros n].
      apply preserves_bind; [apply class_state_sheet_item|intros sh].
      destruct (Nat.eqb n (List.length (headers sh)));
        [|apply preserves_raise].
      apply preserves_bind; [apply preserves_lift|intros items].
      apply class_state_update_sheet.
  - intros w Hw. unfold sort_data, bind, get.
    destruct (assoc sheet_name (output_data w)) as [sh|]; [|exact Hw].
    unfold lift.
    destruct (match hdrs with PStr _ => Ok [hdrs] | _ => py_iter hdrs end)
      as [hs|e]; [|exact Hw].
    destruct (resolve_sort_keys py_repr (headers sh) hs) as [keys|e];
      [|exact Hw].
    now apply class_state_update_sheet.
Qed.

(** X24.  The table store is the wrapper's own: [add_headers], [add_data]
    and [sort_data] called on one wrapper, whether they return or raise,
    leave every other wrapper of the interpreter exactly as it was
    (sheets, rows, sort keys, and the shared rules and settings). *)
Theorem store_is_per_wrapper : forall py_repr m p n k r p',
  store_method py_repr m ->
  call n m p = Some (r, p') ->
  k <> n ->
  wrapper_of p' k = wrapper_of p k.
Proof.
  intros py_repr m p n k r p' Hm Hcall Hkn. unfold call in Hcall.
  destruct (nth_error (objects p) n) as [o|] eqn:En; [|discriminate].
  pose proof (store_method_class_state py_repr _ m Hm (self_view p o) eq_refl)
    as Hs.
  destruct (m (self_view p o)) as [r0 w]. injection Hcall as <- <-.
  unfold wrapper_of. simpl.
  rewrite (nth_error_set_nth_other _ _ _ _ Hkn).
  destruct (nth_error (objects p) k) as [ok|]; [|reflexivity].
  simpl. f_equal. unfold class_state in Hs. simpl in Hs.
  injection Hs as H1 H2 H3 H4. unfold self_view. simpl. congruence.
Qed.

Lemma store_is_per_wrapper_witness :
  let p := mk_interpreter [] [] [("S", "A")] []
             [mk_instance "TableStyleMedium9" [];
              mk_instance "TableStyleLight1"
                [("S", mk_sheet [PStr "A"] [[PStr "1"]] None)]] in
  let p' := mk_interpreter [] [] [("S", "A")] []
              [mk_instance "TableStyleMedium9"
                 [("S", mk_sheet [PStr "B"; PStr "C"] [] None)];
               mk_instance "TableStyleLight1"
                 [("S", mk_sheet [PStr "A"] [[PStr "1"]] None)]] in
  call 0 (add_headers "S" (PList [PStr "B"; PStr "C"])) p = Some (Ok tt, p') /\
  wrapper_of p' 1 = wrapper_of p 1.
Proof.
  intros p p'. split; [reflexivity|].
  apply (store_is_per_wrapper (fun _ => "")
           (add_headers "S" (PList [PStr "B"; PStr "C"])) p 0 1 (Ok tt) p').
  - apply sm_add_headers.
  - reflexivity.
  - discriminate.
Defined.

(** ** A freeze setting made through another wrapper *)

Section SharedFreeze.

Variable py_repr : pyval -> string.




End SharedFreeze.

